(** * CSBS backend: the work tracker's cached counts

    A shallow embedding of [server.js]: the Mongoose schemas as records, the
    document store as a value threaded through a small state-and-exception
    monad, and the route handlers as computations in that monad.

    Modelling choices, all of them visible in the definitions below:
    - request body fields are absent or strings; JavaScript truthiness of
      such a field is [truthy];
    - an ObjectId is the string that [toString()] yields; the cast that
      Mongoose applies to an identifier given as a string (the [:workId] and
      [:id] parameters, the [userId] of a pushed status entry) is a function
      that the routes take, [castObjectId]: it yields the ObjectId, or
      nothing for a string that is no identifier;
    - a document is an [_id] next to the fields of its schema; the Work
      collection is a finite map from [_id] to those fields, the WorkTotals
      collection holds at most one document, the User collection is a list
      in insertion order;
    - a Work document read from the store has the defaults of its schema
      ([hydrate]), and [save()] validates a Work document against its schema
      before it calls the store ([validWork]);
    - every call into the store may reject: the world carries a list of
      outcomes, one per call, consulted in order (an exhausted list means
      that the store answers);
    - a handler reads the clock once ([now]) and the ObjectId of a document
      it creates is handed to it ([newId]);
    - the two upload routes work on the Mat collection, the temporary files
      and the object storage, and have a state and a monad of their own
      (further down);
    - the health check and the routes that only list documents are left
      out. *)

From stdpp Require Import gmap strings list fin_maps.

Open Scope string_scope.
Open Scope list_scope.
Open Scope nat_scope.

(** ** Schemas *)

Module StatusEntry.
(** [workStatusSubSchema]. [userId] is not required by the schema; where it
    is present it is an ObjectId, held as the string that [toString()]
    yields. (After a push whose [userId] did not cast, the field holds the
    string that was given; [save()] rejects such a document.) *)
Record t := mk {
  userId : option string;
  username : string;
  state : string;
  updatedAt : Z;
}.
End StatusEntry.

Module Counts.
(** [workCountsSubSchema]. *)
Record t := mk {
  completed : nat;
  doing : nat;
  notYetStarted : nat;
}.
End Counts.

Module Work.
(** [workSchema]. [status] and [counts] are what the handlers test with
    [||] and [!]: [None] is the absent field. A record in the store may lack
    them; a document that Mongoose has read from the store does not (see
    [hydrate]). *)
Record t := mk {
  subject : string;
  work : string;
  deadline : string;
  addedBy : string;
  fileUrl : string;
  createdAt : Z;
  status : option (list StatusEntry.t);
  counts : option Counts.t;
}.
End Work.

Module WorkTotals.
(** [workTotalsSchema]. *)
Record t := mk {
  totalWorks : nat;
  completed : nat;
  doing : nat;
  notYetStarted : nat;
  updatedAt : Z;
}.
End WorkTotals.

Module User.
(** [userSchema]. *)
Record t := mk {
  email : string;
  password : string;
  name : option string;
  pb : string;
  isad : bool;
}.
End User.

(** A document in memory: the [_id] that Mongoose adds, and the fields of
    the schema. *)
Record Document (A : Type) := mkDocument {
  _id : string;
  fields : A;
}.
Arguments mkDocument {A} _ _.
Arguments _id {A} _.
Arguments fields {A} _.

(** ** JavaScript helpers *)

(** [!!v] for a body field. *)
Definition truthy (v : option string) : bool :=
  match v with
  | Some s => negb (String.eqb s "")
  | None => false
  end.

(** [v || d] for a body field with a string default. *)
Definition orString (v : option string) (d : string) : string :=
  match v with
  | Some s => if String.eqb s "" then d else s
  | None => d
  end.

(** [n || 0] for a number. *)
Definition orZero (n : nat) : nat := if Nat.eqb n 0 then 0 else n.

(** The string that a field which passed the [!field] test holds. *)
Definition str (v : option string) : string := default "" v.

(** [Array.prototype.findIndex]: the first index whose element satisfies
    the predicate, [-1] when there is none. *)
Fixpoint findIndexFrom {A} (p : A → bool) (l : list A) (i : Z) : Z :=
  match l with
  | [] => (-1)%Z
  | x :: r => if p x then i else findIndexFrom p r (i + 1)%Z
  end.

Definition findIndex {A} (p : A → bool) (l : list A) : Z := findIndexFrom p l 0.

(** [Array.prototype.includes] on strings. *)
Definition includes (l : list string) (v : option string) : bool :=
  match v with
  | Some s => existsb (String.eqb s) l
  | None => false
  end.

(** ** Pure parts of the server's routines *)

(** [isValidState] (lines 184-186). *)
Definition isValidState (s : option string) : bool :=
  includes ["completed"; "doing"; "not yet started"] s.

(** The body of the [forEach] callback in [recalcAndSaveWorkCounts]: one
    status entry bumps one of the three counters. *)
Definition countStep (c : Counts.t) (s : StatusEntry.t) : Counts.t :=
  if String.eqb (StatusEntry.state s) "completed" then
    Counts.mk (S (Counts.completed c)) (Counts.doing c) (Counts.notYetStarted c)
  else if String.eqb (StatusEntry.state s) "doing" then
    Counts.mk (Counts.completed c) (S (Counts.doing c)) (Counts.notYetStarted c)
  else
    Counts.mk (Counts.completed c) (Counts.doing c) (S (Counts.notYetStarted c)).

(** The counting part of [recalcAndSaveWorkCounts]: [(workDoc.status || [])]
    is walked with the three counters starting at zero. *)
Definition recalcCounts (status : option (list StatusEntry.t)) : Counts.t :=
  foldl countStep (Counts.mk 0 0 0) (default [] status).

(** [workDoc.counts = {...}] and the assignment of a new status array. *)
Definition setCounts (d : Document Work.t) (c : Counts.t) : Document Work.t :=
  let f := fields d in
  mkDocument (_id d)
    (Work.mk (Work.subject f) (Work.work f) (Work.deadline f) (Work.addedBy f)
             (Work.fileUrl f) (Work.createdAt f) (Work.status f) (Some c)).

Definition setStatus (d : Document Work.t) (l : list StatusEntry.t)
  : Document Work.t :=
  let f := fields d in
  mkDocument (_id d)
    (Work.mk (Work.subject f) (Work.work f) (Work.deadline f) (Work.addedBy f)
             (Work.fileUrl f) (Work.createdAt f) (Some l) (Work.counts f)).

(** The test of line 425, [s.userId?.toString() === userId?.toString()]:
    the string of the stored ObjectId against the string of the request,
    as it was sent. *)
Definition sameUser (userId : string) (s : StatusEntry.t) : bool :=
  match StatusEntry.userId s with
  | Some u => String.eqb u userId
  | None => false
  end.

(** Lines 429-431. *)
Definition overwrite (username state : string) (now : Z) (s : StatusEntry.t)
  : StatusEntry.t :=
  StatusEntry.mk (StatusEntry.userId s) username state now.

(** ** Mongoose: schema defaults, casts and validation *)

(** The defaults of [workSchema] that a document read from the store gets
    for what its record lacks: an empty status array (line 99) and counts
    (line 101) whose three numbers default to 0 (lines 84-86). *)
Definition hydrate (f : Work.t) : Work.t :=
  Work.mk (Work.subject f) (Work.work f) (Work.deadline f) (Work.addedBy f)
          (Work.fileUrl f) (Work.createdAt f)
          (Some (default [] (Work.status f)))
          (Some (default (Counts.mk 0 0 0) (Work.counts f))).

(** The [enum] of the state of a status entry (line 74). *)
Definition stateEnum : list string := ["completed"; "doing"; "not yet started"].

Section Casting.

(** Mongoose's cast of a string to an ObjectId, shown as the string of the
    ObjectId; [None] is a CastError. *)
Variable castObjectId : string → option string.

(** What the [userId] field of a pushed entry holds (line 70): the ObjectId
    that the given string casts to. A string that does not cast is kept as
    it was given, and fails the validation at [save()]. *)
Definition castOrKeep (userId : string) : string :=
  default userId (castObjectId userId).

(** The in-memory mutation of the status route (lines 425-435): [findIndex]
    picks the first entry that passes the test of line 425, which gets the
    new state, username and timestamp; without a match a new entry is
    pushed, its [userId] cast to an ObjectId. *)
Definition upsertStatus (l : list StatusEntry.t)
    (userId username state : string) (now : Z) : list StatusEntry.t :=
  let existingIndex := findIndex (sameUser userId) l in
  if (0 <=? existingIndex)%Z then
    alter (overwrite username state now) (Z.to_nat existingIndex) l
  else
    l ++ [StatusEntry.mk (Some (castOrKeep userId)) username state now].

(** The validation of a status entry at [save()]: the state is one of the
    enum (lines 72-76), and the [userId], if there is one, is an ObjectId
    (line 70). *)
Definition validEntry (s : StatusEntry.t) : bool :=
  includes stateEnum (Some (StatusEntry.state s))
  && match StatusEntry.userId s with
     | Some u => match castObjectId u with Some _ => true | None => false end
     | None => true
     end.

(** The validation of a Work document at [save()]: the three required
    strings (lines 92-94) are not empty, and every status entry is valid. *)
Definition validWork (f : Work.t) : bool :=
  negb (String.eqb (Work.subject f) "") && negb (String.eqb (Work.work f) "")
  && negb (String.eqb (Work.deadline f) "")
  && forallb validEntry (default [] (Work.status f)).

End Casting.

(** ** The document store and the handlers' monad *)

Record Store := mkStore {
  users : list (Document User.t);
  works : gmap string Work.t;
  totals : option WorkTotals.t;
}.

(** [faults]: what the store will answer to the coming calls, in order;
    [Some err] is a rejection with that error text. *)
Record World := mkWorld {
  store : Store;
  faults : list (option string);
}.

Inductive Outcome (A : Type) :=
| Ret (a : A)
| Throw (err : string).
Arguments Ret {A} a.
Arguments Throw {A} err.

Definition M (A : Type) : Type := World → Outcome A * World.

Definition ret {A} (a : A) : M A := λ w, (Ret a, w).

Definition throw {A} (err : string) : M A := λ w, (Throw err, w).

Definition bind {A B} (m : M A) (k : A → M B) : M B := λ w,
  match m w with
  | (Ret a, w') => k a w'
  | (Throw err, w') => (Throw err, w')
  end.

(** [try { m } catch (err) { h err }]. *)
Definition tryCatch {A} (m : M A) (h : string → M A) : M A := λ w,
  match m w with
  | (Ret a, w') => (Ret a, w')
  | (Throw err, w') => h err w'
  end.

Notation "'let*' x ':=' m 'in' k" := (bind m (λ x, k))
  (at level 10, x name, m at level 100, k at level 200, only parsing).

(** One awaited call into the store: it rejects when the next outcome says
    so, and runs [op] otherwise. [op] itself may reject (a duplicate key). *)
Definition storeCall {A} (op : Store → Outcome A * Store) : M A := λ w,
  match faults w with
  | Some err :: fs => (Throw err, mkWorld (store w) fs)
  | None :: fs => let '(a, s) := op (store w) in (a, mkWorld s fs)
  | [] => let '(a, s) := op (store w) in (a, mkWorld s [])
  end.

(** [Promise.all] over computations that were all started: every one of them
    runs to its end, and the whole rejects with the first rejection in list
    order. *)
Fixpoint promiseAll {A} (ms : list (M A)) : M (list A) := λ w,
  match ms with
  | [] => (Ret [], w)
  | m :: rest =>
      let '(o, w1) := m w in
      let '(os, w2) := promiseAll rest w1 in
      match o, os with
      | Ret a, Ret l => (Ret (a :: l), w2)
      | Throw err, _ => (Throw err, w2)
      | Ret _, Throw err => (Throw err, w2)
      end
  end.

(** *** Model calls *)

(** The store after document [d] was written under its [_id]. *)
Definition withWork (s : Store) (d : Document Work.t) : Store :=
  mkStore (users s) (<[_id d := fields d]> (works s)) (totals s).

(** [User.findOne({ email })]. *)
Definition User_findOne (email : string) : M (option (Document User.t)) :=
  storeCall (λ s,
    (Ret (find (λ u, String.eqb (User.email (fields u)) email) (users s)), s)).

(** [newUser.save()]. *)
Definition User_save (u : Document User.t) : M unit :=
  storeCall (λ s, (Ret (), mkStore (users s ++ [u]) (works s) (totals s))).

(** [Work.find()]: every record, as a document with the schema defaults. *)
Definition Work_find : M (list (Document Work.t)) :=
  storeCall (λ s,
    (Ret ((λ kv, mkDocument kv.1 (hydrate kv.2)) <$> map_to_list (works s)), s)).

(** [WorkTotals.findOne()] and [totalsDoc.save()]. *)
Definition WorkTotals_findOne : M (option WorkTotals.t) :=
  storeCall (λ s, (Ret (totals s), s)).

Definition WorkTotals_save (t : WorkTotals.t) : M unit :=
  storeCall (λ s, (Ret (), mkStore (users s) (works s) (Some t))).

(** The [$group] stage of [recomputeAndSaveGlobalTotals], with [_id: null]:
    one group, made when the first document arrives; [$sum: 1] counts the
    documents and [$sum: "$counts.x"] adds the field of the record as it is
    stored, a missing one adding nothing. *)
Record Group := mkGroup {
  g_totalWorks : nat;
  g_completed : nat;
  g_doing : nat;
  g_notYetStarted : nat;
}.

Definition countsField (f : Counts.t → nat) (d : Work.t) : nat :=
  match Work.counts d with
  | Some c => f c
  | None => 0
  end.

Definition groupStep (d : Work.t) (acc : option Group) : option Group :=
  let g := default (mkGroup 0 0 0 0) acc in
  Some (mkGroup (g_totalWorks g + 1)
                (g_completed g + countsField Counts.completed d)
                (g_doing g + countsField Counts.doing d)
                (g_notYetStarted g + countsField Counts.notYetStarted d)).

Definition groupAll (ws : gmap string Work.t) : list Group :=
  match map_fold (λ _ d acc, groupStep d acc) None ws with
  | Some g => [g]
  | None => []
  end.

Definition Work_aggregate : M (list Group) :=
  storeCall (λ s, (Ret (groupAll (works s)), s)).

(** ** Responses *)

(** The values that the handlers put into a response body. *)
Inductive Json :=
| JBool (b : bool)
| JStr (s : string)
| JNull
| JWork (d : Document Work.t)
| JTotals (t : WorkTotals.t)
| JCounts (c : Counts.t).

(** [res.status(code).json(body)]; [res.json(body)] is status 200. *)
Record Response := mkResponse {
  statusCode : nat;
  json : list (string * Json);
}.

(** [totals] may be [null]; an [undefined] value is left out by the
    serializer. *)
Definition jsonTotals (t : option WorkTotals.t) : Json :=
  match t with
  | Some t => JTotals t
  | None => JNull
  end.

Definition jsonCounts (c : option Counts.t) : list (string * Json) :=
  match c with
  | Some c => [("counts", JCounts c)]
  | None => []
  end.

(** What [jwt.sign] is given in the login route. *)
Record TokenPayload := mkTokenPayload {
  tp_userId : string;
  tp_email : string;
  tp_name : option string;
  tp_isad : bool;
}.

(** [{ success: false, message }] under a status code, and the body of the
    [catch] blocks. *)
Definition failure (code : nat) (message : string) : Response :=
  mkResponse code [("success", JBool false); ("message", JStr message)].

Definition caught (message err : string) : M Response :=
  ret (mkResponse 500 [("success", JBool false); ("message", JStr message);
                       ("error", JStr err)]).

(** A request to one of the routes below. *)
Inductive Request :=
| PostRegister (body : gmap string string) (newId : string)
| PostLogin (body : gmap string string)
| PostWorkAdd (body : gmap string string) (newId : string) (now : Z)
| DeleteWork (id : string) (now : Z)
| PostWorkStatus (workId : string) (body : gmap string string) (now : Z)
| GetWorkStatus (workId : string)
| GetWorkTotals
| PostRecomputeTotals (now : Z).

(** ** Helper routines and routes *)

(** [recomputeAndSaveGlobalTotals] (lines 149-181). *)
Definition recomputeAndSaveGlobalTotals (now : Z) : M WorkTotals.t :=
  let* agg := Work_aggregate in
  let* found := WorkTotals_findOne in
  let totalsDoc :=
    match found with
    | Some t => t
    | None => WorkTotals.mk 0 0 0 0 now
    end in
  let totalsDoc :=
    match agg with
    | g :: _ =>
        WorkTotals.mk (orZero (g_totalWorks g)) (orZero (g_completed g))
                      (orZero (g_doing g)) (orZero (g_notYetStarted g))
                      (WorkTotals.updatedAt totalsDoc)
    | [] => WorkTotals.mk 0 0 0 0 (WorkTotals.updatedAt totalsDoc)
    end in
  let totalsDoc :=
    WorkTotals.mk (WorkTotals.totalWorks totalsDoc) (WorkTotals.completed totalsDoc)
                  (WorkTotals.doing totalsDoc) (WorkTotals.notYetStarted totalsDoc)
                  now in
  let* _ := WorkTotals_save totalsDoc in
  ret totalsDoc.

Section Routes.

(** Mongoose's cast to an ObjectId, the libraries behind registration and
    login, and the environment. *)
Variable castObjectId : string → option string.
Variable bcrypt_hash : string → nat → string.
Variable bcrypt_compare : string → string → bool.
Variable jwt_sign : TokenPayload → string → string → string.
Variable JWT_SECRET : option string.

(** [Work.findById(id)]: the identifier is cast to an ObjectId, which fails
    before the store is called; the record found is handed over as a
    document with the schema defaults. *)
Definition Work_findById (id : string) : M (option (Document Work.t)) :=
  match castObjectId id with
  | None => throw "Cast to ObjectId failed"
  | Some oid =>
      storeCall (λ s, (Ret ((λ f, mkDocument oid (hydrate f)) <$> works s !! oid), s))
  end.

(** [Work.findByIdAndDelete(id)], with the same cast. *)
Definition Work_findByIdAndDelete (id : string) : M (option (Document Work.t)) :=
  match castObjectId id with
  | None => throw "Cast to ObjectId failed"
  | Some oid =>
      storeCall (λ s,
        (Ret ((λ f, mkDocument oid (hydrate f)) <$> works s !! oid),
         mkStore (users s) (delete oid (works s)) (totals s)))
  end.

(** [newWork.save()] of a document made with [new Work(...)]: the document
    is validated, and the [_id] index rejects a key that is taken. *)
Definition Work_insert (d : Document Work.t) : M unit :=
  if validWork castObjectId (fields d) then
    storeCall (λ s,
      match works s !! _id d with
      | Some _ => (Throw "E11000 duplicate key error", s)
      | None => (Ret (), withWork s d)
      end)
  else throw "Work validation failed".

(** [workDoc.save()] of a document that was read from the store: the
    document is validated, and the store is called only when it passes. *)
Definition Work_save (d : Document Work.t) : M unit :=
  if validWork castObjectId (fields d) then
    storeCall (λ s, (Ret (), withWork s d))
  else throw "Work validation failed".

(** [recalcAndSaveWorkCounts] (lines 125-143). *)
Definition recalcAndSaveWorkCounts (workDoc : option (Document Work.t))
  : M (option (Document Work.t)) :=
  match workDoc with
  | None => ret None
  | Some d =>
      let d' := setCounts d (recalcCounts (Work.status (fields d))) in
      let* _ := Work_save d' in
      ret (Some d')
  end.

(** [POST /api/register] (lines 207-224). *)
Definition register (body : gmap string string) (newId : string) : M Response :=
  tryCatch
    (let email := body !! "email" in
     let password := body !! "password" in
     let name := body !! "name" in
     if negb (truthy email) || negb (truthy password) then
       ret (mkResponse 400 [("message", JStr "email & password required")])
     else
       let* existing := User_findOne (str email) in
       match existing with
       | Some _ => ret (mkResponse 400 [("message", JStr "Email already exists")])
       | None =>
           let hashed := bcrypt_hash (str password) 10 in
           let newUser :=
             mkDocument newId (User.mk (str email) hashed name (str password) false) in
           let* _ := User_save newUser in
           ret (mkResponse 201 [("success", JBool true);
                                ("message", JStr "User registered")])
       end)
    (caught "Registration failed").

(** [POST /api/login] (lines 229-251). *)
Definition login (body : gmap string string) : M Response :=
  tryCatch
    (let email := body !! "email" in
     let password := body !! "password" in
     if negb (truthy email) || negb (truthy password) then
       ret (mkResponse 400 [("message", JStr "email & password required")])
     else
       let* user := User_findOne (str email) in
       match user with
       | None => ret (mkResponse 401 [("message", JStr "Invalid credentials")])
       | Some u =>
           if negb (bcrypt_compare (str password) (User.password (fields u))) then
             ret (mkResponse 401 [("message", JStr "Invalid credentials")])
           else
             let token :=
               jwt_sign (mkTokenPayload (_id u) (User.email (fields u))
                                        (User.name (fields u)) (User.isad (fields u)))
                        (orString JWT_SECRET "supersecret") "1d" in
             ret (mkResponse 200 [("success", JBool true); ("token", JStr token)])
       end)
    (caught "Login failed").

(** [POST /api/work/add] (lines 347-372). *)
Definition addWork (body : gmap string string) (newId : string) (now : Z)
  : M Response :=
  tryCatch
    (let subject := body !! "subject" in
     let workText := body !! "work" in
     let deadline := body !! "deadline" in
     if negb (truthy subject) || negb (truthy workText) || negb (truthy deadline) then
       ret (failure 400 "subject, work, deadline required")
     else
       let newWork :=
         mkDocument newId
           (Work.mk (str subject) (str workText) (str deadline)
                    (orString (body !! "addedBy") "Admin")
                    (orString (body !! "fileUrl") "")
                    now (Some []) (Some (Counts.mk 0 0 0))) in
       let* _ := Work_insert newWork in
       let* totals := recomputeAndSaveGlobalTotals now in
       ret (mkResponse 200 [("success", JBool true); ("message", JStr "Work added");
                            ("newWork", JWork newWork); ("totals", JTotals totals)]))
    (caught "Failed to add work").

(** [DELETE /api/work/:id] (lines 392-404). *)
Definition deleteWork (id : string) (now : Z) : M Response :=
  tryCatch
    (let* removed := Work_findByIdAndDelete id in
     match removed with
     | None => ret (failure 404 "Work not found")
     | Some _ =>
         let* totals := recomputeAndSaveGlobalTotals now in
         ret (mkResponse 200 [("success", JBool true); ("message", JStr "Work deleted");
                              ("totals", JTotals totals)])
     end)
    (caught "Error deleting work").

(** [POST /api/work/status/:workId] (lines 413-448). Reading [findIndex]
    off an absent [status] would be a TypeError; the document that
    [Work_findById] hands over has a status array. The response shows
    [workDoc] as the recalculation left it: the one object, now with its
    counts. *)
Definition updateStatus (workId : string) (body : gmap string string) (now : Z)
  : M Response :=
  tryCatch
    (let userId := body !! "userId" in
     let username := body !! "username" in
     let state := body !! "state" in
     if negb (truthy userId) || negb (truthy username) || negb (truthy state) then
       ret (failure 400 "userId, username, state required")
     else if negb (isValidState state) then
       ret (failure 400 "Invalid state")
     else
       let* workDoc := Work_findById workId in
       match workDoc with
       | None => ret (failure 404 "Work not found")
       | Some d =>
           match Work.status (fields d) with
           | None => throw "Cannot read properties of undefined (reading 'findIndex')"
           | Some l =>
               let d1 :=
                 setStatus d (upsertStatus castObjectId l (str userId) (str username)
                                           (str state) now) in
               let* saved := recalcAndSaveWorkCounts (Some d1) in
               let* totals := recomputeAndSaveGlobalTotals now in
               ret (mkResponse 200 [("success", JBool true);
                                    ("message", JStr "Status updated");
                                    ("work", JWork (default d1 saved));
                                    ("totals", JTotals totals)])
           end
       end)
    (caught "Failed to update status").

(** [GET /api/work/status/:workId] (lines 453-469); [workDoc.counts] is
    read after the recalculation, if there was one. The document that
    [Work_findById] hands over has counts, so that the recalculation of
    line 461 is not reached. *)
Definition getStatus (workId : string) : M Response :=
  tryCatch
    (let* workDoc := Work_findById workId in
     match workDoc with
     | None => ret (failure 404 "Work not found")
     | Some d =>
         let* d1 :=
           match Work.counts (fields d) with
           | None =>
               let* saved := recalcAndSaveWorkCounts (Some d) in
               ret (default d saved)
           | Some _ => ret d
           end in
         ret (mkResponse 200
                (("success", JBool true) :: jsonCounts (Work.counts (fields d1))))
     end)
    (caught "Error fetching counts").

(** [GET /api/work/totals] (lines 474-482). *)
Definition getTotals : M Response :=
  tryCatch
    (let* totals := WorkTotals_findOne in
     ret (mkResponse 200 [("success", JBool true); ("totals", jsonTotals totals)]))
    (caught "Error fetching totals").

(** [POST /api/work/recompute-totals] (lines 487-500). *)
Definition recomputeTotals (now : Z) : M Response :=
  tryCatch
    (let* allWorks := Work_find in
     let* _ := promiseAll (map (λ w, recalcAndSaveWorkCounts (Some w)) allWorks) in
     let* totals := recomputeAndSaveGlobalTotals now in
     ret (mkResponse 200 [("success", JBool true); ("message", JStr "Recomputed totals");
                          ("totals", JTotals totals)]))
    (caught "Failed to recompute totals").

Definition handle (r : Request) : M Response :=
  match r with
  | PostRegister body newId => register body newId
  | PostLogin body => login body
  | PostWorkAdd body newId now => addWork body newId now
  | DeleteWork id now => deleteWork id now
  | PostWorkStatus workId body now => updateStatus workId body now
  | GetWorkStatus workId => getStatus workId
  | GetWorkTotals => getTotals
  | PostRecomputeTotals now => recomputeTotals now
  end.

(** The server handling requests one after the other; the world it ends in. *)
Definition serve (rs : list Request) (w : World) : World :=
  foldl (λ w r, (handle r w).2) w rs.

End Routes.

(** ** Vocabulary of the properties *)

(** The three tallies of a status list, said without the loop. *)
Definition isCompleted (s : StatusEntry.t) : Prop := StatusEntry.state s = "completed".
Definition isDoing (s : StatusEntry.t) : Prop := StatusEntry.state s = "doing".
Definition isRemaining (s : StatusEntry.t) : Prop :=
  StatusEntry.state s ≠ "completed" ∧ StatusEntry.state s ≠ "doing".

Definition sumCounts (c : Counts.t) : nat :=
  Counts.completed c + Counts.doing c + Counts.notYetStarted c.

(** The cached counts of an assignment add up to the length of its status
    list. *)
Definition countsOk (f : Work.t) : Prop :=
  ∃ c, Work.counts f = Some c ∧ sumCounts c = length (default [] (Work.status f)).

(** The number of status entries that carry a user identifier. *)
Definition entriesFor (uid : string) (l : list StatusEntry.t) : nat :=
  length (filter (λ s, StatusEntry.userId s = Some uid) l).

(** The sum of one field of the counts over all assignment records. *)
Definition sumOver (f : Counts.t → nat) (ws : gmap string Work.t) : nat :=
  sum_list_with (λ kv, countsField f kv.2) (map_to_list ws).

(** A field of a response body. *)
Definition field (k : string) (r : Response) : option Json :=
  snd <$> find (λ kv, String.eqb kv.1 k) (json r).


(** An assignment record after its counts were recalculated. *)
Definition recalcFields (f : Work.t) : Work.t :=
  Work.mk (Work.subject f) (Work.work f) (Work.deadline f) (Work.addedBy f)
          (Work.fileUrl f) (Work.createdAt f) (Work.status f)
          (Some (recalcCounts (Work.status f))).

(** An assignment record after the forced recompute: read with the schema
    defaults, and its counts recalculated. *)
Definition recomputed (f : Work.t) : Work.t := recalcFields (hydrate f).

(** The global summary of a Work collection. *)
Definition totalsOf (ws : gmap string Work.t) (now : Z) : WorkTotals.t :=
  WorkTotals.mk (size ws) (sumOver Counts.completed ws) (sumOver Counts.doing ws)
                (sumOver Counts.notYetStarted ws) now.

(** The store answers the next call. *)
Definition answers (w : World) : bool :=
  match faults w with
  | Some _ :: _ => false
  | _ => true
  end.

(** The uniform envelope: a boolean [success], and a [message] on an error
    response. *)
Definition hasSuccess (r : Response) : Prop :=
  ∃ b, field "success" r = Some (JBool b).

Definition hasMessage (r : Response) : Prop :=
  ∃ m, field "message" r = Some (JStr m).

Definition isError (r : Response) : Prop := 400 ≤ statusCode r.

Definition envelope (r : Response) : Prop :=
  hasSuccess r ∧ (isError r → hasMessage r).

(** Every assignment record in the store satisfies [ok]. *)
Definition storeOk (ok : Work.t → Prop) (s : Store) : Prop :=
  map_Forall (λ _, ok) (works s).

(** [m] keeps [ok] of every assignment record, and what it returns
    satisfies [R]. *)
Definition keeps (ok : Work.t → Prop) {A} (m : M A) (R : A → Prop) : Prop :=
  ∀ w, storeOk ok (store w) →
       storeOk ok (store (m w).2) ∧ ∀ a, (m w).1 = Ret a → R a.

(** ** Sample data *)

(** Stand-ins for the hashing and signing libraries. *)
Definition sample_hash (password : string) (rounds : nat) : string :=
  String.append "hashed:" password.

Definition sample_compare (password hashed : string) : bool :=
  String.eqb (String.append "hashed:" password) hashed.

Definition sample_sign (p : TokenPayload) (secret expiresIn : string) : string :=
  String.append (tp_userId p) (String.append "." secret).

(** A stand-in for the cast to an ObjectId: 24 hexadecimal digits, shown in
    lower case. *)
Definition isHexDigit (c : Ascii.ascii) : bool :=
  let n := Ascii.nat_of_ascii c in
  (48 <=? n) && (n <=? 57) || (65 <=? n) && (n <=? 70) || (97 <=? n) && (n <=? 102).

Definition lowerHexDigit (c : Ascii.ascii) : Ascii.ascii :=
  let n := Ascii.nat_of_ascii c in
  if (65 <=? n) && (n <=? 70) then Ascii.ascii_of_nat (n + 32) else c.

Fixpoint mapString (f : Ascii.ascii → Ascii.ascii) (s : string) : string :=
  match s with
  | EmptyString => EmptyString
  | String c r => String (f c) (mapString f r)
  end.

Definition sample_cast (s : string) : option string :=
  if (String.length s =? 24) && forallb isHexDigit (String.list_ascii_of_string s)
  then Some (mapString lowerHexDigit s)
  else None.

(** Identifiers of assignments and of users. *)
Definition wid0 : string := "66a1f0c4e2b3d4a5f6071800".
Definition wid1 : string := "66a1f0c4e2b3d4a5f6071801".
Definition wid2 : string := "66a1f0c4e2b3d4a5f6071802".
Definition wid7 : string := "66a1f0c4e2b3d4a5f6071807".
Definition wid9 : string := "66a1f0c4e2b3d4a5f6071809".
Definition uid1 : string := "65c0de00aa11bb22cc33dd01".
Definition uid2 : string := "65c0de00aa11bb22cc33dd02".
Definition uid3 : string := "65c0de00aa11bb22cc33dd03".
Definition uid4 : string := "65c0de00aa11bb22cc33dd04".

(** The identifier of an uploaded material. *)
Definition mid1 : string := "67b2e1d5f3c4a5b6c7d80901".

(** The identifier of user 2 as a client may send it: the same 24 digits in
    upper case. *)
Definition uid2_upper : string := "65C0DE00AA11BB22CC33DD02".

Definition emptyStore : Store := mkStore [] ∅ None.

Definition body_of (l : list (string * string)) : gmap string string :=
  list_to_map l.

(** One assignment is created, user 1 reports "doing" and then "completed",
    user 2 reports "not yet started". *)
Definition sample_requests : list Request :=
  [ PostWorkAdd (body_of [("subject", "Math"); ("work", "HW1");
                          ("deadline", "2024-01-01")]) wid1 10;
    PostWorkStatus wid1 (body_of [("userId", uid1); ("username", "Ann");
                                  ("state", "doing")]) 20;
    PostWorkStatus wid1 (body_of [("userId", uid1); ("username", "Ann");
                                  ("state", "completed")]) 30;
    PostWorkStatus wid1 (body_of [("userId", uid2); ("username", "Bob");
                                  ("state", "not yet started")]) 40 ].

Definition sample_work : Work.t :=
  Work.mk "Math" "HW1" "2024-01-01" "Admin" "" 10
          (Some [StatusEntry.mk (Some uid1) "Ann" "completed" 30;
                 StatusEntry.mk (Some uid2) "Bob" "not yet started" 40])
          (Some (Counts.mk 1 0 1)).

(** A store whose only assignment has cached counts that are wrong, and a
    status upsert for it. *)
Definition stale_work : Work.t :=
  Work.mk "Physics" "Lab" "2024-02-02" "Admin" "" 5
          (Some [StatusEntry.mk (Some uid1) "Ann" "doing" 6])
          (Some (Counts.mk 5 5 5)).

Definition stale_store : Store := mkStore [] {[ wid9 := stale_work ]} None.

Definition sample_upsert : gmap string string :=
  body_of [("userId", uid2); ("username", "Bob"); ("state", "completed")].

(** The same upsert with the identifier in upper case. *)
Definition sample_upsert_upper : gmap string string :=
  body_of [("userId", uid2_upper); ("username", "Bob"); ("state", "doing")].

(** A store with one registered user. *)
Definition sample_user : Document User.t :=
  mkDocument uid1 (User.mk "ann@example.com" "hashed:secret" (Some "Ann") "secret" false).

Definition sample_user_store : Store := mkStore [sample_user] ∅ None.

(** An assignment document without a status field, and with counts that no
    status list gave it. *)
Definition sample_no_status : Document Work.t :=
  mkDocument wid7 (Work.mk "Chemistry" "Report" "2024-03-03" "Admin" "" 7 None
                           (Some (Counts.mk 2 0 0))).

(** An assignment record with a status entry whose state is none of the
    three of the schema, and a store that holds it. *)
Definition sample_postponed : Work.t :=
  Work.mk "History" "Essay" "2024-04-04" "Admin" "" 8
          (Some [StatusEntry.mk (Some uid1) "Ann" "completed" 9;
                 StatusEntry.mk (Some uid2) "Bob" "postponed" 9])
          (Some (Counts.mk 1 0 0)).

Definition postponed_store : Store := mkStore [] {[ wid2 := sample_postponed ]} None.

(** A record as another program may have left it: a status entry, and no
    counts. *)
Definition sample_uncounted : Work.t :=
  Work.mk "Biology" "Quiz" "2024-06-06" "Admin" "" 4
          (Some [StatusEntry.mk (Some uid1) "Ann" "doing" 6]) None.

(** ** Vocabulary of the further properties *)

(** [m] keeps the property [I] of the store, and what it returns satisfies
    [R]. *)
Definition holds (I : Store → Prop) {A} (m : M A) (R : A → Prop) : Prop :=
  ∀ w, I (store w) → I (store (m w).2) ∧ ∀ a, (m w).1 = Ret a → R a.

(** The clock reading of a request to a route that ends by recomputing the
    global totals. *)
Definition writeTime (r : Request) : option Z :=
  match r with
  | PostWorkAdd _ _ now | DeleteWork _ now | PostWorkStatus _ _ now
  | PostRecomputeTotals now => Some now
  | _ => None
  end.

(** The registration and login routes. *)
Definition isAuthRoute (r : Request) : bool :=
  match r with
  | PostRegister _ _ | PostLogin _ => true
  | _ => false
  end.

(** The number of status entries over all assignment records. *)
Definition statusEntries (ws : gmap string Work.t) : nat :=
  sum_list_with (λ kv, length (default [] (Work.status kv.2))) (map_to_list ws).

(** The emails of the users in the store. *)
Definition emails (us : list (Document User.t)) : list string :=
  (λ u, User.email (fields u)) <$> us.

(** The record of the stale store after Bob's upsert. *)
Definition sample_upserted : Work.t :=
  Work.mk "Physics" "Lab" "2024-02-02" "Admin" "" 5
          (Some [StatusEntry.mk (Some uid1) "Ann" "doing" 6;
                 StatusEntry.mk (Some uid2) "Bob" "completed" 50])
          (Some (Counts.mk 1 1 0)).

(** The status codes that the handlers send. *)
Definition knownStatus (n : nat) : bool :=
  existsb (Nat.eqb n) [200; 201; 400; 401; 404; 500].

(** What every response has: a known status; a message when it is an error;
    success true when it is not; success false and the error text under
    status 500; and a boolean success on every route but the two of
    registration and login ([auth]). *)
Definition wellFormed (auth : bool) (r : Response) : Prop :=
  knownStatus (statusCode r) = true
  ∧ (isError r → hasMessage r)
  ∧ (statusCode r < 400 → field "success" r = Some (JBool true))
  ∧ (statusCode r = 500 →
     field "success" r = Some (JBool false) ∧ ∃ e, field "error" r = Some (JStr e))
  ∧ (auth = false → hasSuccess r).

(** The assignments in the store are those with an identifier in [D]. *)
Definition sameIds (D : gset string) (s : Store) : Prop := dom (works s) = D.

(** An assignment has at most one status entry for each user identifier. *)
Definition oneEntryPerUser (f : Work.t) : Prop :=
  ∀ uid, entriesFor uid (default [] (Work.status f)) ≤ 1.

(** A user identifier in the form the store shows it: the cast leaves the
    string as it is (or refuses it). *)
Definition storedForm (castObjectId : string → option string) (u : string) : Prop :=
  castOrKeep castObjectId u = u.

(** The user identifier of a status upsert is in that form. *)
Definition sendsStoredForm (castObjectId : string → option string) (r : Request)
  : Prop :=
  match r with
  | PostWorkStatus _ body _ => storedForm castObjectId (str (body !! "userId"))
  | _ => True
  end.

(** ** The upload routes

    The two upload routes work on other things than the routes above: the
    Mat collection, the temporary files that multer has written, and the
    object storage behind [imagekit.upload]. They get a state and a monad of
    their own. The storage is a parameter: what it answers to its n-th call. *)

Module Mat.
(** [matSchema]. *)
Record t := mk {
  link : string;
  name : string;
  matname : string;
  subject : option string;
  format : option string;
  uploadDate : Z;
}.
End Mat.

(** [req.file], as multer's [upload.single("file")] leaves it. *)
Record UploadedFile := mkUploadedFile {
  path : string;
  originalname : string;
}.

(** The argument of [imagekit.upload]; [None] is an option that the call
    does not set. *)
Record Transfer := mkTransfer {
  file : string;
  fileName : string;
  folder : string;
  tags : option (list string);
  useUniqueFileName : option bool;
}.

(** [disk]: the temporary files, by path, with their content; [remote]: what
    the object storage has taken so far, with the URL it gave; [transfers]:
    the number of calls made to it; [matFaults]: what the store will answer
    to the coming saves of a Mat, as [faults] above. *)
Record Media := mkMedia {
  mats : list (Document Mat.t);
  disk : gmap string string;
  remote : list (Transfer * string);
  transfers : nat;
  matFaults : list (option string);
}.

(** The values of an upload response. *)
Inductive UJson :=
| UBool (b : bool)
| UStr (s : string)
| UMat (d : Document Mat.t).

Record UResponse := mkUResponse {
  uStatusCode : nat;
  uJson : list (string * UJson);
}.

Definition U (A : Type) : Type := Media → Outcome A * Media.

Definition uret {A} (a : A) : U A := λ m, (Ret a, m).

Definition uthrow {A} (err : string) : U A := λ m, (Throw err, m).

Definition ubind {A B} (c : U A) (k : A → U B) : U B := λ m,
  match c m with
  | (Ret a, m') => k a m'
  | (Throw err, m') => (Throw err, m')
  end.

Definition utryCatch {A} (c : U A) (h : string → U A) : U A := λ m,
  match c m with
  | (Ret a, m') => (Ret a, m')
  | (Throw err, m') => h err m'
  end.

Notation "'let+' x ':=' c 'in' k" := (ubind c (λ x, k))
  (at level 10, x name, c at level 100, k at level 200, only parsing).

(** [fs.readFileSync(path)] and [fs.unlinkSync(path)]: both throw when there
    is no such file. *)
Definition readFileSync (p : string) : U string := λ m,
  match disk m !! p with
  | Some content => (Ret content, m)
  | None => (Throw "ENOENT: no such file or directory", m)
  end.

Definition unlinkSync (p : string) : U unit := λ m,
  match disk m !! p with
  | Some _ =>
      (Ret (), mkMedia (mats m) (delete p (disk m)) (remote m) (transfers m)
                       (matFaults m))
  | None => (Throw "ENOENT: no such file or directory", m)
  end.

(** [newMat.save()]. *)
Definition Mat_save (d : Document Mat.t) : U unit := λ m,
  match matFaults m with
  | Some err :: fs =>
      (Throw err, mkMedia (mats m) (disk m) (remote m) (transfers m) fs)
  | _ :: fs =>
      (Ret (), mkMedia (mats m ++ [d]) (disk m) (remote m) (transfers m) fs)
  | [] =>
      (Ret (), mkMedia (mats m ++ [d]) (disk m) (remote m) (transfers m) [])
  end.

(** [String.prototype.split(".")]: the pieces between the dots, at least
    one; and [.pop()] of that array, its last piece. *)
Fixpoint splitDots (s : string) : list string :=
  match s with
  | EmptyString => [""]
  | String c r =>
      if String.eqb (String c "") "." then "" :: splitDots r
      else match splitDots r with
           | h :: t => String c h :: t
           | [] => [String c ""]
           end
  end.

Definition lastPiece (s : string) : string := default "" (last (splitDots s)).

Section Uploads.

(** What the object storage answers to its n-th call: the URL of the stored
    file, or the text of the error it rejects with. And the library's
    [toLowerCase]. *)
Variable imagekit_upload : nat → Transfer → string + string.
Variable toLowerCase : string → string.

(** [await imagekit.upload({...})], giving [uploadResponse.url]. *)
Definition upload_to_imagekit (t : Transfer) : U string := λ m,
  match imagekit_upload (transfers m) t with
  | inl url =>
      (Ret url, mkMedia (mats m) (disk m) (remote m ++ [(t, url)]) (S (transfers m))
                        (matFaults m))
  | inr err =>
      (Throw err, mkMedia (mats m) (disk m) (remote m) (S (transfers m)) (matFaults m))
  end.

Definition ucaught (message err : string) : U UResponse :=
  uret (mkUResponse 500 [("success", UBool false); ("message", UStr message);
                         ("error", UStr err)]).

(** [POST /api/upload] (lines 257-289). *)
Definition uploadMaterial (reqFile : option UploadedFile) (body : gmap string string)
    (newId : string) (now : Z) : U UResponse :=
  utryCatch
    (match reqFile with
     | None =>
         uret (mkUResponse 400 [("success", UBool false);
                                ("message", UStr "No file uploaded")])
     | Some f =>
         let+ fileBuffer := readFileSync (path f) in
         let ext := toLowerCase (lastPiece (originalname f)) in
         let+ url :=
           upload_to_imagekit
             (mkTransfer fileBuffer (originalname f) "/csbs_uploads"
                         (Some ["csbs"; ext]) None) in
         let+ _ := unlinkSync (path f) in
         let newMat :=
           mkDocument newId
             (Mat.mk url (orString (body !! "username") "Anonymous")
                     (orString (body !! "materialName") (originalname f))
                     (Some (orString (body !! "subject") "General")) (Some ext) now) in
         let+ _ := Mat_save newMat in
         uret (mkUResponse 200 [("success", UBool true); ("fileUrl", UStr url);
                                ("mat", UMat newMat)])
     end)
    (ucaught "Upload failed").

(** [POST /api/work/upload] (lines 295-315). *)
Definition uploadWorkFile (reqFile : option UploadedFile) : U UResponse :=
  utryCatch
    (match reqFile with
     | None =>
         uret (mkUResponse 400 [("success", UBool false);
                                ("message", UStr "No file uploaded")])
     | Some f =>
         let+ fileBuffer := readFileSync (path f) in
         let+ url :=
           upload_to_imagekit
             (mkTransfer fileBuffer (originalname f) "/work_uploads" None (Some true)) in
         let+ _ := unlinkSync (path f) in
         uret (mkUResponse 200 [("success", UBool true); ("fileUrl", UStr url)])
     end)
    (ucaught "Work upload failed").

End Uploads.

(** A string holds a dot. *)
Fixpoint hasDot (s : string) : bool :=
  match s with
  | EmptyString => false
  | String c r => String.eqb (String c "") "." || hasDot r
  end.


(** Sample data for the upload routes. *)
Definition sample_storage (n : nat) (t : Transfer) : string + string :=
  if String.eqb (file t) "" then inr "empty file"
  else inl (String.append "https://ik.example" (String.append (folder t)
             (String.append "/" (fileName t)))).

Definition sample_lower (s : string) : string :=
  if String.eqb s "PDF" then "pdf" else s.

Definition sample_media : Media :=
  mkMedia [] {[ "uploads/a1" := "%PDF-1.4"; "uploads/b2" := "" ]} [] 0 [].

(** What the two routes hand to the object storage for a file with the given
    content. *)
Definition materialTransfer (toLowerCase : string → string) (content : string)
    (f : UploadedFile) : Transfer :=
  mkTransfer content (originalname f) "/csbs_uploads"
             (Some ["csbs"; toLowerCase (lastPiece (originalname f))]) None.

Definition workTransfer (content : string) (f : UploadedFile) : Transfer :=
  mkTransfer content (originalname f) "/work_uploads" None (Some true).


(** * Properties *)

(** ** Counting states *)

Lemma countStep_cases (c : Counts.t) (s : StatusEntry.t) :
  (isCompleted s ∧ countStep c s =
     Counts.mk (S (Counts.completed c)) (Counts.doing c) (Counts.notYetStarted c))
  ∨ (isDoing s ∧ ¬ isCompleted s ∧ countStep c s =
     Counts.mk (Counts.completed c) (S (Counts.doing c)) (Counts.notYetStarted c))
  ∨ (isRemaining s ∧ countStep c s =
     Counts.mk (Counts.completed c) (Counts.doing c) (S (Counts.notYetStarted c))).
Proof.
  unfold countStep, isCompleted, isDoing, isRemaining.
  destruct (String.eqb_spec (StatusEntry.state s) "completed") as [Hc|Hc].
  - left. done.
  - destruct (String.eqb_spec (StatusEntry.state s) "doing") as [Hd|Hd].
    + right; left. done.
    + right; right. done.
Qed.

(** How one more entry moves the three filtered lengths. *)
Lemma tallies_cons (s : StatusEntry.t) (l : list StatusEntry.t) :
  (isCompleted s
     ∧ length (filter isCompleted (s :: l)) = S (length (filter isCompleted l))
     ∧ length (filter isDoing (s :: l)) = length (filter isDoing l)
     ∧ length (filter isRemaining (s :: l)) = length (filter isRemaining l))
  ∨ (isDoing s
     ∧ length (filter isCompleted (s :: l)) = length (filter isCompleted l)
     ∧ length (filter isDoing (s :: l)) = S (length (filter isDoing l))
     ∧ length (filter isRemaining (s :: l)) = length (filter isRemaining l))
  ∨ (isRemaining s
     ∧ length (filter isCompleted (s :: l)) = length (filter isCompleted l)
     ∧ length (filter isDoing (s :: l)) = length (filter isDoing l)
     ∧ length (filter isRemaining (s :: l)) = S (length (filter isRemaining l))).
Proof.
  destruct (countStep_cases (Counts.mk 0 0 0) s) as [[Hc _]|[(Hd & Hc & _)|[[Hc Hd] _]]].
  - left. split; [done|].
    rewrite (filter_cons_True isCompleted) by done.
    rewrite (filter_cons_False isDoing)
      by (unfold isDoing, isCompleted in *; congruence).
    rewrite (filter_cons_False isRemaining) by (intros [? ?]; done).
    done.
  - right; left. split; [done|].
    rewrite (filter_cons_False isCompleted) by done.
    rewrite (filter_cons_True isDoing) by done.
    rewrite (filter_cons_False isRemaining) by (intros [? ?]; done).
    done.
  - right; right. split; [done|].
    rewrite (filter_cons_False isCompleted) by done.
    rewrite (filter_cons_False isDoing) by done.
    rewrite (filter_cons_True isRemaining) by done.
    done.
Qed.

Lemma foldl_countStep (l : list StatusEntry.t) (c : Counts.t) :
  foldl countStep c l =
  Counts.mk (Counts.completed c + length (filter isCompleted l))
            (Counts.doing c + length (filter isDoing l))
            (Counts.notYetStarted c + length (filter isRemaining l)).
Proof.
  revert c. induction l as [|s l IH]; intros c.
  - destruct c. simpl. f_equal; lia.
  - change (foldl countStep c (s :: l)) with (foldl countStep (countStep c s) l).
    rewrite IH.
    destruct (tallies_cons s l) as [(H & -> & -> & ->)|[(H & -> & -> & ->)|(H & -> & -> & ->)]];
      destruct (countStep_cases c s) as [[Hc ->]|[(Hd & Hc & ->)|[[Hc Hd] ->]]];
      unfold isCompleted, isDoing, isRemaining in *; simpl;
      try (f_equal; lia); try congruence; try tauto.
Qed.

Lemma three_way_split (l : list StatusEntry.t) :
  length (filter isCompleted l) + length (filter isDoing l)
  + length (filter isRemaining l) = length l.
Proof.
  induction l as [|s l IH]; [done|].
  destruct (tallies_cons s l) as [(_ & -> & -> & ->)|[(_ & -> & -> & ->)|(_ & -> & -> & ->)]];
    simpl; lia.
Qed.

Lemma recalcCounts_tallies (status : option (list StatusEntry.t)) :
  recalcCounts status =
  Counts.mk (length (filter isCompleted (default [] status)))
            (length (filter isDoing (default [] status)))
            (length (filter isRemaining (default [] status))).
Proof.
  unfold recalcCounts. by rewrite foldl_countStep.
Qed.

Lemma recalcCounts_sum (status : option (list StatusEntry.t)) :
  sumCounts (recalcCounts status) = length (default [] status).
Proof.
  rewrite recalcCounts_tallies. unfold sumCounts. simpl.
  apply three_way_split.
Qed.

(** ** The three states *)

Lemma isValidState_spec (s : option string) :
  isValidState s = true
  ↔ s = Some "completed" ∨ s = Some "doing" ∨ s = Some "not yet started".
Proof.
  unfold isValidState, includes. destruct s as [s|].
  - simpl. rewrite !orb_true_iff, !String.eqb_eq. split.
    + intros [->|[->|[->|?]]]; [by left|by right; left|by right; right|done].
    + intros [[= ->]|[[= ->]|[= ->]]]; auto.
  - split; [done|]. intros [?|[?|?]]; done.
Qed.

Lemma isValidState_truthy (s : option string) : isValidState s = true → truthy s = true.
Proof.
  intros H. apply isValidState_spec in H. destruct H as [-> | [-> | ->]]; done.
Qed.

(** The validation of an entry: its state is one of the three, and its user
    identifier, if any, casts. *)
Lemma validEntry_spec (castObjectId : string → option string) (e : StatusEntry.t) :
  validEntry castObjectId e = true
  ↔ (StatusEntry.state e = "completed" ∨ StatusEntry.state e = "doing"
     ∨ StatusEntry.state e = "not yet started")
    ∧ ∀ u, StatusEntry.userId e = Some u → is_Some (castObjectId u).
Proof.
  unfold validEntry. rewrite andb_true_iff.
  change (includes stateEnum (Some (StatusEntry.state e)))
    with (isValidState (Some (StatusEntry.state e))).
  rewrite isValidState_spec. split.
  - intros [Hs Hu]. split.
    + destruct Hs as [[= ->]|[[= ->]|[= ->]]]; auto.
    + intros u Hid. rewrite Hid in Hu. by destruct (castObjectId u).
  - intros [Hs Hu]. split.
    + destruct Hs as [-> | [-> | ->]]; auto.
    + destruct (StatusEntry.userId e) as [u|]; [|done].
      destruct (Hu u eq_refl) as [c Hc]. by rewrite Hc.
Qed.

Lemma validWork_entries (castObjectId : string → option string) (f : Work.t) :
  validWork castObjectId f = true →
  Forall (λ e, validEntry castObjectId e = true) (default [] (Work.status f)).
Proof.
  unfold validWork. intros Hv. apply andb_true_iff in Hv as [_ Hv].
  apply Is_true_true, forallb_True in Hv.
  eapply Forall_impl; [exact Hv|]. intros e He. by apply Is_true_true.
Qed.

(** Two filters agree on a list where their tests agree. *)
Lemma filter_agree {A} (P Q : A → Prop) `{!∀ x, Decision (P x)}
    `{!∀ x, Decision (Q x)} (l : list A) :
  Forall (λ x, P x ↔ Q x) l → filter P l = filter Q l.
Proof.
  induction 1 as [|x l Hx _ IH]; [done|].
  rewrite !filter_cons, IH. repeat case_decide; tauto.
Qed.

(** ** The counts recalculation as a whole *)

Lemma validWork_hydrate (castObjectId : string → option string) (f : Work.t) :
  validWork castObjectId (hydrate f) = validWork castObjectId f.
Proof. unfold validWork. simpl. by destruct (Work.status f). Qed.

(** The recalculation, when the document passes the validation and the store
    answers. *)
Lemma recalcAndSaveWorkCounts_run (castObjectId : string → option string)
    (d : Document Work.t) (s : Store) :
  validWork castObjectId (fields d) = true →
  recalcAndSaveWorkCounts castObjectId (Some d) (mkWorld s []) =
  (Ret (Some (setCounts d (recalcCounts (Work.status (fields d))))),
   mkWorld (withWork s (setCounts d (recalcCounts (Work.status (fields d))))) []).
Proof.
  intros Hv. unfold recalcAndSaveWorkCounts, bind, Work_save.
  change (validWork castObjectId (fields (setCounts d ?c)))
    with (validWork castObjectId (fields d)).
  by rewrite Hv.
Qed.

(** The recalculation of a document that does not pass the validation: the
    save rejects before the store is called. *)
Lemma recalcAndSaveWorkCounts_rejects (castObjectId : string → option string)
    (d : Document Work.t) (w : World) :
  validWork castObjectId (fields d) = false →
  recalcAndSaveWorkCounts castObjectId (Some d) w = (Throw "Work validation failed", w).
Proof.
  intros Hv. unfold recalcAndSaveWorkCounts, bind, Work_save.
  change (validWork castObjectId (fields (setCounts d ?c)))
    with (validWork castObjectId (fields d)).
  by rewrite Hv.
Qed.

(** C3, amended. The loop of the counts recalculation counts, for any status
    list, the entries whose state equals "completed", those whose state
    equals "doing", and all remaining entries as not yet started. Given an
    assignment document that passes the validation of its schema, and a
    store that answers, the recalculation returns the document (and stores
    it) with exactly these counts, its other fields untouched; the remaining
    entries are then those whose state is "not yet started". A document that
    does not pass the validation (one with a state that is none of the
    three) makes the recalculation reject, with nothing returned and nothing
    stored. *)
Theorem recalcAndSaveWorkCounts_tallies (castObjectId : string → option string)
    (d : Document Work.t) (s : Store) :
  let l := default [] (Work.status (fields d)) in
  let c := Counts.mk (length (filter isCompleted l)) (length (filter isDoing l))
                     (length (filter isRemaining l)) in
  let f' := Work.mk (Work.subject (fields d)) (Work.work (fields d))
                    (Work.deadline (fields d)) (Work.addedBy (fields d))
                    (Work.fileUrl (fields d)) (Work.createdAt (fields d))
                    (Work.status (fields d)) (Some c) in
  recalcCounts (Work.status (fields d)) = c
  ∧ (validWork castObjectId (fields d) = true →
     recalcAndSaveWorkCounts castObjectId (Some d) (mkWorld s [])
     = (Ret (Some (mkDocument (_id d) f')),
        mkWorld (mkStore (users s) (<[_id d := f']> (works s)) (totals s)) [])
     ∧ length (filter isRemaining l)
       = length (filter (λ e, StatusEntry.state e = "not yet started") l))
  ∧ (validWork castObjectId (fields d) = false →
     ∀ w, ∃ err, recalcAndSaveWorkCounts castObjectId (Some d) w = (Throw err, w)).
Proof.
  intros l c f'. split; [apply recalcCounts_tallies|]. split.
  - intros Hv. split.
    + rewrite recalcAndSaveWorkCounts_run by done.
      by rewrite recalcCounts_tallies.
    + f_equal. apply filter_agree.
      apply validWork_entries in Hv. fold l in Hv.
      eapply Forall_impl; [exact Hv|]. intros e He. simpl in He.
      apply validEntry_spec in He as [He _].
      unfold isRemaining. split.
      * intros [Hc Hd]. destruct He as [?|[?|?]]; done.
      * intros ->. done.
  - intros Hv w. eexists. by apply recalcAndSaveWorkCounts_rejects.
Qed.

(** C3 as stated fails where it speaks of a state other than the three: the
    loop counts the entry of state "postponed" as not yet started, but the
    recalculation of that document returns nothing: the save rejects it, and
    the store is as it was. *)
Lemma recalcAndSaveWorkCounts_other_state_counterexample :
  recalcCounts (Work.status sample_postponed) = Counts.mk 1 0 1
  ∧ recalcAndSaveWorkCounts sample_cast (Some (mkDocument wid2 sample_postponed))
      (mkWorld postponed_store [])
    = (Throw "Work validation failed", mkWorld postponed_store []).
Proof. split; vm_compute; reflexivity. Qed.

(** The stale record (counts {5, 5, 5}, one entry of state "doing") gets the
    counts {0, 1, 0}. *)
Lemma recalcAndSaveWorkCounts_tallies_witness :
  recalcAndSaveWorkCounts sample_cast (Some (mkDocument wid9 stale_work))
    (mkWorld stale_store [])
  = (Ret (Some (mkDocument wid9
            (Work.mk "Physics" "Lab" "2024-02-02" "Admin" "" 5
                     (Some [StatusEntry.mk (Some uid1) "Ann" "doing" 6])
                     (Some (Counts.mk 0 1 0))))),
     mkWorld (mkStore []
                {[ wid9 := Work.mk "Physics" "Lab" "2024-02-02" "Admin" "" 5
                                   (Some [StatusEntry.mk (Some uid1) "Ann" "doing" 6])
                                   (Some (Counts.mk 0 1 0)) ]} None) []).
Proof.
  pose proof (recalcAndSaveWorkCounts_tallies sample_cast (mkDocument wid9 stale_work)
                stale_store) as (_ & H & _).
  destruct H as [H _]; [vm_compute; reflexivity|].
  etransitivity; [exact H|]. vm_compute. reflexivity.
Defined.

(** C5. The counts recalculation is idempotent: run on a document that passes
    the validation and then again on what it returned, with no status change
    in between and a store that answers, it returns the same document with
    the same counts, and the second run leaves the store as the first one
    left it. On a document that does not pass the validation both runs
    reject alike and the store is never written. *)
Theorem recalcAndSaveWorkCounts_idempotent (castObjectId : string → option string)
    (workDoc : option (Document Work.t)) (s : Store) :
  ((∀ d, workDoc = Some d → validWork castObjectId (fields d) = true) →
   ∃ (r : option (Document Work.t)) (s1 : Store),
     recalcAndSaveWorkCounts castObjectId workDoc (mkWorld s []) = (Ret r, mkWorld s1 [])
     ∧ recalcAndSaveWorkCounts castObjectId r (mkWorld s1 []) = (Ret r, mkWorld s1 [])
     ∧ (Work.counts ∘ fields <$> r)
       = ((λ d, Some (recalcCounts (Work.status (fields d)))) <$> workDoc))
  ∧ (∀ d, workDoc = Some d → validWork castObjectId (fields d) = false →
     ∃ err,
       recalcAndSaveWorkCounts castObjectId (Some d) (mkWorld s [])
       = (Throw err, mkWorld s [])
       ∧ recalcAndSaveWorkCounts castObjectId
           (Some (setCounts d (recalcCounts (Work.status (fields d))))) (mkWorld s [])
         = (Throw err, mkWorld s [])).
Proof.
  split.
  - intros Hv. destruct workDoc as [d|].
    + specialize (Hv d eq_refl).
      eexists _, _. split; [by apply recalcAndSaveWorkCounts_run|].
      split; [|done].
      rewrite recalcAndSaveWorkCounts_run by done. simpl.
      unfold withWork, setCounts. simpl.
      by rewrite insert_insert_eq.
    + by exists None, s.
  - intros d _ Hv. eexists. split.
    + by apply recalcAndSaveWorkCounts_rejects.
    + by apply recalcAndSaveWorkCounts_rejects.
Qed.

(** The stale record: both runs return it with the counts {0, 1, 0}. *)
Lemma recalcAndSaveWorkCounts_idempotent_witness :
  ∃ (r : option (Document Work.t)) (s1 : Store),
    recalcAndSaveWorkCounts sample_cast (Some (mkDocument wid9 stale_work))
      (mkWorld stale_store []) = (Ret r, mkWorld s1 [])
    ∧ recalcAndSaveWorkCounts sample_cast r (mkWorld s1 []) = (Ret r, mkWorld s1 [])
    ∧ (Work.counts ∘ fields <$> r) = Some (Some (Counts.mk 0 1 0)).
Proof.
  destruct (proj1 (recalcAndSaveWorkCounts_idempotent sample_cast
                     (Some (mkDocument wid9 stale_work)) stale_store))
    as (r & s1 & H1 & H2 & H3).
  - intros d [= <-]. vm_compute. reflexivity.
  - exists r, s1. split; [exact H1|]. split; [exact H2|].
    rewrite H3. vm_compute. reflexivity.
Defined.

(** C9. Given no document, the counts recalculation returns null, raises
    nothing and leaves the world as it was, without a call to the store. A
    status field that is absent is counted as an empty list: the loop gives
    {0, 0, 0}, and a document without a status field that passes the
    validation is returned and stored (the store answering) with the counts
    {0, 0, 0}, whatever counts it had, and its other fields untouched. *)
Theorem recalcAndSaveWorkCounts_null_or_no_status
    (castObjectId : string → option string) :
  (∀ w : World, recalcAndSaveWorkCounts castObjectId None w = (Ret None, w))
  ∧ recalcCounts None = Counts.mk 0 0 0
  ∧ (∀ (d : Document Work.t) (s : Store),
       Work.status (fields d) = None → validWork castObjectId (fields d) = true →
       let f' := Work.mk (Work.subject (fields d)) (Work.work (fields d))
                         (Work.deadline (fields d)) (Work.addedBy (fields d))
                         (Work.fileUrl (fields d)) (Work.createdAt (fields d))
                         None (Some (Counts.mk 0 0 0)) in
       recalcAndSaveWorkCounts castObjectId (Some d) (mkWorld s [])
       = (Ret (Some (mkDocument (_id d) f')),
          mkWorld (mkStore (users s) (<[_id d := f']> (works s)) (totals s)) [])).
Proof.
  split; [done|]. split; [done|].
  intros d s Hd Hv f'. rewrite recalcAndSaveWorkCounts_run by done.
  unfold setCounts, withWork, f'. by rewrite Hd.
Qed.

(** No document, with a store that would refuse; and the document without a
    status field, whose counts {2, 0, 0} become {0, 0, 0}. *)
Lemma recalcAndSaveWorkCounts_null_or_no_status_witness :
  recalcAndSaveWorkCounts sample_cast None (mkWorld stale_store [Some "down"])
  = (Ret None, mkWorld stale_store [Some "down"])
  ∧ recalcAndSaveWorkCounts sample_cast (Some sample_no_status) (mkWorld emptyStore [])
    = (Ret (Some (mkDocument wid7
              (Work.mk "Chemistry" "Report" "2024-03-03" "Admin" "" 7 None
                       (Some (Counts.mk 0 0 0))))),
       mkWorld (mkStore []
                  {[ wid7 := Work.mk "Chemistry" "Report" "2024-03-03" "Admin" "" 7 None
                                     (Some (Counts.mk 0 0 0)) ]} None) []).
Proof.
  split.
  - apply (proj1 (recalcAndSaveWorkCounts_null_or_no_status sample_cast)).
  - etransitivity.
    + apply (proj2 (proj2 (recalcAndSaveWorkCounts_null_or_no_status sample_cast))
               sample_no_status emptyStore); vm_compute; reflexivity.
    + vm_compute. reflexivity.
Defined.
(** ** The status upsert on a list *)

Lemma sameUser_true (uid : string) (s : StatusEntry.t) :
  sameUser uid s = true ↔ StatusEntry.userId s = Some uid.
Proof.
  unfold sameUser. destruct (StatusEntry.userId s) as [u|]; [|done].
  rewrite String.eqb_eq. split; congruence.
Qed.

Lemma sameUser_false (uid : string) (s : StatusEntry.t) :
  sameUser uid s = false ↔ StatusEntry.userId s ≠ Some uid.
Proof.
  rewrite <- sameUser_true. by destruct (sameUser uid s).
Qed.

Section FindIndex.
Context {A : Type} (p : A → bool).

Lemma findIndexFrom_none (l : list A) (i : Z) :
  Forall (λ x, p x = false) l → findIndexFrom p l i = (-1)%Z.
Proof.
  intros H. revert i. induction H as [|x l Hx _ IH]; intros i; simpl; [done|].
  by rewrite Hx.
Qed.

Lemma findIndexFrom_found (l1 : list A) (x : A) (l2 : list A) (i : Z) :
  Forall (λ y, p y = false) l1 → p x = true →
  findIndexFrom p (l1 ++ x :: l2) i = (i + Z.of_nat (length l1))%Z.
Proof.
  intros H Hx. revert i. induction H as [|y l1 Hy _ IH]; intros i; simpl.
  - rewrite Hx. lia.
  - rewrite Hy, IH. lia.
Qed.

(** A list has no element satisfying [p], or splits at the first one. *)
Lemma first_split (l : list A) :
  Forall (λ x, p x = false) l
  ∨ ∃ l1 x l2, l = l1 ++ x :: l2 ∧ Forall (λ y, p y = false) l1 ∧ p x = true.
Proof.
  induction l as [|y l IH]; [by left|].
  destruct (p y) eqn:Hy.
  - right. by exists [], y, l.
  - destruct IH as [IH|(l1 & x & l2 & -> & H1 & Hx)].
    + left. by constructor.
    + right. exists (y :: l1), x, l2. split; [done|]. split; [by constructor|done].
Qed.

End FindIndex.

Section Upsert.

Variable castObjectId : string → option string.

Lemma upsertStatus_append (l : list StatusEntry.t) (u n s : string) (t : Z) :
  Forall (λ x, sameUser u x = false) l →
  upsertStatus castObjectId l u n s t
  = l ++ [StatusEntry.mk (Some (castOrKeep castObjectId u)) n s t].
Proof.
  intros H. unfold upsertStatus, findIndex.
  by rewrite (findIndexFrom_none _ _ _ H).
Qed.

Lemma upsertStatus_overwrite (l1 : list StatusEntry.t) (e : StatusEntry.t)
    (l2 : list StatusEntry.t) (u n s : string) (t : Z) :
  Forall (λ x, sameUser u x = false) l1 → sameUser u e = true →
  upsertStatus castObjectId (l1 ++ e :: l2) u n s t = l1 ++ overwrite n s t e :: l2.
Proof.
  intros H He. unfold upsertStatus, findIndex.
  rewrite (findIndexFrom_found _ _ _ _ _ H He).
  replace (0 <=? 0 + Z.of_nat (length l1))%Z with true by (symmetry; apply Z.leb_le; lia).
  replace (Z.to_nat (0 + Z.of_nat (length l1))) with (length l1 + 0) by lia.
  by rewrite alter_app_r.
Qed.

End Upsert.

Lemma entriesFor_app (uid : string) (l1 l2 : list StatusEntry.t) :
  entriesFor uid (l1 ++ l2) = entriesFor uid l1 + entriesFor uid l2.
Proof. unfold entriesFor. by rewrite filter_app, length_app. Qed.

Lemma entriesFor_cons (uid : string) (e : StatusEntry.t) (l : list StatusEntry.t) :
  entriesFor uid (e :: l) =
  (if decide (StatusEntry.userId e = Some uid) then 1 else 0) + entriesFor uid l.
Proof.
  unfold entriesFor. rewrite filter_cons. by case_decide.
Qed.

Lemma entriesFor_none (uid : string) (l : list StatusEntry.t) :
  Forall (λ x, sameUser uid x = false) l ↔ entriesFor uid l = 0.
Proof.
  induction l as [|e l IH].
  - split; [done|by constructor].
  - rewrite entriesFor_cons, Forall_cons, IH, sameUser_false.
    case_decide; split.
    + intros [? ?]; done.
    + lia.
    + intros [_ ->]; done.
    + intros H0. split; [done|lia].
Qed.
(** ** Invariants of the Work collection

    A property [ok] of assignment records that new records have and that
    the recalculation, the upsert and the schema defaults keep, holds of
    every record in every store the server can reach, whatever the store
    answers. *)

Section Invariant.

Variable castObjectId : string → option string.

Variable ok : Work.t → Prop.

Hypothesis ok_new : ∀ subject work deadline addedBy fileUrl createdAt,
  ok (Work.mk subject work deadline addedBy fileUrl createdAt
              (Some []) (Some (Counts.mk 0 0 0))).

Hypothesis ok_recalc : ∀ d : Document Work.t,
  ok (fields d) → ok (fields (setCounts d (recalcCounts (Work.status (fields d))))).

Hypothesis ok_upsert : ∀ (d : Document Work.t) l u n s t,
  ok (fields d) → Work.status (fields d) = Some l →
  ok (fields (setCounts (setStatus d (upsertStatus castObjectId l u n s t))
                        (recalcCounts (Some (upsertStatus castObjectId l u n s t))))).

Hypothesis ok_hydrate : ∀ f : Work.t, ok f → ok (hydrate f).

Lemma keeps_ret {A} (a : A) (R : A → Prop) : R a → keeps ok (ret a) R.
Proof. intros Ha w Hw. split; [done|]. intros a' [= <-]. done. Qed.

Lemma keeps_throw {A} (err : string) (R : A → Prop) : keeps ok (throw err) R.
Proof. intros w Hw. split; [done|]. intros a' [=]. Qed.

Lemma keeps_bind {A B} (m : M A) (k : A → M B) (R : A → Prop) (R' : B → Prop) :
  keeps ok m R → (∀ a, R a → keeps ok (k a) R') → keeps ok (bind m k) R'.
Proof.
  intros Hm Hk w Hw. unfold bind.
  destruct (Hm w Hw) as [Hs Ha]. destruct (m w) as [[a|err] w']; simpl in *.
  - apply (Hk a); [by apply Ha|done].
  - split; [done|]. intros b [=].
Qed.

Lemma keeps_tryCatch {A} (m : M A) (h : string → M A) (R : A → Prop) :
  keeps ok m R → (∀ err, keeps ok (h err) R) → keeps ok (tryCatch m h) R.
Proof.
  intros Hm Hh w Hw. unfold tryCatch.
  destruct (Hm w Hw) as [Hs Ha]. destruct (m w) as [[a|err] w']; simpl in *.
  - done.
  - by apply Hh.
Qed.

Lemma keeps_weaken {A} (m : M A) (R R' : A → Prop) :
  keeps ok m R → (∀ a, R a → R' a) → keeps ok m R'.
Proof.
  intros Hm HR w Hw. destruct (Hm w Hw) as [Hs Ha]. split; [done|].
  intros a Hr. by apply HR, Ha.
Qed.

Lemma keeps_storeCall {A} (op : Store → Outcome A * Store) (R : A → Prop) :
  (∀ s, storeOk ok s → storeOk ok (op s).2 ∧ ∀ a, (op s).1 = Ret a → R a) →
  keeps ok (storeCall op) R.
Proof.
  intros Hop w Hw. unfold storeCall.
  destruct (Hop _ Hw) as [Hs Ha].
  destruct (faults w) as [|[err|] fs]; simpl.
  - destruct (op (store w)) as [o s]. done.
  - split; [done|]. intros a [=].
  - destruct (op (store w)) as [o s]. done.
Qed.

Lemma keeps_promiseAll {A} (ms : list (M A)) (R : A → Prop) :
  Forall (λ m, keeps ok m R) ms → keeps ok (promiseAll ms) (λ _, True).
Proof.
  induction 1 as [|m ms Hm _ IH]; intros w Hw; simpl.
  - done.
  - destruct (Hm w Hw) as [Hs _]. destruct (m w) as [o w1]. simpl in Hs.
    destruct (IH w1 Hs) as [Hs2 _]. destruct (promiseAll ms w1) as [os w2].
    simpl in Hs2. destruct o, os; done.
Qed.

(** *** The model calls *)

Lemma keeps_User_findOne (email : string) : keeps ok (User_findOne email) (λ _, True).
Proof. apply keeps_storeCall. done. Qed.

Lemma keeps_User_save (u : Document User.t) : keeps ok (User_save u) (λ _, True).
Proof. apply keeps_storeCall. done. Qed.

Lemma keeps_Work_findById (id : string) :
  keeps ok (Work_findById castObjectId id) (λ o, ∀ d, o = Some d → ok (fields d)).
Proof.
  unfold Work_findById. destruct (castObjectId id) as [oid|]; [|apply keeps_throw].
  apply keeps_storeCall. intros s Hs. split; [done|]. simpl.
  intros a [= <-] d Hd.
  destruct (works s !! oid) as [f|] eqn:Hf; simplify_eq/=.
  by apply ok_hydrate, (map_Forall_lookup_1 _ _ _ _ Hs Hf).
Qed.

Lemma keeps_Work_find : keeps ok Work_find (Forall (λ d, ok (fields d))).
Proof.
  apply keeps_storeCall. intros s Hs. split; [done|]. simpl.
  intros a [= <-]. apply Forall_fmap.
  apply map_Forall_to_list in Hs.
  eapply Forall_impl; [exact Hs|]. intros [k f] Hf. by apply ok_hydrate.
Qed.

Lemma storeOk_withWork (s : Store) (d : Document Work.t) :
  storeOk ok s → ok (fields d) → storeOk ok (withWork s d).
Proof. intros Hs Hd. by apply map_Forall_insert_2. Qed.

Lemma keeps_Work_insert (d : Document Work.t) :
  ok (fields d) → keeps ok (Work_insert castObjectId d) (λ _, True).
Proof.
  intros Hd. unfold Work_insert.
  destruct (validWork castObjectId (fields d)); [|apply keeps_throw].
  apply keeps_storeCall. intros s Hs.
  destruct (works s !! _id d); simpl; [done|].
  split; [|done]. by apply storeOk_withWork.
Qed.

Lemma keeps_Work_save (d : Document Work.t) :
  ok (fields d) → keeps ok (Work_save castObjectId d) (λ _, True).
Proof.
  intros Hd. unfold Work_save.
  destruct (validWork castObjectId (fields d)); [|apply keeps_throw].
  apply keeps_storeCall. intros s Hs.
  split; [|done]. by apply storeOk_withWork.
Qed.

Lemma keeps_Work_findByIdAndDelete (id : string) :
  keeps ok (Work_findByIdAndDelete castObjectId id) (λ _, True).
Proof.
  unfold Work_findByIdAndDelete.
  destruct (castObjectId id) as [oid|]; [|apply keeps_throw].
  apply keeps_storeCall. intros s Hs. split; [|done].
  by apply map_Forall_delete.
Qed.

Lemma keeps_Work_aggregate : keeps ok Work_aggregate (λ _, True).
Proof. apply keeps_storeCall. done. Qed.

Lemma keeps_WorkTotals_findOne : keeps ok WorkTotals_findOne (λ _, True).
Proof. apply keeps_storeCall. done. Qed.

Lemma keeps_WorkTotals_save (t : WorkTotals.t) : keeps ok (WorkTotals_save t) (λ _, True).
Proof. apply keeps_storeCall. done. Qed.

(** *** The helper routines *)

Lemma keeps_recalcAndSaveWorkCounts (d : Document Work.t) :
  ok (fields (setCounts d (recalcCounts (Work.status (fields d))))) →
  keeps ok (recalcAndSaveWorkCounts castObjectId (Some d)) (λ _, True).
Proof.
  intros Hd. unfold recalcAndSaveWorkCounts.
  eapply keeps_bind; [by apply keeps_Work_save|].
  intros _ _. by apply keeps_ret.
Qed.

Lemma keeps_recomputeAndSaveGlobalTotals (now : Z) :
  keeps ok (recomputeAndSaveGlobalTotals now) (λ _, True).
Proof.
  unfold recomputeAndSaveGlobalTotals.
  eapply keeps_bind; [apply keeps_Work_aggregate|]. intros agg _.
  eapply keeps_bind; [apply keeps_WorkTotals_findOne|]. intros found _.
  eapply keeps_bind; [apply keeps_WorkTotals_save|]. intros _ _.
  by apply keeps_ret.
Qed.

Lemma keeps_caught (message err : string) : keeps ok (caught message err) (λ _, True).
Proof. by apply keeps_ret. Qed.

(** *** The routes *)

Variable bcrypt_hash : string → nat → string.
Variable bcrypt_compare : string → string → bool.
Variable jwt_sign : TokenPayload → string → string → string.
Variable JWT_SECRET : option string.

Lemma keeps_register body newId :
  keeps ok (register bcrypt_hash body newId) (λ _, True).
Proof.
  unfold register.
  apply keeps_tryCatch; [|apply keeps_caught].
  destruct (negb _ || negb _); [by apply keeps_ret|].
  eapply keeps_bind; [apply keeps_User_findOne|]. intros [u|] _.
  - by apply keeps_ret.
  - eapply keeps_bind; [apply keeps_User_save|]. intros _ _. by apply keeps_ret.
Qed.

Lemma keeps_login body :
  keeps ok (login bcrypt_compare jwt_sign JWT_SECRET body) (λ _, True).
Proof.
  unfold login.
  apply keeps_tryCatch; [|apply keeps_caught].
  destruct (negb _ || negb _); [by apply keeps_ret|].
  eapply keeps_bind; [apply keeps_User_findOne|]. intros [u|] _.
  - destruct (negb _); by apply keeps_ret.
  - by apply keeps_ret.
Qed.

Lemma keeps_addWork body newId now :
  keeps ok (addWork castObjectId body newId now) (λ _, True).
Proof.
  unfold addWork.
  apply keeps_tryCatch; [|apply keeps_caught].
  destruct (negb _ || negb _ || negb _); [by apply keeps_ret|].
  eapply keeps_bind; [apply keeps_Work_insert, ok_new|]. intros _ _.
  eapply keeps_bind; [apply keeps_recomputeAndSaveGlobalTotals|]. intros t _.
  by apply keeps_ret.
Qed.

Lemma keeps_deleteWork id now : keeps ok (deleteWork castObjectId id now) (λ _, True).
Proof.
  unfold deleteWork.
  apply keeps_tryCatch; [|apply keeps_caught].
  eapply keeps_bind; [apply keeps_Work_findByIdAndDelete|]. intros [d|] _.
  - eapply keeps_bind; [apply keeps_recomputeAndSaveGlobalTotals|]. intros t _.
    by apply keeps_ret.
  - by apply keeps_ret.
Qed.

Lemma keeps_updateStatus workId body now :
  keeps ok (updateStatus castObjectId workId body now) (λ _, True).
Proof.
  unfold updateStatus.
  apply keeps_tryCatch; [|apply keeps_caught].
  destruct (negb _ || negb _ || negb _); [by apply keeps_ret|].
  destruct (negb (isValidState _)); [by apply keeps_ret|].
  eapply keeps_bind; [apply keeps_Work_findById|]. intros [d|] Hd.
  - specialize (Hd d eq_refl).
    destruct (Work.status (fields d)) as [l|] eqn:Hl; [|apply keeps_throw].
    eapply keeps_bind.
    + apply keeps_recalcAndSaveWorkCounts. simpl. by apply ok_upsert.
    + intros saved _.
      eapply keeps_bind; [apply keeps_recomputeAndSaveGlobalTotals|]. intros t _.
      by apply keeps_ret.
  - by apply keeps_ret.
Qed.

Lemma keeps_getStatus workId : keeps ok (getStatus castObjectId workId) (λ _, True).
Proof.
  unfold getStatus.
  apply keeps_tryCatch; [|apply keeps_caught].
  eapply keeps_bind; [apply keeps_Work_findById|]. intros [d|] Hd.
  - specialize (Hd d eq_refl).
    eapply (keeps_bind _ _ (λ _, True)).
    + destruct (Work.counts (fields d)); [by apply keeps_ret|].
      eapply keeps_bind; [by apply keeps_recalcAndSaveWorkCounts, ok_recalc|].
      intros saved _. by apply keeps_ret.
    + intros d1 _. by apply keeps_ret.
  - by apply keeps_ret.
Qed.

Lemma keeps_getTotals : keeps ok getTotals (λ _, True).
Proof.
  unfold getTotals.
  apply keeps_tryCatch; [|apply keeps_caught].
  eapply keeps_bind; [apply keeps_WorkTotals_findOne|]. intros t _.
  by apply keeps_ret.
Qed.

Lemma keeps_recomputeTotals now : keeps ok (recomputeTotals castObjectId now) (λ _, True).
Proof.
  unfold recomputeTotals.
  apply keeps_tryCatch; [|apply keeps_caught].
  eapply keeps_bind; [apply keeps_Work_find|]. intros allWorks Hall.
  eapply keeps_bind.
  - apply (keeps_promiseAll _ (λ _, True)). apply Forall_fmap.
    eapply Forall_impl; [exact Hall|]. intros d Hd.
    by apply keeps_recalcAndSaveWorkCounts, ok_recalc.
  - intros _ _.
    eapply keeps_bind; [apply keeps_recomputeAndSaveGlobalTotals|]. intros t _.
    by apply keeps_ret.
Qed.

Lemma keeps_handle (r : Request) :
  keeps ok (handle castObjectId bcrypt_hash bcrypt_compare jwt_sign JWT_SECRET r)
        (λ _, True).
Proof.
  destruct r; simpl.
  - apply keeps_register.
  - apply keeps_login.
  - apply keeps_addWork.
  - apply keeps_deleteWork.
  - apply keeps_updateStatus.
  - apply keeps_getStatus.
  - apply keeps_getTotals.
  - apply keeps_recomputeTotals.
Qed.

Lemma serve_keeps (rs : list Request) (w : World) :
  storeOk ok (store w) →
  storeOk ok (store (serve castObjectId bcrypt_hash bcrypt_compare jwt_sign JWT_SECRET
                      rs w)).
Proof.
  revert w. induction rs as [|r rs IH]; intros w Hw; [done|].
  simpl. apply IH. by apply keeps_handle.
Qed.

End Invariant.
(** ** Runs that return *)

Lemma bind_Ret {A B} (m : M A) (k : A → M B) (w : World) (b : B) (w' : World) :
  bind m k w = (Ret b, w') → ∃ a w1, m w = (Ret a, w1) ∧ k a w1 = (Ret b, w').
Proof.
  unfold bind. destruct (m w) as [[a|err] w1]; [|done].
  intros H. by exists a, w1.
Qed.

Lemma storeCall_Ret {A} (op : Store → Outcome A * Store) (w : World) (a : A) (w' : World) :
  storeCall op w = (Ret a, w') → op (store w) = (Ret a, store w').
Proof.
  unfold storeCall. destruct (faults w) as [|[err|] fs]; [| done |];
    destruct (op (store w)) as [o s]; by intros [= -> <-].
Qed.

Lemma tryCatch_caught_Ret (m : M Response) (message : string) (w : World)
    (resp : Response) (w' : World) :
  tryCatch m (caught message) w = (Ret resp, w') → statusCode resp ≠ 500 →
  m w = (Ret resp, w').
Proof.
  unfold tryCatch. destruct (m w) as [[a|err] w1]; [done|].
  unfold caught, ret. intros [= <- <-]. done.
Qed.

(** The totals recomputation writes the WorkTotals record only. *)
Lemma recomputeAndSaveGlobalTotals_frame (now : Z) (w : World) :
  works (store (recomputeAndSaveGlobalTotals now w).2) = works (store w)
  ∧ users (store (recomputeAndSaveGlobalTotals now w).2) = users (store w).
Proof.
  destruct w as [s fs].
  unfold recomputeAndSaveGlobalTotals, bind, Work_aggregate, WorkTotals_findOne,
    WorkTotals_save, storeCall.
  destruct fs as [|[e1|] [|[e2|] [|[e3|] fs]]]; done.
Qed.

(** A lookup by identifier that returned: the identifier casts, and what is
    handed over is the record under the ObjectId, with the schema
    defaults. *)
Lemma Work_findById_Ret (castObjectId : string → option string) (id : string)
    (w : World) (o : option (Document Work.t)) (w' : World) :
  Work_findById castObjectId id w = (Ret o, w') →
  ∃ oid, castObjectId id = Some oid
         ∧ o = (λ f, mkDocument oid (hydrate f)) <$> works (store w) !! oid
         ∧ store w' = store w.
Proof.
  unfold Work_findById. destruct (castObjectId id) as [oid|]; [|done].
  intros H. apply storeCall_Ret in H. injection H as <- <-. by exists oid.
Qed.

(** A recalculation that returned: the document passed the validation, and
    is stored with its counts. *)
Lemma recalcAndSaveWorkCounts_Ret (castObjectId : string → option string)
    (d : Document Work.t) (w : World) (r : option (Document Work.t)) (w' : World) :
  recalcAndSaveWorkCounts castObjectId (Some d) w = (Ret r, w') →
  validWork castObjectId (fields d) = true
  ∧ r = Some (setCounts d (recalcCounts (Work.status (fields d))))
  ∧ store w' = withWork (store w) (setCounts d (recalcCounts (Work.status (fields d)))).
Proof.
  unfold recalcAndSaveWorkCounts. intros H.
  apply bind_Ret in H as (u & w1 & Hsave & Hret).
  injection Hret as <- <-. unfold Work_save in Hsave.
  change (validWork castObjectId (fields (setCounts d ?c)))
    with (validWork castObjectId (fields d)) in Hsave.
  destruct (validWork castObjectId (fields d)); [|done].
  apply storeCall_Ret in Hsave. by injection Hsave as _ <-.
Qed.

(** What a status upsert that answered 200 has done to its assignment. *)
Lemma updateStatus_success (castObjectId : string → option string) (workId : string)
    (body : gmap string string) (now : Z) (w : World) (resp : Response) (w' : World) :
  updateStatus castObjectId workId body now w = (Ret resp, w') →
  statusCode resp = 200 →
  ∃ oid f,
    castObjectId workId = Some oid ∧ works (store w) !! oid = Some f
    ∧ isValidState (body !! "state") = true
    ∧ works (store w')
      = <[oid := fields (setCounts
           (setStatus (mkDocument oid (hydrate f))
              (upsertStatus castObjectId (default [] (Work.status f))
                 (str (body !! "userId")) (str (body !! "username"))
                 (str (body !! "state")) now))
           (recalcCounts (Some
              (upsertStatus castObjectId (default [] (Work.status f))
                 (str (body !! "userId")) (str (body !! "username"))
                 (str (body !! "state")) now))))]> (works (store w)).
Proof.
  intros Hrun Hcode. unfold updateStatus in Hrun.
  apply tryCatch_caught_Ret in Hrun; [|by rewrite Hcode].
  destruct (negb _ || negb _ || negb _); [by injection Hrun as <- _|].
  destruct (isValidState (body !! "state")) eqn:Hvalid;
    [|by injection Hrun as <- _].
  simpl in Hrun.
  apply bind_Ret in Hrun as (workDoc & w1 & Hfind & Hrun).
  apply Work_findById_Ret in Hfind as (oid & Hoid & -> & Hs1).
  destruct (works (store w) !! oid) as [f|] eqn:Hf; [|by injection Hrun as <- _].
  simpl in Hrun.
  apply bind_Ret in Hrun as (saved & w2 & Hsave & Hrun).
  apply recalcAndSaveWorkCounts_Ret in Hsave as (_ & _ & Hs2).
  apply bind_Ret in Hrun as (t & w3 & Htot & Hrun).
  injection Hrun as _ Hw3. subst w3.
  exists oid, f. split; [done|]. split; [done|]. split; [done|].
  pose proof (recomputeAndSaveGlobalTotals_frame now w2) as [Hframe _].
  rewrite Htot in Hframe. simpl in Hframe. rewrite Hframe, Hs2, Hs1. done.
Qed.

(** ** The counts add up *)

Lemma countsOk_new subject work deadline addedBy fileUrl createdAt :
  countsOk (Work.mk subject work deadline addedBy fileUrl createdAt
                    (Some []) (Some (Counts.mk 0 0 0))).
Proof. by exists (Counts.mk 0 0 0). Qed.

Lemma countsOk_recalc (d : Document Work.t) :
  countsOk (fields (setCounts d (recalcCounts (Work.status (fields d))))).
Proof. eexists. split; [done|]. apply recalcCounts_sum. Qed.

Lemma countsOk_upsert (d : Document Work.t) (l : list StatusEntry.t) :
  countsOk (fields (setCounts (setStatus d l) (recalcCounts (Some l)))).
Proof. apply (countsOk_recalc (setStatus d l)). Qed.

Lemma countsOk_hydrate (f : Work.t) : countsOk f → countsOk (hydrate f).
Proof.
  intros (c & Hc & Hsum). exists c. simpl. rewrite Hc. split; [done|].
  rewrite Hsum. by destruct (Work.status f).
Qed.

(** The invariant of C1 is kept by every request. *)
Lemma countsOk_handle
    (castObjectId : string → option string)
    (bcrypt_hash : string → nat → string)
    (bcrypt_compare : string → string → bool)
    (jwt_sign : TokenPayload → string → string → string)
    (JWT_SECRET : option string) (r : Request) :
  keeps countsOk (handle castObjectId bcrypt_hash bcrypt_compare jwt_sign JWT_SECRET r)
        (λ _, True).
Proof.
  apply keeps_handle.
  - apply countsOk_new.
  - intros d _. apply countsOk_recalc.
  - intros d l u n s t _ _. apply countsOk_upsert.
  - apply countsOk_hydrate.
Qed.

(** C1. In a store whose assignments all have counts that add up to the
    length of their status list (every new assignment has), this is still so
    after any sequence of requests, status upserts among them, whatever the
    store answered in between; and a status upsert that answers 200 leaves
    its assignment with counts.completed + counts.doing +
    counts.notYetStarted = length of its status list, whatever the cached
    counts were before. *)
Theorem counts_add_up_after_upserts
    (castObjectId : string → option string)
    (bcrypt_hash : string → nat → string)
    (bcrypt_compare : string → string → bool)
    (jwt_sign : TokenPayload → string → string → string)
    (JWT_SECRET : option string) (rs : list Request) (w : World) :
  (∀ id f, works (store w) !! id = Some f → countsOk f) →
  (∀ id f,
     works (store (serve castObjectId bcrypt_hash bcrypt_compare jwt_sign JWT_SECRET
                     rs w)) !! id = Some f →
     ∃ c, Work.counts f = Some c
          ∧ Counts.completed c + Counts.doing c + Counts.notYetStarted c
            = length (default [] (Work.status f)))
  ∧ (∀ workId body now w0 resp w1,
       updateStatus castObjectId workId body now w0 = (Ret resp, w1) →
       statusCode resp = 200 →
       ∃ oid f c, castObjectId workId = Some oid
              ∧ works (store w1) !! oid = Some f ∧ Work.counts f = Some c
              ∧ Counts.completed c + Counts.doing c + Counts.notYetStarted c
                = length (default [] (Work.status f))).
Proof.
  intros Hinit. split.
  - intros id f Hf.
    assert (storeOk countsOk
              (store (serve castObjectId bcrypt_hash bcrypt_compare jwt_sign JWT_SECRET
                        rs w)))
      as Hok.
    { apply serve_keeps.
      - apply countsOk_new.
      - intros d _. apply countsOk_recalc.
      - intros d l u n s t _ _. apply countsOk_upsert.
      - apply countsOk_hydrate.
      - intros i g. apply Hinit. }
    apply (Hok id f Hf).
  - intros workId body now w0 resp w1 Hrun Hcode.
    destruct (updateStatus_success _ _ _ _ _ _ _ Hrun Hcode)
      as (oid & f & Hoid & _ & _ & Hw1).
    eexists oid, _, _. split; [done|].
    split; [rewrite Hw1; apply lookup_insert_eq|]. split; [done|].
    apply recalcCounts_sum.
Qed.

(** The sample run from the empty store, and an upsert on an assignment
    whose cached counts were wrong. *)
Lemma counts_add_up_after_upserts_witness :
  (∃ c, Work.counts sample_work = Some c
        ∧ Counts.completed c + Counts.doing c + Counts.notYetStarted c
          = length (default [] (Work.status sample_work)))
  ∧ (∃ oid f c,
       sample_cast wid9 = Some oid
       ∧ works (store (updateStatus sample_cast wid9 sample_upsert 50
                         (mkWorld stale_store [])).2) !! oid = Some f
       ∧ Work.counts f = Some c
       ∧ Counts.completed c + Counts.doing c + Counts.notYetStarted c
         = length (default [] (Work.status f))).
Proof.
  pose proof (counts_add_up_after_upserts sample_cast sample_hash sample_compare
                sample_sign None sample_requests (mkWorld emptyStore [])) as H.
  destruct H as [H1 H2].
  { intros id f. unfold emptyStore. simpl. rewrite lookup_empty. discriminate. }
  split.
  - apply (H1 wid1 sample_work). vm_compute. reflexivity.
  - eapply (H2 wid9 sample_upsert 50%Z (mkWorld stale_store [])).
    + vm_compute. reflexivity.
    + reflexivity.
Defined.

(** ** Status entries and user identifiers *)

(** C2 (where the code departs from it). A user identifier that the client
    sends in a form other than the one the store shows (it casts to the
    ObjectId [c], and [c] is another string) never passes the test of line
    425: when two status upserts with it answer 200 on an assignment that
    had no entry under that string, each of them has pushed an entry, and
    the status list ends with two entries that carry the same user
    identifier [c]. *)
Theorem upsert_twice_two_entries_for_one_user
    (castObjectId : string → option string) (workId : string)
    (body1 body2 : gmap string string) (t1 t2 : Z) (w w1 w2 : World)
    (r1 r2 : Response) (u c oid : string) (f : Work.t) :
  body1 !! "userId" = Some u → body2 !! "userId" = Some u →
  castObjectId u = Some c → c ≠ u →
  castObjectId workId = Some oid → works (store w) !! oid = Some f →
  entriesFor u (default [] (Work.status f)) = 0 →
  updateStatus castObjectId workId body1 t1 w = (Ret r1, w1) → statusCode r1 = 200 →
  updateStatus castObjectId workId body2 t2 w1 = (Ret r2, w2) → statusCode r2 = 200 →
  ∃ f2,
    works (store w2) !! oid = Some f2
    ∧ Work.status f2
      = Some (default [] (Work.status f)
              ++ [StatusEntry.mk (Some c) (str (body1 !! "username"))
                                 (str (body1 !! "state")) t1;
                  StatusEntry.mk (Some c) (str (body2 !! "username"))
                                 (str (body2 !! "state")) t2])
    ∧ 2 ≤ entriesFor c (default [] (Work.status f2)).
Proof.
  intros Hb1 Hb2 Hc Hne Hoid Hf Hnone Hrun1 Hcode1 Hrun2 Hcode2.
  destruct (updateStatus_success _ _ _ _ _ _ _ Hrun1 Hcode1)
    as (oid1 & f1 & Hoid1 & Hf1 & _ & Hw1).
  rewrite Hoid in Hoid1. injection Hoid1 as <-.
  rewrite Hf in Hf1. injection Hf1 as <-.
  destruct (updateStatus_success _ _ _ _ _ _ _ Hrun2 Hcode2)
    as (oid2 & f2 & Hoid2 & Hf2 & _ & Hw2).
  rewrite Hoid in Hoid2. injection Hoid2 as <-.
  rewrite Hw1, lookup_insert_eq in Hf2. injection Hf2 as <-.
  rewrite Hb1 in Hw1. rewrite Hb1, Hb2 in Hw2. simpl in Hw2.
  apply entriesFor_none in Hnone.
  rewrite (upsertStatus_append castObjectId _ u _ _ t1 Hnone) in Hw2.
  assert (castOrKeep castObjectId u = c) as Hkeep
    by (unfold castOrKeep; by rewrite Hc).
  rewrite Hkeep in Hw2.
  rewrite upsertStatus_append in Hw2.
  - rewrite Hkeep, <- app_assoc in Hw2. simpl in Hw2.
    eexists. split; [rewrite Hw2; apply lookup_insert_eq|].
    split; [reflexivity|]. simpl.
    rewrite entriesFor_app, !entriesFor_cons. simpl.
    repeat case_decide; try done. lia.
  - apply Forall_app. split; [done|]. constructor; [|done].
    unfold sameUser. simpl. by apply String.eqb_neq.
Qed.

(** Bob's identifier sent twice in upper case to the assignment of the stale
    store, where Ann has the one entry: the list ends with two entries for
    Bob. *)
Lemma upsert_twice_two_entries_for_one_user_witness :
  ∃ f2,
    works (store (serve sample_cast sample_hash sample_compare sample_sign None
                    [PostWorkStatus wid9 sample_upsert_upper 50;
                     PostWorkStatus wid9
                       (body_of [("userId", uid2_upper); ("username", "Bob");
                                 ("state", "completed")]) 60]
                    (mkWorld stale_store []))) !! wid9 = Some f2
    ∧ Work.status f2
      = Some [StatusEntry.mk (Some uid1) "Ann" "doing" 6;
              StatusEntry.mk (Some uid2) "Bob" "doing" 50;
              StatusEntry.mk (Some uid2) "Bob" "completed" 60]
    ∧ 2 ≤ entriesFor uid2 (default [] (Work.status f2)).
Proof.
  destruct (upsert_twice_two_entries_for_one_user sample_cast wid9 sample_upsert_upper
              (body_of [("userId", uid2_upper); ("username", "Bob");
                        ("state", "completed")]) 50 60
              (mkWorld stale_store [])
              (updateStatus sample_cast wid9 sample_upsert_upper 50
                 (mkWorld stale_store [])).2
              (serve sample_cast sample_hash sample_compare sample_sign None
                 [PostWorkStatus wid9 sample_upsert_upper 50;
                  PostWorkStatus wid9
                    (body_of [("userId", uid2_upper); ("username", "Bob");
                              ("state", "completed")]) 60]
                 (mkWorld stale_store []))
              (mkResponse 200
                 [("success", JBool true); ("message", JStr "Status updated");
                  ("work", JWork (mkDocument wid9
                     (Work.mk "Physics" "Lab" "2024-02-02" "Admin" "" 5
                        (Some [StatusEntry.mk (Some uid1) "Ann" "doing" 6;
                               StatusEntry.mk (Some uid2) "Bob" "doing" 50])
                        (Some (Counts.mk 0 2 0)))));
                  ("totals", JTotals (WorkTotals.mk 1 0 2 0 50))])
              (mkResponse 200
                 [("success", JBool true); ("message", JStr "Status updated");
                  ("work", JWork (mkDocument wid9
                     (Work.mk "Physics" "Lab" "2024-02-02" "Admin" "" 5
                        (Some [StatusEntry.mk (Some uid1) "Ann" "doing" 6;
                               StatusEntry.mk (Some uid2) "Bob" "doing" 50;
                               StatusEntry.mk (Some uid2) "Bob" "completed" 60])
                        (Some (Counts.mk 1 2 0)))));
                  ("totals", JTotals (WorkTotals.mk 1 1 2 0 60))])
              uid2_upper uid2 wid9 stale_work)
    as (f2 & H1 & H2 & H3);
    try (vm_compute; reflexivity).
  - vm_compute. discriminate.
  - exists f2. split; [exact H1|]. split; [|exact H3].
    rewrite H2. vm_compute. reflexivity.
Defined.
(** ** The global totals *)

Lemma orZero_id (n : nat) : orZero n = n.
Proof. unfold orZero. by destruct n. Qed.

Lemma foldr_groupStep (l : list (string * Work.t)) :
  foldr (uncurry (λ (_ : string) d acc, groupStep d acc)) None l =
  match l with
  | [] => None
  | _ :: _ =>
      Some (mkGroup (length l)
                    (sum_list_with (λ kv, countsField Counts.completed kv.2) l)
                    (sum_list_with (λ kv, countsField Counts.doing kv.2) l)
                    (sum_list_with (λ kv, countsField Counts.notYetStarted kv.2) l))
  end.
Proof.
  induction l as [|[k d] l IH]; [done|].
  simpl. rewrite IH. unfold groupStep.
  destruct l as [|kv' l]; simpl; f_equal; f_equal; lia.
Qed.

(** The [$group] stage yields no group for an empty collection, and else one
    group with the number of records and the three sums. *)
Lemma groupAll_spec (ws : gmap string Work.t) :
  groupAll ws =
  if decide (size ws = 0) then []
  else [mkGroup (size ws) (sumOver Counts.completed ws) (sumOver Counts.doing ws)
                (sumOver Counts.notYetStarted ws)].
Proof.
  unfold groupAll, sumOver. rewrite map_fold_foldr.
  rewrite foldr_groupStep, <- length_map_to_list.
  destruct (map_to_list ws) as [|kv l]; by case_decide.
Qed.

Lemma sumOver_empty (f : Counts.t → nat) (ws : gmap string Work.t) :
  size ws = 0 → sumOver f ws = 0.
Proof.
  intros H. apply map_size_empty_inv in H. subst ws.
  unfold sumOver. by rewrite map_to_list_empty.
Qed.

(** The totals recomputation, when the store answers. *)
Lemma recomputeAndSaveGlobalTotals_run (now : Z) (us : list (Document User.t))
    (ws : gmap string Work.t) (old : option WorkTotals.t) :
  recomputeAndSaveGlobalTotals now (mkWorld (mkStore us ws old) []) =
  (Ret (totalsOf ws now), mkWorld (mkStore us ws (Some (totalsOf ws now))) []).
Proof.
  unfold recomputeAndSaveGlobalTotals, bind, Work_aggregate, WorkTotals_findOne,
    WorkTotals_save, storeCall, ret. simpl.
  rewrite groupAll_spec. unfold totalsOf. case_decide as Hsize.
  - simpl. rewrite !sumOver_empty by done. by rewrite Hsize.
  - simpl. by rewrite !orZero_id.
Qed.

(** C10. With no assignment record in the store, and the store answering,
    the totals recomputation sets totalWorks, completed, doing and
    notYetStarted of the WorkTotals record to 0, whether the record was
    absent (it is created) or held other values. *)
Theorem recomputeAndSaveGlobalTotals_no_works (now : Z) (us : list (Document User.t))
    (old : option WorkTotals.t) :
  recomputeAndSaveGlobalTotals now (mkWorld (mkStore us ∅ old) []) =
  (Ret (WorkTotals.mk 0 0 0 0 now),
   mkWorld (mkStore us ∅ (Some (WorkTotals.mk 0 0 0 0 now))) []).
Proof.
  rewrite recomputeAndSaveGlobalTotals_run. unfold totalsOf.
  rewrite map_size_empty, !sumOver_empty by apply map_size_empty. done.
Qed.
(** ** The forced recompute *)

(** Writing the records of a list one after the other. *)
Lemma foldl_insert_union {A} (g : A → A) (l : list (string * A)) (m : gmap string A) :
  foldl (λ m kv, <[kv.1 := g kv.2]> m) m l
  = list_to_map (reverse (prod_map id g <$> l)) ∪ m.
Proof.
  revert m. induction l as [|[k x] l IH]; intros m.
  - simpl. by rewrite (left_id_L ∅ (∪)).
  - rewrite fmap_cons, reverse_cons, list_to_map_app.
    change (foldl ?f m ((k, x) :: l)) with (foldl f (f m (k, x)) l).
    rewrite IH. simpl.
    rewrite <- (assoc_L (∪)). f_equal.
    by rewrite insert_empty, <- insert_union_singleton_l.
Qed.

Lemma foldl_insert_all {A} (g : A → A) (m : gmap string A) :
  foldl (λ m kv, <[kv.1 := g kv.2]> m) m (map_to_list m) = g <$> m.
Proof.
  rewrite foldl_insert_union.
  rewrite (list_to_map_proper _ (prod_map id g <$> map_to_list m)).
  - rewrite list_to_map_fmap, list_to_map_to_list.
    apply map_eq. intros i. rewrite lookup_union, !lookup_fmap.
    by destruct (m !! i).
  - rewrite fmap_reverse, reverse_Permutation, <- list_fmap_compose.
    rewrite (list_fmap_ext _ fst) by (by intros ? [? ?] _).
    apply NoDup_fst_map_to_list.
  - apply reverse_Permutation.
Qed.

Lemma bind_run {A B} (m : M A) (k : A → M B) (w : World) (a : A) (w1 : World) :
  m w = (Ret a, w1) → bind m k w = k a w1.
Proof. intros H. unfold bind. by rewrite H. Qed.

(** The first pass of the forced recompute, when every document passes the
    validation: every document read is recalculated and written back. *)
Lemma promiseAll_recalc (castObjectId : string → option string)
    (l : list (string * Work.t)) (s : Store) :
  Forall (λ kv, validWork castObjectId kv.2 = true) l →
  ∃ rs,
    promiseAll (map (λ d, recalcAndSaveWorkCounts castObjectId (Some d))
                    ((λ kv, mkDocument kv.1 (hydrate kv.2)) <$> l)) (mkWorld s [])
    = (Ret rs,
       mkWorld (mkStore (users s)
                        (foldl (λ m kv, <[kv.1 := recomputed kv.2]> m) (works s) l)
                        (totals s)) []).
Proof.
  intros Hl. revert s. induction Hl as [|[k f] l Hf _ IH]; intros s.
  - exists []. by destruct s.
  - rewrite fmap_cons.
    change (map ?g (?x :: ?r)) with (g x :: map g r).
    cbn [promiseAll]. rewrite recalcAndSaveWorkCounts_run
      by (simpl; by rewrite validWork_hydrate).
    destruct (IH (withWork s (setCounts (mkDocument k (hydrate f))
                                (recalcCounts (Work.status (hydrate f))))))
      as [rs Hrs].
    simpl in Hrs |- *. rewrite Hrs. eexists. reflexivity.
Qed.

(** The forced recompute, when every record passes the validation and the
    store answers. *)
Lemma recomputeTotals_run (castObjectId : string → option string) (now : Z)
    (us : list (Document User.t)) (ws : gmap string Work.t)
    (old : option WorkTotals.t) :
  map_Forall (λ _ f, validWork castObjectId f = true) ws →
  recomputeTotals castObjectId now (mkWorld (mkStore us ws old) []) =
  (Ret (mkResponse 200 [("success", JBool true); ("message", JStr "Recomputed totals");
                        ("totals", JTotals (totalsOf (recomputed <$> ws) now))]),
   mkWorld (mkStore us (recomputed <$> ws)
                    (Some (totalsOf (recomputed <$> ws) now))) []).
Proof.
  intros Hv.
  destruct (promiseAll_recalc castObjectId (map_to_list ws) (mkStore us ws old))
    as [rs Hrs].
  { apply map_Forall_to_list in Hv. eapply Forall_impl; [exact Hv|]. by intros [k f]. }
  cbn [users works totals] in Hrs. rewrite foldl_insert_all in Hrs.
  unfold recomputeTotals, tryCatch.
  rewrite (bind_run _ _ _ ((λ kv, mkDocument kv.1 (hydrate kv.2)) <$> map_to_list ws)
             (mkWorld (mkStore us ws old) [])) by reflexivity.
  rewrite (bind_run _ _ _ _ _ Hrs).
  rewrite (bind_run _ _ _ _ _ (recomputeAndSaveGlobalTotals_run _ _ _ _)).
  reflexivity.
Qed.




(** ** Validation of the state *)

(** C6. A status upsert whose state is none of "completed", "doing" and
    "not yet started" is answered with status 400, success false and a
    message, and the world (every assignment record with it) is as before;
    a state that is one of the three strings passes the validator, and with
    a user identifier and a username the request is then not answered 400. *)
Theorem updateStatus_validates_state (castObjectId : string → option string)
    (workId : string) (body : gmap string string) (now : Z) (w : World) :
  (body !! "state" ≠ Some "completed" → body !! "state" ≠ Some "doing" →
   body !! "state" ≠ Some "not yet started" →
   ∃ message,
     updateStatus castObjectId workId body now w = (Ret (failure 400 message), w))
  ∧ (body !! "state" = Some "completed" ∨ body !! "state" = Some "doing"
     ∨ body !! "state" = Some "not yet started" →
     isValidState (body !! "state") = true
     ∧ (truthy (body !! "userId") = true → truthy (body !! "username") = true →
        ∀ resp, (updateStatus castObjectId workId body now w).1 = Ret resp →
                statusCode resp ≠ 400)).
Proof.
  split.
  - intros H1 H2 H3.
    assert (isValidState (body !! "state") = false) as Hv.
    { destruct (isValidState (body !! "state")) eqn:Hv; [|done].
      apply isValidState_spec in Hv. destruct Hv as [? | [? | ?]]; done. }
    unfold updateStatus, tryCatch. rewrite Hv.
    destruct (negb _ || negb _ || negb _); simpl; eexists; reflexivity.
  - intros Hs. apply isValidState_spec in Hs. split; [done|].
    intros Hu Hn.
    assert (keeps (λ _, True) (updateStatus castObjectId workId body now)
                  (λ resp, statusCode resp ≠ 400)) as Hk.
    { unfold updateStatus.
      rewrite Hu, Hn, Hs, (isValidState_truthy _ Hs). simpl.
      apply keeps_tryCatch; [|intros err; by apply keeps_ret].
      eapply keeps_bind with (R := λ _, True).
      - intros w0 _. split; [|done]. intros i x _. done.
      - intros [d|] _; [|by apply keeps_ret].
        destruct (Work.status (fields d)); [|apply keeps_throw].
        eapply keeps_bind with (R := λ _, True).
        + intros w0 _. split; [|done]. intros i x _. done.
        + intros saved _. eapply keeps_bind with (R := λ _, True).
          * intros w0 _. split; [|done]. intros i x _. done.
          * intros t _. by apply keeps_ret. }
    intros resp Hresp. apply (Hk w); [|done]. intros i x _. done.
Qed.

Lemma updateStatus_validates_state_witness :
  (∃ message,
     updateStatus sample_cast wid9 (body_of [("userId", uid2); ("username", "Bob");
                                             ("state", "Completed")]) 50
                  (mkWorld stale_store [Some "down"])
     = (Ret (failure 400 message), mkWorld stale_store [Some "down"]))
  ∧ isValidState (sample_upsert !! "state") = true
  ∧ ∀ resp, (updateStatus sample_cast wid9 sample_upsert 50
               (mkWorld stale_store [])).1 = Ret resp →
            statusCode resp ≠ 400.
Proof.
  split.
  - apply (proj1 (updateStatus_validates_state sample_cast wid9
                    (body_of [("userId", uid2); ("username", "Bob");
                              ("state", "Completed")]) 50
                    (mkWorld stale_store [Some "down"])));
      vm_compute; discriminate.
  - pose proof (proj2 (updateStatus_validates_state sample_cast wid9 sample_upsert 50
                         (mkWorld stale_store []))) as H.
    destruct H as [H1 H2].
    + left. vm_compute. reflexivity.
    + split; [exact H1|]. apply H2; vm_compute; reflexivity.
Defined.

(** ** The response envelope *)

(** What a computation returns, the store left aside: [keeps] with the
    trivial invariant. *)
Lemma returns_any {A} (m : M A) : keeps (λ _, True) m (λ _, True).
Proof. intros w _. split; [|done]. intros i x _. done. Qed.

Ltac envelope_of_literal :=
  split;
  [ eexists; reflexivity
  | first [ intros _; eexists; reflexivity | unfold isError; simpl; lia ] ].

Lemma returns_caught (message err : string) :
  keeps (λ _, True) (caught message err) envelope.
Proof. apply keeps_ret. envelope_of_literal. Qed.

(** The routes of the work tracker answer with the envelope on every path. *)
Lemma work_routes_envelope
    (castObjectId : string → option string)
    (bcrypt_hash : string → nat → string)
    (bcrypt_compare : string → string → bool)
    (jwt_sign : TokenPayload → string → string → string)
    (JWT_SECRET : option string) (r : Request) :
  match r with
  | PostRegister _ _ | PostLogin _ => True
  | _ => keeps (λ _, True)
               (handle castObjectId bcrypt_hash bcrypt_compare jwt_sign JWT_SECRET r)
               envelope
  end.
Proof.
  destruct r as [| |body newId now|id now|workId body now|workId| |now]; try done; simpl.
  - unfold addWork. apply keeps_tryCatch; [|apply returns_caught].
    destruct (negb _ || negb _ || negb _); [apply keeps_ret; envelope_of_literal|].
    eapply keeps_bind; [apply returns_any|]. intros _ _.
    eapply keeps_bind; [apply returns_any|]. intros t _.
    apply keeps_ret. envelope_of_literal.
  - unfold deleteWork. apply keeps_tryCatch; [|apply returns_caught].
    eapply keeps_bind; [apply returns_any|]. intros [d|] _.
    + eapply keeps_bind; [apply returns_any|]. intros t _.
      apply keeps_ret. envelope_of_literal.
    + apply keeps_ret. envelope_of_literal.
  - unfold updateStatus. apply keeps_tryCatch; [|apply returns_caught].
    destruct (negb _ || negb _ || negb _); [apply keeps_ret; envelope_of_literal|].
    destruct (negb (isValidState _)); [apply keeps_ret; envelope_of_literal|].
    eapply keeps_bind; [apply returns_any|]. intros [d|] _.
    + destruct (Work.status (fields d)); [|apply keeps_throw].
      eapply keeps_bind; [apply returns_any|]. intros saved _.
      eapply keeps_bind; [apply returns_any|]. intros t _.
      apply keeps_ret. envelope_of_literal.
    + apply keeps_ret. envelope_of_literal.
  - unfold getStatus. apply keeps_tryCatch; [|apply returns_caught].
    eapply keeps_bind; [apply returns_any|]. intros [d|] _.
    + eapply keeps_bind; [apply returns_any|]. intros d1 _.
      apply keeps_ret. envelope_of_literal.
    + apply keeps_ret. envelope_of_literal.
  - unfold getTotals. apply keeps_tryCatch; [|apply returns_caught].
    eapply keeps_bind; [apply returns_any|]. intros t _.
    apply keeps_ret. envelope_of_literal.
  - unfold recomputeTotals. apply keeps_tryCatch; [|apply returns_caught].
    eapply keeps_bind; [apply returns_any|]. intros allWorks _.
    eapply keeps_bind; [apply returns_any|]. intros _ _.
    eapply keeps_bind; [apply returns_any|]. intros t _.
    apply keeps_ret. envelope_of_literal.
Qed.

(** Every request is answered: what a handler throws is caught. *)
Lemma tryCatch_caught_returns (m : M Response) (message : string) (w : World) :
  ∃ resp, (tryCatch m (caught message) w).1 = Ret resp.
Proof.
  unfold tryCatch. destruct (m w) as [[resp|err] w1]; by eexists.
Qed.

Lemma handle_returns
    (castObjectId : string → option string)
    (bcrypt_hash : string → nat → string)
    (bcrypt_compare : string → string → bool)
    (jwt_sign : TokenPayload → string → string → string)
    (JWT_SECRET : option string) (r : Request) (w : World) :
  ∃ resp,
    (handle castObjectId bcrypt_hash bcrypt_compare jwt_sign JWT_SECRET r w).1
    = Ret resp.
Proof. destruct r; apply tryCatch_caught_returns. Qed.

(** C7 (where the code departs from it). A registration request without
    email and password is answered 400 with a body that holds a message and
    no success field. *)
Theorem register_missing_fields_no_success
    (bcrypt_hash : string → nat → string) (newId : string) (w : World) :
  register bcrypt_hash ∅ newId w
  = (Ret (mkResponse 400 [("message", JStr "email & password required")]), w)
  ∧ field "success" (mkResponse 400 [("message", JStr "email & password required")])
    = None
  ∧ ¬ hasSuccess (mkResponse 400 [("message", JStr "email & password required")]).
Proof.
  split; [|split; [done|]].
  - unfold register, tryCatch. by rewrite !lookup_empty.
  - intros [b Hb]. discriminate.
Qed.

(** ** Registration with a known email *)

Lemma find_email (email : string) (us : list (Document User.t)) (u : Document User.t) :
  u ∈ us → User.email (fields u) = email →
  ∃ u', find (λ u, String.eqb (User.email (fields u)) email) us = Some u'.
Proof.
  intros Hu He. induction Hu as [u us|u v us _ IH]; simpl.
  - rewrite He, String.eqb_refl. by eexists.
  - destruct (String.eqb (User.email (fields v)) email); [by eexists|by apply IH].
Qed.

(** C8. A registration request (with its two required fields, a non-empty
    email and a non-empty password) whose email is that of a user in the
    store creates no user: the store is left as it is, whatever the store
    answers; and when the store answers the lookup, the response is 400 with
    the message "Email already exists". *)
Theorem register_known_email
    (bcrypt_hash : string → nat → string) (body : gmap string string)
    (newId : string) (w : World) (u : Document User.t) :
  truthy (body !! "email") = true → truthy (body !! "password") = true →
  u ∈ users (store w) → body !! "email" = Some (User.email (fields u)) →
  store (register bcrypt_hash body newId w).2 = store w
  ∧ (answers w = true →
     register bcrypt_hash body newId w
     = (Ret (mkResponse 400 [("message", JStr "Email already exists")]),
        mkWorld (store w) (tail (faults w)))).
Proof.
  intros He Hp Hu Hbody.
  destruct (find_email (User.email (fields u)) _ _ Hu eq_refl) as [u' Hfind].
  unfold register, tryCatch, bind, User_findOne, storeCall, answers.
  rewrite He, Hp, Hbody. simpl. rewrite Hfind.
  destruct (faults w) as [|[err|] fs]; simpl; done.
Qed.

Lemma register_known_email_witness :
  store (register sample_hash
           (body_of [("email", "ann@example.com"); ("password", "pw")]) uid2
           (mkWorld sample_user_store [None; Some "down"])).2
  = sample_user_store
  ∧ register sample_hash
      (body_of [("email", "ann@example.com"); ("password", "pw")]) uid2
      (mkWorld sample_user_store [None; Some "down"])
    = (Ret (mkResponse 400 [("message", JStr "Email already exists")]),
       mkWorld sample_user_store [Some "down"]).
Proof.
  pose proof (register_known_email sample_hash
                (body_of [("email", "ann@example.com"); ("password", "pw")]) uid2
                (mkWorld sample_user_store [None; Some "down"]) sample_user) as H.
  destruct H as [H1 H2].
  - vm_compute. reflexivity.
  - vm_compute. reflexivity.
  - apply list_elem_of_here.
  - vm_compute. reflexivity.
  - split; [exact H1|]. apply H2. reflexivity.
Defined.

(** * Further properties of the server *)

(** ** [findIndex] and the upsert on a list *)

(** X1. [findIndex] returns -1 exactly when no element satisfies the
    predicate; otherwise it returns an index inside the list, the element
    there satisfies the predicate and no element before it does. *)
Theorem findIndex_first_match {A} (p : A → bool) (l : list A) :
  (findIndex p l = (-1)%Z ∧ ∀ x, x ∈ l → p x = false)
  ∨ (∃ (i : nat) (x : A),
       findIndex p l = Z.of_nat i ∧ i < length l ∧ l !! i = Some x ∧ p x = true
       ∧ ∀ j y, j < i → l !! j = Some y → p y = false).
Proof.
  destruct (first_split p l) as [H|(l1 & x & l2 & -> & H1 & Hx)].
  - left. split; [by apply findIndexFrom_none|].
    intros x Hx. by apply (proj1 (Forall_forall _ _) H).
  - right. exists (length l1), x. unfold findIndex.
    rewrite (findIndexFrom_found p l1 x l2 0 H1 Hx).
    split; [lia|]. split; [rewrite length_app; simpl; lia|].
    split; [by rewrite list_lookup_middle|]. split; [done|].
    intros j y Hj Hy. rewrite lookup_app_l in Hy by done.
    apply (proj1 (Forall_forall _ _) H1). by eapply list_elem_of_lookup_2.
Qed.

Lemma sameUser_overwrite (u n s : string) (t : Z) (e : StatusEntry.t) :
  sameUser u (overwrite n s t e) = sameUser u e.
Proof. done. Qed.

(** X2. The last write wins for a user identifier sent in the form the store
    shows it (a string that casts to itself): a status upsert for it
    followed by another one for it leaves the list that the second one alone
    would have left; so repeating an upsert changes nothing. *)
Theorem upsertStatus_last_write_wins (castObjectId : string → option string)
    (l : list StatusEntry.t) (u n1 s1 n2 s2 : string) (t1 t2 : Z) :
  castObjectId u = Some u →
  upsertStatus castObjectId (upsertStatus castObjectId l u n1 s1 t1) u n2 s2 t2
  = upsertStatus castObjectId l u n2 s2 t2
  ∧ upsertStatus castObjectId (upsertStatus castObjectId l u n1 s1 t1) u n1 s1 t1
    = upsertStatus castObjectId l u n1 s1 t1.
Proof.
  intros Hu.
  assert (castOrKeep castObjectId u = u) as Hkeep
    by (unfold castOrKeep; by rewrite Hu).
  assert (∀ n s t,
            upsertStatus castObjectId (upsertStatus castObjectId l u n1 s1 t1) u n s t
            = upsertStatus castObjectId l u n s t) as H.
  { intros n s t.
    destruct (first_split (sameUser u) l) as [Hl|(l1 & e & l2 & -> & H1 & He)].
    - rewrite (upsertStatus_append castObjectId l u n1 s1 t1),
        (upsertStatus_append castObjectId l u n s t) by done.
      rewrite Hkeep. rewrite upsertStatus_overwrite; [done|done|].
      unfold sameUser. simpl. apply String.eqb_refl.
    - rewrite (upsertStatus_overwrite castObjectId l1 e l2 u n1 s1 t1) by done.
      rewrite (upsertStatus_overwrite castObjectId l1 e l2 u n s t) by done.
      rewrite upsertStatus_overwrite; done. }
  split; apply H.
Qed.

(** Bob reports "doing" and then "completed". *)
Lemma upsertStatus_last_write_wins_witness :
  upsertStatus sample_cast
    (upsertStatus sample_cast [StatusEntry.mk (Some uid1) "Ann" "doing" 1]
                  uid2 "Bob" "doing" 2) uid2 "Bob" "completed" 3
  = [StatusEntry.mk (Some uid1) "Ann" "doing" 1;
     StatusEntry.mk (Some uid2) "Bob" "completed" 3].
Proof.
  etransitivity.
  - apply (proj1 (upsertStatus_last_write_wins sample_cast
                    [StatusEntry.mk (Some uid1) "Ann" "doing" 1]
                    uid2 "Bob" "doing" "Bob" "completed" 2 3 eq_refl)).
  - vm_compute. reflexivity.
Defined.

(** X3. A status upsert leaves every entry whose stored user identifier is
    not the string of the request as it was and where it was; the list grows
    by one entry exactly when no entry is stored under that string, and the
    entry pushed then carries the ObjectId that the string casts to. *)
Theorem upsertStatus_others_untouched (castObjectId : string → option string)
    (l : list StatusEntry.t) (u n s : string) (t : Z) :
  (∀ i e, l !! i = Some e → StatusEntry.userId e ≠ Some u →
          upsertStatus castObjectId l u n s t !! i = Some e)
  ∧ length (upsertStatus castObjectId l u n s t)
    = (if decide (entriesFor u l = 0) then S (length l) else length l)
  ∧ (entriesFor u l = 0 →
     ∀ c, castObjectId u = Some c →
          upsertStatus castObjectId l u n s t = l ++ [StatusEntry.mk (Some c) n s t]).
Proof.
  destruct (first_split (sameUser u) l) as [Hl|(l1 & e & l2 & -> & H1 & He)].
  - rewrite upsertStatus_append by done. split; [|split].
    + intros i e Hi _. by apply lookup_app_l_Some.
    + apply entriesFor_none in Hl. rewrite Hl. simpl.
      rewrite length_app. simpl. lia.
    + intros _ c Hc. unfold castOrKeep. by rewrite Hc.
  - rewrite upsertStatus_overwrite by done.
    apply sameUser_true in He. split; [|split].
    + intros i x Hi Hx.
      destruct (decide (i = length l1)) as [->|Hne].
      * rewrite list_lookup_middle in Hi by done. by injection Hi as <-.
      * destruct (decide (i < length l1)).
        -- rewrite lookup_app_l in Hi |- * by done. done.
        -- rewrite lookup_app_r in Hi |- * by lia.
           destruct (i - length l1) as [|k] eqn:Hk; [lia|]. done.
    + rewrite entriesFor_app, entriesFor_cons.
      case_decide as H0; [|by rewrite !length_app].
      case_decide; [lia|done].
    + rewrite entriesFor_app, entriesFor_cons. case_decide; [lia|done].
Qed.

(** Ann's entry is rewritten and Bob's stays; Bob's identifier in upper case
    finds no entry, and an entry with his ObjectId is pushed behind his
    own. *)
Lemma upsertStatus_others_untouched_witness :
  upsertStatus sample_cast
    [StatusEntry.mk (Some uid1) "Ann" "doing" 1;
     StatusEntry.mk (Some uid2) "Bob" "doing" 2] uid1 "Ann" "completed" 3
    !! 1 = Some (StatusEntry.mk (Some uid2) "Bob" "doing" 2)
  ∧ upsertStatus sample_cast
      [StatusEntry.mk (Some uid1) "Ann" "doing" 1;
       StatusEntry.mk (Some uid2) "Bob" "doing" 2] uid2_upper "Bob" "completed" 3
    = [StatusEntry.mk (Some uid1) "Ann" "doing" 1;
       StatusEntry.mk (Some uid2) "Bob" "doing" 2]
      ++ [StatusEntry.mk (Some uid2) "Bob" "completed" 3].
Proof.
  split.
  - apply (proj1 (upsertStatus_others_untouched sample_cast
                    [StatusEntry.mk (Some uid1) "Ann" "doing" 1;
                     StatusEntry.mk (Some uid2) "Bob" "doing" 2]
                    uid1 "Ann" "completed" 3%Z)).
    + reflexivity.
    + discriminate.
  - apply (proj2 (proj2 (upsertStatus_others_untouched sample_cast
                           [StatusEntry.mk (Some uid1) "Ann" "doing" 1;
                            StatusEntry.mk (Some uid2) "Bob" "doing" 2]
                           uid2_upper "Bob" "completed" 3%Z))).
    + vm_compute. reflexivity.
    + vm_compute. reflexivity.
Defined.

(** X4. After a status upsert for a user identifier sent in the form the
    store shows it, the first entry found for it carries the username, state
    and timestamp that were written. *)
Theorem upsertStatus_read_back (castObjectId : string → option string)
    (l : list StatusEntry.t) (u n s : string) (t : Z) :
  castObjectId u = Some u →
  find (sameUser u) (upsertStatus castObjectId l u n s t)
  = Some (StatusEntry.mk (Some u) n s t).
Proof.
  intros Hu.
  assert (∀ (l0 : list StatusEntry.t) e r,
            Forall (λ x, sameUser u x = false) l0 → sameUser u e = true →
            find (sameUser u) (l0 ++ e :: r) = Some e) as Hfind.
  { intros l0 e r H0 He. induction H0 as [|x l0 Hx _ IH]; simpl.
    - by rewrite He.
    - by rewrite Hx. }
  destruct (first_split (sameUser u) l) as [Hl|(l1 & e & l2 & -> & H1 & He)].
  - rewrite upsertStatus_append by done.
    unfold castOrKeep. rewrite Hu. simpl. apply Hfind; [done|].
    unfold sameUser. simpl. apply String.eqb_refl.
  - rewrite upsertStatus_overwrite by done.
    rewrite Hfind; [|done|done].
    apply sameUser_true in He. unfold overwrite. by rewrite He.
Qed.

Lemma upsertStatus_read_back_witness :
  find (sameUser uid2)
       (upsertStatus sample_cast
          [StatusEntry.mk (Some uid1) "Ann" "doing" 1;
           StatusEntry.mk (Some uid2) "Rob" "doing" 2] uid2 "Bob" "completed" 3)
  = Some (StatusEntry.mk (Some uid2) "Bob" "completed" 3).
Proof.
  apply (upsertStatus_read_back sample_cast
           [StatusEntry.mk (Some uid1) "Ann" "doing" 1;
            StatusEntry.mk (Some uid2) "Rob" "doing" 2] uid2 "Bob" "completed" 3%Z).
  vm_compute. reflexivity.
Defined.

(** ** The totals after a write *)

Lemma sumOver_insert_fresh (f : Counts.t → nat) (ws : gmap string Work.t)
    (k : string) (x : Work.t) :
  ws !! k = None → sumOver f (<[k := x]> ws) = countsField f x + sumOver f ws.
Proof.
  intros H. unfold sumOver. by rewrite (map_to_list_insert ws k x H).
Qed.


(** A totals recomputation that returned has stored what it returned: the
    summary of the Work collection as it stands. *)
Lemma recomputeAndSaveGlobalTotals_Ret (now : Z) (w : World) (t : WorkTotals.t)
    (w' : World) :
  recomputeAndSaveGlobalTotals now w = (Ret t, w') →
  t = totalsOf (works (store w)) now
  ∧ store w' = mkStore (users (store w)) (works (store w)) (Some t).
Proof.
  intros Hrun. unfold recomputeAndSaveGlobalTotals in Hrun.
  apply bind_Ret in Hrun as (agg & w1 & Hagg & Hrun).
  apply storeCall_Ret in Hagg. injection Hagg as Hagg Hs1.
  apply bind_Ret in Hrun as (found & w2 & Hfound & Hrun).
  apply storeCall_Ret in Hfound. injection Hfound as Hfound Hs2.
  apply bind_Ret in Hrun as (u & w3 & Hsave & Hrun).
  apply storeCall_Ret in Hsave. injection Hsave as _ Hs3.
  injection Hrun as Ht Hw. subst w3.
  assert (t = totalsOf (works (store w)) now) as Heq.
  { rewrite <- Ht, <- Hagg, groupAll_spec. unfold totalsOf.
    case_decide as Hsize; simpl.
    - rewrite !sumOver_empty by done. by rewrite Hsize.
    - by rewrite !orZero_id. }
  split; [done|].
  rewrite <- Hs3, <- Hs2, <- Hs1. by rewrite Ht.
Qed.

Lemma recompute_then_respond (now : Z) (mk : WorkTotals.t → Response) (w : World)
    (resp : Response) (w' : World) :
  bind (recomputeAndSaveGlobalTotals now) (λ t, ret (mk t)) w = (Ret resp, w') →
  resp = mk (totalsOf (works (store w)) now)
  ∧ store w' = mkStore (users (store w)) (works (store w))
                       (Some (totalsOf (works (store w)) now)).
Proof.
  intros Hrun. apply bind_Ret in Hrun as (t & w1 & Htot & Hret).
  injection Hret as <- <-.
  apply recomputeAndSaveGlobalTotals_Ret in Htot as [-> Hs]. done.
Qed.

(** A route that ends by recomputing the totals and answered 200 has left
    the WorkTotals record equal to the summary of the Work collection. *)
Lemma write_route_Ret
    (castObjectId : string → option string)
    (bcrypt_hash : string → nat → string)
    (bcrypt_compare : string → string → bool)
    (jwt_sign : TokenPayload → string → string → string)
    (JWT_SECRET : option string) (r : Request) (now : Z) (w : World)
    (resp : Response) (w' : World) :
  writeTime r = Some now →
  handle castObjectId bcrypt_hash bcrypt_compare jwt_sign JWT_SECRET r w
  = (Ret resp, w') →
  statusCode resp = 200 →
  totals (store w') = Some (totalsOf (works (store w')) now)
  ∧ field "totals" resp = Some (JTotals (totalsOf (works (store w')) now)).
Proof.
  intros Hr Hrun Hcode.
  destruct r as [| |body newId t|id t|workId body t|workId| |t]; try done;
    injection Hr as ->; simpl in Hrun.
  - unfold addWork in Hrun.
    apply tryCatch_caught_Ret in Hrun; [|by rewrite Hcode].
    destruct (negb _ || negb _ || negb _); [by injection Hrun as <- _|].
    apply bind_Ret in Hrun as (u & w1 & _ & Hrun).
    apply recompute_then_respond in Hrun as [-> Hs].
    rewrite Hs. done.
  - unfold deleteWork in Hrun.
    apply tryCatch_caught_Ret in Hrun; [|by rewrite Hcode].
    apply bind_Ret in Hrun as (removed & w1 & _ & Hrun).
    destruct removed as [d|]; [|by injection Hrun as <- _].
    apply recompute_then_respond in Hrun as [-> Hs].
    rewrite Hs. done.
  - unfold updateStatus in Hrun.
    apply tryCatch_caught_Ret in Hrun; [|by rewrite Hcode].
    destruct (negb _ || negb _ || negb _); [by injection Hrun as <- _|].
    destruct (negb (isValidState _)); [by injection Hrun as <- _|].
    apply bind_Ret in Hrun as (workDoc & w1 & _ & Hrun).
    destruct workDoc as [d|]; [|by injection Hrun as <- _].
    destruct (Work.status (fields d)) as [l|]; [|done].
    apply bind_Ret in Hrun as (saved & w2 & _ & Hrun).
    apply recompute_then_respond in Hrun as [-> Hs].
    rewrite Hs. done.
  - unfold recomputeTotals in Hrun.
    apply tryCatch_caught_Ret in Hrun; [|by rewrite Hcode].
    apply bind_Ret in Hrun as (allWorks & w1 & _ & Hrun).
    apply bind_Ret in Hrun as (rs & w2 & _ & Hrun).
    apply recompute_then_respond in Hrun as [-> Hs].
    rewrite Hs. done.
Qed.

(** X5. When adding an assignment, deleting one, a status upsert or the
    forced recompute answers 200, whatever the store refused on the way, the
    WorkTotals record holds the number of assignment records in the store and
    the three sums over their counts, stamped with the request's time, and
    the response shows that same record. *)
Theorem successful_write_syncs_totals
    (castObjectId : string → option string)
    (bcrypt_hash : string → nat → string)
    (bcrypt_compare : string → string → bool)
    (jwt_sign : TokenPayload → string → string → string)
    (JWT_SECRET : option string) (r : Request) (now : Z) (w : World)
    (resp : Response) (w' : World) :
  writeTime r = Some now →
  handle castObjectId bcrypt_hash bcrypt_compare jwt_sign JWT_SECRET r w
  = (Ret resp, w') →
  statusCode resp = 200 →
  ∃ t, totals (store w') = Some t
       ∧ field "totals" resp = Some (JTotals t)
       ∧ WorkTotals.totalWorks t = size (works (store w'))
       ∧ WorkTotals.completed t = sumOver Counts.completed (works (store w'))
       ∧ WorkTotals.doing t = sumOver Counts.doing (works (store w'))
       ∧ WorkTotals.notYetStarted t = sumOver Counts.notYetStarted (works (store w'))
       ∧ WorkTotals.updatedAt t = now.
Proof.
  intros Hr Hrun Hcode.
  destruct (write_route_Ret _ _ _ _ _ _ _ _ _ _ Hr Hrun Hcode) as [Ht Hf].
  eexists. split; [exact Ht|]. split; [exact Hf|]. done.
Qed.

Lemma successful_write_syncs_totals_witness :
  ∃ t, totals (store (updateStatus sample_cast wid9 sample_upsert 50
                        (mkWorld stale_store [None; None; None; None; None; Some "down"])).2)
       = Some t
       ∧ field "totals"
           (mkResponse 200
              [("success", JBool true); ("message", JStr "Status updated");
               ("work", JWork (mkDocument wid9 sample_upserted));
               ("totals", JTotals (WorkTotals.mk 1 1 1 0 50))])
         = Some (JTotals t)
       ∧ WorkTotals.totalWorks t = 1
       ∧ WorkTotals.completed t = 1
       ∧ WorkTotals.doing t = 1
       ∧ WorkTotals.notYetStarted t = 0
       ∧ WorkTotals.updatedAt t = 50%Z.
Proof.
  destruct (successful_write_syncs_totals sample_cast sample_hash sample_compare
              sample_sign None (PostWorkStatus wid9 sample_upsert 50) 50
              (mkWorld stale_store [None; None; None; None; None; Some "down"])
              (mkResponse 200
                 [("success", JBool true); ("message", JStr "Status updated");
                  ("work", JWork (mkDocument wid9 sample_upserted));
                  ("totals", JTotals (WorkTotals.mk 1 1 1 0 50))])
              (mkWorld (mkStore [] {[ wid9 := sample_upserted ]}
                                (Some (WorkTotals.mk 1 1 1 0 50)))
                       [Some "down"]))
    as (t & H1 & H2 & H3 & H4 & H5 & H6 & H7).
  - reflexivity.
  - vm_compute. reflexivity.
  - reflexivity.
  - exists t. split; [|split; [exact H2|]].
    + rewrite <- H1. vm_compute. reflexivity.
    + assert (t = WorkTotals.mk 1 1 1 0 50) as -> by (vm_compute in H2; congruence).
      repeat split.
Defined.

(** ** The global sums and the status entries *)

Lemma sums_are_entries (s : Store) :
  storeOk countsOk s →
  sumOver Counts.completed (works s) + sumOver Counts.doing (works s)
  + sumOver Counts.notYetStarted (works s) = statusEntries (works s).
Proof.
  intros Hs. apply map_Forall_to_list in Hs.
  unfold sumOver, statusEntries.
  induction Hs as [|[k f] l Hf _ IH]; [done|].
  simpl in *. destruct Hf as (c & Hc & Hsum).
  unfold countsField, sumCounts in *. rewrite Hc. lia.
Qed.

(** X6. In a store whose cached counts add up (as they do in every store the
    server has built), a 200 answer of a route that recomputes the totals
    leaves global sums that together are the number of status entries over
    all assignments. *)
Theorem successful_write_totals_count_entries
    (castObjectId : string → option string)
    (bcrypt_hash : string → nat → string)
    (bcrypt_compare : string → string → bool)
    (jwt_sign : TokenPayload → string → string → string)
    (JWT_SECRET : option string) (r : Request) (now : Z) (w : World)
    (resp : Response) (w' : World) :
  (∀ id f, works (store w) !! id = Some f → countsOk f) →
  writeTime r = Some now →
  handle castObjectId bcrypt_hash bcrypt_compare jwt_sign JWT_SECRET r w
  = (Ret resp, w') →
  statusCode resp = 200 →
  ∃ t, totals (store w') = Some t
       ∧ WorkTotals.completed t + WorkTotals.doing t + WorkTotals.notYetStarted t
         = statusEntries (works (store w')).
Proof.
  intros Hinit Hr Hrun Hcode.
  destruct (write_route_Ret _ _ _ _ _ _ _ _ _ _ Hr Hrun Hcode) as [Ht _].
  eexists. split; [exact Ht|]. simpl.
  apply sums_are_entries.
  pose proof (countsOk_handle castObjectId bcrypt_hash bcrypt_compare jwt_sign
                JWT_SECRET r w) as [Hok _].
  { intros i g. apply Hinit. }
  by rewrite Hrun in Hok.
Qed.

Lemma successful_write_totals_count_entries_witness :
  ∃ t, totals (store (recomputeTotals sample_cast 60
                        (mkWorld (mkStore [] {[ wid1 := sample_work ]} None) [])).2)
       = Some t
       ∧ WorkTotals.completed t + WorkTotals.doing t + WorkTotals.notYetStarted t
         = statusEntries
             (works (store (recomputeTotals sample_cast 60
                              (mkWorld (mkStore [] {[ wid1 := sample_work ]} None) [])).2)).
Proof.
  eapply (successful_write_totals_count_entries sample_cast sample_hash sample_compare
            sample_sign None (PostRecomputeTotals 60) 60
            (mkWorld (mkStore [] {[ wid1 := sample_work ]} None) [])).
  - intros id f Hf. simpl in Hf. apply lookup_singleton_Some in Hf as [_ <-].
    exists (Counts.mk 1 0 1). split; reflexivity.
  - reflexivity.
  - vm_compute. reflexivity.
  - reflexivity.
Defined.

(** ** Client errors leave the store alone *)

Lemma Work_findByIdAndDelete_Ret (castObjectId : string → option string) (id : string)
    (w : World) (o : option (Document Work.t)) (w' : World) :
  Work_findByIdAndDelete castObjectId id w = (Ret o, w') →
  ∃ oid, castObjectId id = Some oid
         ∧ o = (λ f, mkDocument oid (hydrate f)) <$> works (store w) !! oid
         ∧ store w' = mkStore (users (store w)) (delete oid (works (store w)))
                              (totals (store w)).
Proof.
  unfold Work_findByIdAndDelete. destruct (castObjectId id) as [oid|]; [|done].
  intros H. apply storeCall_Ret in H. injection H as <- <-. by exists oid.
Qed.

(** X7. A request that is answered with a client error (a status from 400 to
    499: a missing or invalid field, a known email, wrong credentials, an
    unknown assignment) has changed nothing in the store, whatever the store
    refused on the way. *)
Theorem client_error_leaves_store
    (castObjectId : string → option string)
    (bcrypt_hash : string → nat → string)
    (bcrypt_compare : string → string → bool)
    (jwt_sign : TokenPayload → string → string → string)
    (JWT_SECRET : option string) (r : Request) (w : World)
    (resp : Response) (w' : World) :
  handle castObjectId bcrypt_hash bcrypt_compare jwt_sign JWT_SECRET r w
  = (Ret resp, w') →
  400 ≤ statusCode resp → statusCode resp < 500 →
  store w' = store w.
Proof.
  intros Hrun Hlo Hhi.
  assert (statusCode resp ≠ 500) as H500 by lia.
  destruct r as [body newId|body|body newId t|id t|workId body t|workId| |t];
    simpl in Hrun.
  - unfold register in Hrun. apply tryCatch_caught_Ret in Hrun; [|done].
    destruct (negb _ || negb _); [by injection Hrun as _ <-|].
    apply bind_Ret in Hrun as (existing & w1 & Hfind & Hrun).
    apply storeCall_Ret in Hfind. injection Hfind as _ Hs1.
    destruct existing as [u|]; [by injection Hrun as _ <-|].
    apply bind_Ret in Hrun as (u & w2 & _ & Hrun).
    injection Hrun as <- _. simpl in Hlo. lia.
  - unfold login in Hrun. apply tryCatch_caught_Ret in Hrun; [|done].
    destruct (negb _ || negb _); [by injection Hrun as _ <-|].
    apply bind_Ret in Hrun as (user & w1 & Hfind & Hrun).
    apply storeCall_Ret in Hfind. injection Hfind as _ Hs1.
    destruct user as [u|]; [|by injection Hrun as _ <-].
    destruct (negb _); by injection Hrun as _ <-.
  - unfold addWork in Hrun. apply tryCatch_caught_Ret in Hrun; [|done].
    destruct (negb _ || negb _ || negb _); [by injection Hrun as _ <-|].
    apply bind_Ret in Hrun as (u & w1 & _ & Hrun).
    apply recompute_then_respond in Hrun as [-> _]. simpl in Hlo. lia.
  - unfold deleteWork in Hrun. apply tryCatch_caught_Ret in Hrun; [|done].
    apply bind_Ret in Hrun as (removed & w1 & Hdel & Hrun).
    apply Work_findByIdAndDelete_Ret in Hdel as (oid & _ & -> & Hs1).
    destruct (works (store w) !! oid) as [f|] eqn:Hid; simpl in Hrun.
    + apply recompute_then_respond in Hrun as [-> _]. simpl in Hlo. lia.
    + injection Hrun as _ <-. rewrite Hs1.
      rewrite delete_id by done. by destruct (store w).
  - unfold updateStatus in Hrun. apply tryCatch_caught_Ret in Hrun; [|done].
    destruct (negb _ || negb _ || negb _); [by injection Hrun as _ <-|].
    destruct (negb (isValidState _)); [by injection Hrun as _ <-|].
    apply bind_Ret in Hrun as (workDoc & w1 & Hfind & Hrun).
    apply Work_findById_Ret in Hfind as (oid & _ & -> & Hs1).
    destruct (works (store w) !! oid) as [f|]; simpl in Hrun;
      [|by injection Hrun as _ <-].
    apply bind_Ret in Hrun as (saved & w2 & _ & Hrun).
    apply recompute_then_respond in Hrun as [-> _]. simpl in Hlo. lia.
  - unfold getStatus in Hrun. apply tryCatch_caught_Ret in Hrun; [|done].
    apply bind_Ret in Hrun as (workDoc & w1 & Hfind & Hrun).
    apply Work_findById_Ret in Hfind as (oid & _ & -> & Hs1).
    destruct (works (store w) !! oid) as [f|]; simpl in Hrun;
      [|by injection Hrun as _ <-].
    injection Hrun as <- _. simpl in Hlo. lia.
  - unfold getTotals in Hrun. apply tryCatch_caught_Ret in Hrun; [|done].
    apply bind_Ret in Hrun as (t & w1 & _ & Hrun).
    injection Hrun as <- _. simpl in Hlo. lia.
  - unfold recomputeTotals in Hrun. apply tryCatch_caught_Ret in Hrun; [|done].
    apply bind_Ret in Hrun as (allWorks & w1 & _ & Hrun).
    apply bind_Ret in Hrun as (rs & w2 & _ & Hrun).
    apply recompute_then_respond in Hrun as [-> _]. simpl in Hlo. lia.
Qed.

Lemma client_error_leaves_store_witness :
  store (deleteWork sample_cast wid0 70 (mkWorld stale_store [None; Some "down"])).2
  = stale_store.
Proof.
  eapply (client_error_leaves_store sample_cast sample_hash sample_compare sample_sign
            None (DeleteWork wid0 70) (mkWorld stale_store [None; Some "down"])
            (failure 404 "Work not found")).
  - vm_compute. reflexivity.
  - simpl. lia.
  - simpl. lia.
Defined.

(** ** Reading the cached counts *)


Lemma getStatus_cached (castObjectId : string → option string) (workId oid : string)
    (w : World) (f : Work.t) :
  castObjectId workId = Some oid → works (store w) !! oid = Some f →
  answers w = true →
  getStatus castObjectId workId w
  = (Ret (mkResponse 200 [("success", JBool true);
                          ("counts", JCounts (default (Counts.mk 0 0 0)
                                                      (Work.counts f)))]),
     mkWorld (store w) (tail (faults w))).
Proof.
  intros Hoid Hid Hans.
  unfold getStatus, tryCatch, bind, Work_findById, storeCall.
  unfold answers in Hans. rewrite Hoid, Hid.
  destruct (faults w) as [|[err|] fs]; done.
Qed.

(** X8. Reading the counts of an assignment (the store answering) serves the
    cached counts as they are stored, right or wrong, and writes nothing. A
    record without counts is answered with the counts {0, 0, 0} that the
    schema defaults give it, whatever its status list holds: nothing is
    counted and nothing is written. *)
Theorem getStatus_serves_cache (castObjectId : string → option string)
    (workId oid : string) (w : World) (f : Work.t) :
  castObjectId workId = Some oid → works (store w) !! oid = Some f →
  answers w = true →
  getStatus castObjectId workId w
  = (Ret (mkResponse 200
            [("success", JBool true);
             ("counts", JCounts (match Work.counts f with
                                 | Some c => c
                                 | None => Counts.mk 0 0 0
                                 end))]),
     mkWorld (store w) (tail (faults w))).
Proof.
  intros Hoid Hid Hans. rewrite (getStatus_cached _ _ oid _ f) by done.
  by destruct (Work.counts f).
Qed.

(** The stale store: the cached {5, 5, 5} is served for a list of one entry;
    and a record with one status entry and no counts is answered
    {0, 0, 0}, and stays as it is. *)
Lemma getStatus_serves_cache_witness :
  getStatus sample_cast wid9 (mkWorld stale_store [None; Some "down"])
  = (Ret (mkResponse 200 [("success", JBool true);
                          ("counts", JCounts (Counts.mk 5 5 5))]),
     mkWorld stale_store [Some "down"])
  ∧ getStatus sample_cast wid1
      (mkWorld (mkStore [] {[ wid1 := sample_uncounted ]} None) [])
    = (Ret (mkResponse 200 [("success", JBool true);
                            ("counts", JCounts (Counts.mk 0 0 0))]),
       mkWorld (mkStore [] {[ wid1 := sample_uncounted ]} None) []).
Proof.
  split.
  - apply (getStatus_serves_cache sample_cast wid9 wid9
             (mkWorld stale_store [None; Some "down"]) stale_work);
      vm_compute; reflexivity.
  - apply (getStatus_serves_cache sample_cast wid1 wid1
             (mkWorld (mkStore [] {[ wid1 := sample_uncounted ]} None) [])
             sample_uncounted);
      vm_compute; reflexivity.
Defined.

(** X9. Read after write: once a status upsert has answered 200, reading the
    counts of that assignment (the store answering) returns the number of
    entries of the stored status list in each of the three states. *)
Theorem getStatus_after_updateStatus (castObjectId : string → option string)
    (workId : string) (body : gmap string string)
    (now : Z) (w : World) (resp : Response) (w' : World) :
  updateStatus castObjectId workId body now w = (Ret resp, w') →
  statusCode resp = 200 →
  answers w' = true →
  ∃ oid f l,
    castObjectId workId = Some oid
    ∧ works (store w') !! oid = Some f ∧ Work.status f = Some l
    ∧ getStatus castObjectId workId w'
      = (Ret (mkResponse 200
                [("success", JBool true);
                 ("counts", JCounts (Counts.mk (length (filter isCompleted l))
                                               (length (filter isDoing l))
                                               (length (filter isRemaining l))))]),
         mkWorld (store w') (tail (faults w'))).
Proof.
  intros Hrun Hcode Hans.
  destruct (updateStatus_success _ _ _ _ _ _ _ Hrun Hcode)
    as (oid & f & Hoid & _ & _ & Hw').
  eexists oid, _, _. split; [done|].
  split; [rewrite Hw'; apply lookup_insert_eq|]. split; [reflexivity|].
  erewrite getStatus_cached; [|exact Hoid|rewrite Hw'; apply lookup_insert_eq|done].
  simpl. by rewrite recalcCounts_tallies.
Qed.

Lemma getStatus_after_updateStatus_witness :
  ∃ oid f l,
    sample_cast wid9 = Some oid
    ∧ works (store (updateStatus sample_cast wid9 sample_upsert 50
                      (mkWorld stale_store [])).2) !! oid = Some f
    ∧ Work.status f = Some l
    ∧ getStatus sample_cast wid9
        (updateStatus sample_cast wid9 sample_upsert 50 (mkWorld stale_store [])).2
      = (Ret (mkResponse 200
                [("success", JBool true);
                 ("counts", JCounts (Counts.mk (length (filter isCompleted l))
                                               (length (filter isDoing l))
                                               (length (filter isRemaining l))))]),
         mkWorld (store (updateStatus sample_cast wid9 sample_upsert 50
                           (mkWorld stale_store [])).2)
                 (tail (faults (updateStatus sample_cast wid9 sample_upsert 50
                                  (mkWorld stale_store [])).2))).
Proof.
  eapply (getStatus_after_updateStatus sample_cast wid9 sample_upsert 50
            (mkWorld stale_store [])).
  - vm_compute. reflexivity.
  - reflexivity.
  - reflexivity.
Defined.

(** ** Adding and deleting an assignment *)

Lemma truthy_str (v : option string) : truthy v = true → String.eqb (str v) "" = false.
Proof. destruct v as [s|]; [|done]. simpl. by destruct (String.eqb s ""). Qed.

Lemma Work_insert_fresh (castObjectId : string → option string)
    (d : Document Work.t) (s : Store) :
  validWork castObjectId (fields d) = true → works s !! _id d = None →
  Work_insert castObjectId d (mkWorld s []) = (Ret (), mkWorld (withWork s d) []).
Proof.
  intros Hv H. unfold Work_insert, storeCall. rewrite Hv. simpl. by rewrite H.
Qed.

(** A new assignment, made from three fields that are not empty, passes the
    validation. *)
Lemma validWork_new (castObjectId : string → option string)
    (body : gmap string string) (now : Z) :
  truthy (body !! "subject") = true → truthy (body !! "work") = true →
  truthy (body !! "deadline") = true →
  validWork castObjectId
    (Work.mk (str (body !! "subject")) (str (body !! "work"))
             (str (body !! "deadline")) (orString (body !! "addedBy") "Admin")
             (orString (body !! "fileUrl") "") now (Some [])
             (Some (Counts.mk 0 0 0))) = true.
Proof.
  intros Hs Hw Hd. unfold validWork. simpl.
  by rewrite !truthy_str by done.
Qed.

(** X10. Adding an assignment with its three required fields under an unused
    identifier, the store answering, stores one more record with the given
    fields, the defaults "Admin" and "" for a missing creator and file URL,
    an empty status list and counts {0, 0, 0}; the recomputed totals count
    one more assignment and keep the three sums. *)
Theorem addWork_creates (castObjectId : string → option string)
    (body : gmap string string) (newId : string) (now : Z)
    (us : list (Document User.t)) (ws : gmap string Work.t)
    (old : option WorkTotals.t) :
  truthy (body !! "subject") = true → truthy (body !! "work") = true →
  truthy (body !! "deadline") = true → ws !! newId = None →
  let f := Work.mk (str (body !! "subject")) (str (body !! "work"))
                   (str (body !! "deadline")) (orString (body !! "addedBy") "Admin")
                   (orString (body !! "fileUrl") "") now (Some [])
                   (Some (Counts.mk 0 0 0)) in
  let t := WorkTotals.mk (S (size ws)) (sumOver Counts.completed ws)
                         (sumOver Counts.doing ws)
                         (sumOver Counts.notYetStarted ws) now in
  addWork castObjectId body newId now (mkWorld (mkStore us ws old) [])
  = (Ret (mkResponse 200 [("success", JBool true); ("message", JStr "Work added");
                          ("newWork", JWork (mkDocument newId f));
                          ("totals", JTotals t)]),
     mkWorld (mkStore us (<[newId := f]> ws) (Some t)) []).
Proof.
  intros Hs Hw Hd Hid f t. unfold addWork, tryCatch.
  rewrite Hs, Hw, Hd. simpl.
  rewrite (bind_run _ _ _ () (mkWorld (mkStore us (<[newId := f]> ws) old) [])).
  - rewrite (bind_run _ _ _ _ _ (recomputeAndSaveGlobalTotals_run _ _ _ _)).
    assert (totalsOf (<[newId := f]> ws) now = t) as ->; [|done].
    unfold totalsOf, t.
    rewrite map_size_insert_None, !sumOver_insert_fresh by done. done.
  - apply (Work_insert_fresh castObjectId (mkDocument newId f) (mkStore us ws old));
      [|done].
    by apply validWork_new.
Qed.

Lemma addWork_creates_witness :
  addWork sample_cast
          (body_of [("subject", "Math"); ("work", "HW2"); ("deadline", "2024-05-05")])
          wid2 80 (mkWorld (mkStore [] {[ wid1 := sample_work ]} None) [])
  = (Ret (mkResponse 200
            [("success", JBool true); ("message", JStr "Work added");
             ("newWork", JWork (mkDocument wid2
                (Work.mk "Math" "HW2" "2024-05-05" "Admin" "" 80 (Some [])
                         (Some (Counts.mk 0 0 0)))));
             ("totals", JTotals (WorkTotals.mk 2 1 0 1 80))]),
     mkWorld (mkStore []
                (<[wid2 := Work.mk "Math" "HW2" "2024-05-05" "Admin" "" 80 (Some [])
                                   (Some (Counts.mk 0 0 0))]> {[ wid1 := sample_work ]})
                (Some (WorkTotals.mk 2 1 0 1 80))) []).
Proof.
  etransitivity.
  - apply (addWork_creates sample_cast
             (body_of [("subject", "Math"); ("work", "HW2"); ("deadline", "2024-05-05")])
             wid2 80 [] {[ wid1 := sample_work ]} None);
      vm_compute; reflexivity.
  - vm_compute. reflexivity.
Defined.



(** ** A failure after the write *)

Lemma recalcAndSaveWorkCounts_accepted (castObjectId : string → option string)
    (d : Document Work.t) (s : Store) (fs : list (option string)) :
  validWork castObjectId (fields d) = true →
  recalcAndSaveWorkCounts castObjectId (Some d) (mkWorld s (None :: fs)) =
  (Ret (Some (setCounts d (recalcCounts (Work.status (fields d))))),
   mkWorld (withWork s (setCounts d (recalcCounts (Work.status (fields d))))) fs).
Proof.
  intros Hv. unfold recalcAndSaveWorkCounts, bind, Work_save.
  change (validWork castObjectId (fields (setCounts d ?c)))
    with (validWork castObjectId (fields d)).
  by rewrite Hv.
Qed.

Lemma Work_insert_accepted (castObjectId : string → option string)
    (d : Document Work.t) (s : Store) (fs : list (option string)) :
  validWork castObjectId (fields d) = true → works s !! _id d = None →
  Work_insert castObjectId d (mkWorld s (None :: fs)) = (Ret (), mkWorld (withWork s d) fs).
Proof.
  intros Hv H. unfold Work_insert, storeCall. rewrite Hv. simpl. by rewrite H.
Qed.

(** X12. The write and the totals recomputation are separate calls: when the
    store takes the write (of a document that passes the validation) and
    then refuses the recomputation, a status upsert answers 500 although the
    new status list and counts are stored, and the WorkTotals record is left
    as it was; adding an assignment likewise answers 500 with the new record
    stored. *)
Theorem late_failure_keeps_write (castObjectId : string → option string) :
  (∀ (workId oid : string) (body : gmap string string) (now : Z)
     (us : list (Document User.t)) (ws : gmap string Work.t)
     (old : option WorkTotals.t) (f : Work.t)
     (err : string) (fs : list (option string)),
     truthy (body !! "userId") = true → truthy (body !! "username") = true →
     isValidState (body !! "state") = true →
     castObjectId workId = Some oid → ws !! oid = Some f →
     let l' := upsertStatus castObjectId (default [] (Work.status f))
                 (str (body !! "userId")) (str (body !! "username"))
                 (str (body !! "state")) now in
     let d' := setCounts (setStatus (mkDocument oid (hydrate f)) l')
                         (recalcCounts (Some l')) in
     validWork castObjectId (fields d') = true →
     updateStatus castObjectId workId body now
       (mkWorld (mkStore us ws old) (None :: None :: Some err :: fs))
     = (Ret (mkResponse 500 [("success", JBool false);
                             ("message", JStr "Failed to update status");
                             ("error", JStr err)]),
        mkWorld (mkStore us (<[oid := fields d']> ws) old) fs))
  ∧ (∀ (body : gmap string string) (newId : string) (now : Z)
       (us : list (Document User.t)) (ws : gmap string Work.t)
       (old : option WorkTotals.t) (err : string) (fs : list (option string)),
       truthy (body !! "subject") = true → truthy (body !! "work") = true →
       truthy (body !! "deadline") = true → ws !! newId = None →
       addWork castObjectId body newId now
         (mkWorld (mkStore us ws old) (None :: Some err :: fs))
       = (Ret (mkResponse 500 [("success", JBool false);
                               ("message", JStr "Failed to add work");
                               ("error", JStr err)]),
          mkWorld (mkStore us
                     (<[newId := Work.mk (str (body !! "subject")) (str (body !! "work"))
                                         (str (body !! "deadline"))
                                         (orString (body !! "addedBy") "Admin")
                                         (orString (body !! "fileUrl") "") now
                                         (Some []) (Some (Counts.mk 0 0 0))]> ws)
                     old) fs)).
Proof.
  split.
  - intros workId oid body now us ws old f err fs Hu Hn Hv Hoid Hid l' d' Hd'.
    unfold updateStatus, tryCatch. rewrite Hu, Hn, Hv, (isValidState_truthy _ Hv).
    cbn [negb orb].
    rewrite (bind_run _ _ _ (Some (mkDocument oid (hydrate f)))
               (mkWorld (mkStore us ws old) (None :: Some err :: fs)))
      by (unfold Work_findById, storeCall; rewrite Hoid; simpl; by rewrite Hid).
    cbn [fields hydrate Work.status]. fold l'.
    rewrite (bind_run _ _ _ _ _
               (recalcAndSaveWorkCounts_accepted castObjectId
                  (setStatus (mkDocument oid (hydrate f)) l') _ _ Hd')).
    reflexivity.
  - intros body newId now us ws old err fs Hs Hw Hd Hid.
    set (fs' := Some err :: fs).
    unfold addWork, tryCatch. rewrite Hs, Hw, Hd. cbn [negb orb].
    rewrite (bind_run _ _ _ ()
               (mkWorld (withWork (mkStore us ws old)
                  (mkDocument newId
                     (Work.mk (str (body !! "subject")) (str (body !! "work"))
                              (str (body !! "deadline"))
                              (orString (body !! "addedBy") "Admin")
                              (orString (body !! "fileUrl") "") now (Some [])
                              (Some (Counts.mk 0 0 0))))) fs')).
    + reflexivity.
    + apply Work_insert_accepted; [by apply validWork_new|done].
Qed.

Lemma late_failure_keeps_write_witness :
  updateStatus sample_cast wid9 sample_upsert 50
    (mkWorld stale_store [None; None; Some "down"])
  = (Ret (mkResponse 500 [("success", JBool false);
                          ("message", JStr "Failed to update status");
                          ("error", JStr "down")]),
     mkWorld (mkStore [] (<[wid9 := sample_upserted]> (works stale_store)) None) []).
Proof.
  etransitivity.
  - apply (proj1 (late_failure_keeps_write sample_cast) wid9 wid9 sample_upsert 50%Z []
             (works stale_store) None stale_work "down" []);
      vm_compute; reflexivity.
  - vm_compute. reflexivity.
Defined.

(** ** What the routes leave alone *)

Section Holds.

Variable castObjectId : string → option string.

Variable I : Store → Prop.

Lemma holds_ret {A} (a : A) : holds I (ret a) (λ _, True).
Proof. intros w Hw. done. Qed.

Lemma holds_throw {A} (err : string) : holds I (@throw A err) (λ _, True).
Proof. intros w Hw. done. Qed.

Lemma holds_bind {A B} (m : M A) (k : A → M B) :
  holds I m (λ _, True) → (∀ a, holds I (k a) (λ _, True)) →
  holds I (bind m k) (λ _, True).
Proof.
  intros Hm Hk w Hw. unfold bind.
  destruct (Hm w Hw) as [Hs _]. destruct (m w) as [[a|err] w']; simpl in *.
  - by apply (Hk a).
  - done.
Qed.

Lemma holds_tryCatch {A} (m : M A) (h : string → M A) :
  holds I m (λ _, True) → (∀ err, holds I (h err) (λ _, True)) →
  holds I (tryCatch m h) (λ _, True).
Proof.
  intros Hm Hh w Hw. unfold tryCatch.
  destruct (Hm w Hw) as [Hs _]. destruct (m w) as [[a|err] w']; simpl in *.
  - done.
  - by apply Hh.
Qed.

Lemma holds_storeCall {A} (op : Store → Outcome A * Store) :
  (∀ s, I s → I (op s).2) → holds I (storeCall op) (λ _, True).
Proof.
  intros Hop w Hw. unfold storeCall. specialize (Hop _ Hw).
  destruct (faults w) as [|[err|] fs]; simpl; [|done|];
    by destruct (op (store w)) as [o s].
Qed.

Lemma holds_promiseAll {A} (ms : list (M A)) :
  Forall (λ m, holds I m (λ _, True)) ms → holds I (promiseAll ms) (λ _, True).
Proof.
  induction 1 as [|m ms Hm _ IH]; intros w Hw; simpl; [done|].
  destruct (Hm w Hw) as [Hs _]. destruct (m w) as [o w1]. simpl in Hs.
  destruct (IH w1 Hs) as [Hs2 _]. destruct (promiseAll ms w1) as [os w2].
  simpl in Hs2. by destruct o, os.
Qed.

(** A property of the store that the Work and WorkTotals collections do not
    bear on is kept by every route that writes only those. *)
Hypothesis I_users_only : ∀ us ws t ws' t',
  I (mkStore us ws t) → I (mkStore us ws' t').

Lemma I_same_users (s s' : Store) : users s' = users s → I s → I s'.
Proof.
  destruct s as [us ws t], s' as [us' ws' t']. simpl. intros ->.
  apply I_users_only.
Qed.

Lemma holds_frame {A} (op : Store → Outcome A * Store) :
  (∀ s, users (op s).2 = users s) → holds I (storeCall op) (λ _, True).
Proof.
  intros Hop. apply holds_storeCall. intros s Hs.
  by apply (I_same_users s); [apply Hop|].
Qed.

Lemma holds_Work_findById (id : string) :
  holds I (Work_findById castObjectId id) (λ _, True).
Proof.
  unfold Work_findById. destruct (castObjectId id); [|apply holds_throw].
  by apply holds_frame.
Qed.

Lemma holds_recalcAndSaveWorkCounts (workDoc : option (Document Work.t)) :
  holds I (recalcAndSaveWorkCounts castObjectId workDoc) (λ _, True).
Proof.
  destruct workDoc as [d|]; [|apply holds_ret].
  apply holds_bind; [|intros _; apply holds_ret].
  unfold Work_save. destruct (validWork _ _); [|apply holds_throw].
  by apply holds_frame.
Qed.

Lemma holds_recomputeAndSaveGlobalTotals (now : Z) :
  holds I (recomputeAndSaveGlobalTotals now) (λ _, True).
Proof.
  apply holds_bind; [by apply holds_frame|]. intros agg.
  apply holds_bind; [by apply holds_frame|]. intros found.
  apply holds_bind; [by apply holds_frame|]. intros _. apply holds_ret.
Qed.

Lemma holds_work_routes
    (bcrypt_hash : string → nat → string)
    (bcrypt_compare : string → string → bool)
    (jwt_sign : TokenPayload → string → string → string)
    (JWT_SECRET : option string) (r : Request) :
  (∀ body newId, r ≠ PostRegister body newId) →
  holds I (handle castObjectId bcrypt_hash bcrypt_compare jwt_sign JWT_SECRET r)
        (λ _, True).
Proof.
  intros Hr.
  destruct r as [body newId|body|body newId t|id t|workId body t|workId| |t]; simpl.
  - by destruct (Hr body newId).
  - unfold login. apply holds_tryCatch; [|intros err; apply holds_ret].
    destruct (negb _ || negb _); [apply holds_ret|].
    apply holds_bind; [by apply holds_frame|]. intros [u|]; [|apply holds_ret].
    destruct (negb _); apply holds_ret.
  - unfold addWork. apply holds_tryCatch; [|intros err; apply holds_ret].
    destruct (negb _ || negb _ || negb _); [apply holds_ret|].
    apply holds_bind.
    + unfold Work_insert. destruct (validWork _ _); [|apply holds_throw].
      apply holds_frame. intros s. by destruct (works s !! _).
    + intros _. apply holds_bind; [apply holds_recomputeAndSaveGlobalTotals|].
      intros tt. apply holds_ret.
  - unfold deleteWork. apply holds_tryCatch; [|intros err; apply holds_ret].
    apply holds_bind.
    { unfold Work_findByIdAndDelete. destruct (castObjectId id); [|apply holds_throw].
      by apply holds_frame. }
    intros [d|]; [|apply holds_ret].
    apply holds_bind; [apply holds_recomputeAndSaveGlobalTotals|].
    intros tt. apply holds_ret.
  - unfold updateStatus. apply holds_tryCatch; [|intros err; apply holds_ret].
    destruct (negb _ || negb _ || negb _); [apply holds_ret|].
    destruct (negb (isValidState _)); [apply holds_ret|].
    apply holds_bind; [apply holds_Work_findById|]. intros [d|]; [|apply holds_ret].
    destruct (Work.status (fields d)); [|apply holds_throw].
    apply holds_bind; [apply holds_recalcAndSaveWorkCounts|]. intros saved.
    apply holds_bind; [apply holds_recomputeAndSaveGlobalTotals|].
    intros tt. apply holds_ret.
  - unfold getStatus. apply holds_tryCatch; [|intros err; apply holds_ret].
    apply holds_bind; [apply holds_Work_findById|]. intros [d|]; [|apply holds_ret].
    apply holds_bind; [|intros d1; apply holds_ret].
    destruct (Work.counts (fields d)); [apply holds_ret|].
    apply holds_bind; [apply holds_recalcAndSaveWorkCounts|].
    intros saved. apply holds_ret.
  - unfold getTotals. apply holds_tryCatch; [|intros err; apply holds_ret].
    apply holds_bind; [by apply holds_frame|]. intros tt. apply holds_ret.
  - unfold recomputeTotals. apply holds_tryCatch; [|intros err; apply holds_ret].
    apply holds_bind; [by apply holds_frame|]. intros allWorks.
    apply holds_bind.
    + apply holds_promiseAll. apply Forall_fmap, Forall_forall.
      intros d _. apply holds_recalcAndSaveWorkCounts.
    + intros _. apply holds_bind; [apply holds_recomputeAndSaveGlobalTotals|].
      intros tt. apply holds_ret.
Qed.

End Holds.

(** ** The users *)

Lemma find_none_email (email : string) (us : list (Document User.t)) :
  find (λ u, String.eqb (User.email (fields u)) email) us = None →
  ∀ v, v ∈ us → User.email (fields v) ≠ email.
Proof.
  intros Hfind v Hv. induction Hv as [v us|v u us _ IH]; simpl in Hfind.
  - by destruct (String.eqb_spec (User.email (fields v)) email).
  - destruct (String.eqb (User.email (fields u)) email); [done|by apply IH].
Qed.

Lemma find_fresh_email (email : string) (us : list (Document User.t)) :
  (∀ v, v ∈ us → User.email (fields v) ≠ email) →
  find (λ u, String.eqb (User.email (fields u)) email) us = None.
Proof.
  intros H. induction us as [|u us IH]; [done|]. simpl.
  destruct (String.eqb_spec (User.email (fields u)) email) as [He|He].
  - destruct (H u); [apply list_elem_of_here|done].
  - apply IH. intros v Hv. apply H. by apply list_elem_of_further.
Qed.

(** What one registration request does to the store. *)
Lemma register_step (bcrypt_hash : string → nat → string)
    (body : gmap string string) (newId : string) (w : World) :
  works (store (register bcrypt_hash body newId w).2) = works (store w)
  ∧ totals (store (register bcrypt_hash body newId w).2) = totals (store w)
  ∧ (users (store (register bcrypt_hash body newId w).2) = users (store w)
     ∨ ∃ u, users (store (register bcrypt_hash body newId w).2) = users (store w) ++ [u]
            ∧ (∀ v, v ∈ users (store w) → User.email (fields v) ≠ User.email (fields u))
            ∧ User.isad (fields u) = false
            ∧ User.password (fields u) = bcrypt_hash (User.pb (fields u)) 10).
Proof.
  destruct w as [[us ws t] fs].
  unfold register, tryCatch, bind, User_findOne, User_save, storeCall, caught, ret.
  simpl. destruct (negb _ || negb _); simpl; [by auto|].
  destruct (find _ us) as [u|] eqn:Hfind.
  - destruct fs as [|[e1|] fs]; simpl; by auto.
  - pose proof (find_none_email _ _ Hfind) as Hfresh.
    destruct fs as [|[e1|] [|[e2|] fs]]; simpl; try by auto.
    + split; [done|]. split; [done|]. right. eexists. split; [done|]. done.
    + split; [done|]. split; [done|]. right. eexists. split; [done|]. done.
    + split; [done|]. split; [done|]. right. eexists. split; [done|]. done.
Qed.

Lemma login_step (bcrypt_compare : string → string → bool)
    (jwt_sign : TokenPayload → string → string → string)
    (JWT_SECRET : option string) (body : gmap string string) (w : World) :
  store (login bcrypt_compare jwt_sign JWT_SECRET body w).2 = store w.
Proof.
  destruct w as [s fs].
  unfold login, tryCatch, bind, User_findOne, storeCall, caught, ret. simpl.
  destruct (negb _ || negb _); simpl; [done|].
  destruct fs as [|[e1|] fs]; simpl; try done;
    destruct (find _ (users s)) as [u|]; simpl; try done;
    by destruct (negb _).
Qed.

(** X13. The routes keep to their collections: registration and login never
    change an assignment or the totals (login changes nothing at all), and no
    route of the work tracker changes the users, whatever the store
    answers. *)
Theorem routes_keep_to_their_collections
    (castObjectId : string → option string)
    (bcrypt_hash : string → nat → string)
    (bcrypt_compare : string → string → bool)
    (jwt_sign : TokenPayload → string → string → string)
    (JWT_SECRET : option string) (r : Request) (w : World) :
  let w' := (handle castObjectId bcrypt_hash bcrypt_compare jwt_sign JWT_SECRET r w).2 in
  match r with
  | PostRegister _ _ =>
      works (store w') = works (store w) ∧ totals (store w') = totals (store w)
  | PostLogin _ => store w' = store w
  | _ => users (store w') = users (store w)
  end.
Proof.
  intros w'. subst w'.
  assert (∀ r', (∀ body newId, r' ≠ PostRegister body newId) →
            users (store (handle castObjectId bcrypt_hash bcrypt_compare jwt_sign
                            JWT_SECRET r' w).2)
            = users (store w)) as Hframe.
  { intros r' Hr'.
    apply (holds_work_routes castObjectId (λ s, users s = users (store w))); try done. }
  destruct r as [body newId|body|body newId t|id t|workId body t|workId| |t];
    try (by apply Hframe).
  - simpl. destruct (register_step bcrypt_hash body newId w) as (Hw & Ht & _). done.
  - simpl. apply login_step.
Qed.

Lemma handle_users_step
    (castObjectId : string → option string)
    (bcrypt_hash : string → nat → string)
    (bcrypt_compare : string → string → bool)
    (jwt_sign : TokenPayload → string → string → string)
    (JWT_SECRET : option string) (r : Request) (w : World) :
  let w' := (handle castObjectId bcrypt_hash bcrypt_compare jwt_sign JWT_SECRET r w).2 in
  users (store w') = users (store w)
  ∨ ∃ u, users (store w') = users (store w) ++ [u]
         ∧ (∀ v, v ∈ users (store w) → User.email (fields v) ≠ User.email (fields u))
         ∧ User.isad (fields u) = false
         ∧ User.password (fields u) = bcrypt_hash (User.pb (fields u)) 10.
Proof.
  intros w'. subst w'.
  destruct r as [body newId|body|body newId t|id t|workId body t|workId| |t];
    try (left; apply (holds_work_routes castObjectId (λ s, users s = users (store w))); done).
  simpl. apply register_step.
Qed.

(** X14. Users are only ever added: after any sequence of requests the users
    that were in the store are still there, unchanged and in place, followed
    by the registered ones; and every user the server has added is not an
    administrator and holds, beside the hash of the password, the password
    itself. *)
Theorem users_only_grow
    (castObjectId : string → option string)
    (bcrypt_hash : string → nat → string)
    (bcrypt_compare : string → string → bool)
    (jwt_sign : TokenPayload → string → string → string)
    (JWT_SECRET : option string) (rs : list Request) (w : World) :
  ∃ new,
    users (store (serve castObjectId bcrypt_hash bcrypt_compare jwt_sign JWT_SECRET rs w))
    = users (store w) ++ new
    ∧ Forall (λ u, User.isad (fields u) = false
                   ∧ User.password (fields u) = bcrypt_hash (User.pb (fields u)) 10)
             new.
Proof.
  revert w. induction rs as [|r rs IH]; intros w.
  - exists []. split; [by rewrite app_nil_r|done].
  - simpl.
    destruct (IH (handle castObjectId bcrypt_hash bcrypt_compare jwt_sign JWT_SECRET
                    r w).2) as (new & Hnew & Hall).
    destruct (handle_users_step castObjectId bcrypt_hash bcrypt_compare jwt_sign
                JWT_SECRET r w) as [Hsame|(u & Hadd & _ & Hisad & Hpw)].
    + exists new. by rewrite Hnew, Hsame.
    + exists (u :: new). split.
      * rewrite Hnew, Hadd. by rewrite <- app_assoc.
      * by constructor.
Qed.

(** X15. No two users share an email: in a store where the emails are
    distinct they are still distinct after any sequence of requests, whatever
    the store answers. *)
Theorem emails_stay_distinct
    (castObjectId : string → option string)
    (bcrypt_hash : string → nat → string)
    (bcrypt_compare : string → string → bool)
    (jwt_sign : TokenPayload → string → string → string)
    (JWT_SECRET : option string) (rs : list Request) (w : World) :
  NoDup (emails (users (store w))) →
  NoDup (emails (users (store (serve castObjectId bcrypt_hash bcrypt_compare jwt_sign
                                 JWT_SECRET rs w)))).
Proof.
  revert w. induction rs as [|r rs IH]; intros w Hw; [done|].
  simpl. apply IH.
  destruct (handle_users_step castObjectId bcrypt_hash bcrypt_compare jwt_sign
              JWT_SECRET r w) as [Hsame|(u & Hadd & Hfresh & _)].
  - by rewrite Hsame.
  - rewrite Hadd. unfold emails. rewrite fmap_app. apply NoDup_app.
    split; [done|]. split; [|apply NoDup_singleton].
    intros e He Hu. apply list_elem_of_singleton in Hu. subst e.
    apply list_elem_of_fmap in He as (v & Hv & Hin).
    by apply (Hfresh v Hin).
Qed.

Lemma emails_stay_distinct_witness :
  NoDup (emails (users (store (serve sample_cast sample_hash sample_compare sample_sign None
    [PostRegister (body_of [("email", "bob@example.com"); ("password", "pw")]) uid2;
     PostRegister (body_of [("email", "ann@example.com"); ("password", "pw")]) uid3;
     PostRegister (body_of [("email", "bob@example.com"); ("password", "xy")]) uid4]
    (mkWorld sample_user_store []))))).
Proof.
  apply emails_stay_distinct. vm_compute. apply NoDup_singleton.
Defined.

(** ** Registration and login *)

Lemma find_last_email (email : string) (us : list (Document User.t))
    (u : Document User.t) :
  (∀ v, v ∈ us → User.email (fields v) ≠ email) → User.email (fields u) = email →
  find (λ u, String.eqb (User.email (fields u)) email) (us ++ [u]) = Some u.
Proof.
  intros Hfresh Hu. induction us as [|h us IH]; simpl.
  - by rewrite Hu, String.eqb_refl.
  - destruct (String.eqb_spec (User.email (fields h)) email) as [He|He].
    + destruct (Hfresh h); [apply list_elem_of_here|done].
    + apply IH. intros v Hv. apply Hfresh. by apply list_elem_of_further.
Qed.

Lemma find_unique_email (us : list (Document User.t)) (u : Document User.t) :
  NoDup (emails us) → u ∈ us →
  find (λ v, String.eqb (User.email (fields v)) (User.email (fields u))) us = Some u.
Proof.
  intros Hnd Hu. induction us as [|h us IH]; [by apply elem_of_nil in Hu|].
  unfold emails in Hnd. rewrite fmap_cons in Hnd.
  apply NoDup_cons in Hnd as [Hh Hnd]. simpl.
  apply elem_of_cons in Hu as [->|Hu].
  - by rewrite String.eqb_refl.
  - destruct (String.eqb_spec (User.email (fields h)) (User.email (fields u))) as [He|He].
    + destruct Hh. rewrite He. apply list_elem_of_fmap. by exists u.
    + by apply IH.
Qed.

(** The registration of a new email, when the store answers. *)
Lemma register_run (bcrypt_hash : string → nat → string) (body : gmap string string)
    (newId : string) (us : list (Document User.t)) (ws : gmap string Work.t)
    (t : option WorkTotals.t) :
  truthy (body !! "email") = true → truthy (body !! "password") = true →
  (∀ v, v ∈ us → User.email (fields v) ≠ str (body !! "email")) →
  register bcrypt_hash body newId (mkWorld (mkStore us ws t) [])
  = (Ret (mkResponse 201 [("success", JBool true); ("message", JStr "User registered")]),
     mkWorld (mkStore (us ++ [mkDocument newId
                                (User.mk (str (body !! "email"))
                                         (bcrypt_hash (str (body !! "password")) 10)
                                         (body !! "name") (str (body !! "password"))
                                         false)])
                      ws t) []).
Proof.
  intros He Hp Hfresh.
  unfold register, tryCatch, bind, User_findOne, User_save, storeCall, ret.
  rewrite He, Hp. simpl. by rewrite (find_fresh_email _ _ Hfresh).
Qed.

(** X16. Registering an email that no user has, with a password, the store
    answering, answers 201 and appends one user: the email, the hash of the
    password, the name if one was given, the password itself, no
    administrator flag. A second registration with that email then answers
    400 "Email already exists" and adds nothing. *)
Theorem register_creates (bcrypt_hash : string → nat → string)
    (body : gmap string string) (newId : string) (us : list (Document User.t))
    (ws : gmap string Work.t) (t : option WorkTotals.t) :
  truthy (body !! "email") = true → truthy (body !! "password") = true →
  (∀ v, v ∈ us → User.email (fields v) ≠ str (body !! "email")) →
  let u := mkDocument newId
             (User.mk (str (body !! "email")) (bcrypt_hash (str (body !! "password")) 10)
                      (body !! "name") (str (body !! "password")) false) in
  let w' := mkWorld (mkStore (us ++ [u]) ws t) [] in
  register bcrypt_hash body newId (mkWorld (mkStore us ws t) [])
  = (Ret (mkResponse 201 [("success", JBool true); ("message", JStr "User registered")]),
     w')
  ∧ ∀ body' newId',
      body' !! "email" = body !! "email" → truthy (body' !! "password") = true →
      register bcrypt_hash body' newId' w'
      = (Ret (mkResponse 400 [("message", JStr "Email already exists")]), w').
Proof.
  intros He Hp Hfresh u w'. split; [by apply register_run|].
  intros body' newId' Hsame Hp'.
  unfold register, tryCatch, bind, User_findOne, storeCall, ret.
  rewrite Hsame, He, Hp'. simpl.
  by rewrite (find_last_email _ us u Hfresh eq_refl).
Qed.

Lemma register_creates_witness :
  register sample_hash (body_of [("email", "bob@example.com"); ("password", "pw")]) uid2
           (mkWorld sample_user_store [])
  = (Ret (mkResponse 201 [("success", JBool true); ("message", JStr "User registered")]),
     mkWorld (mkStore [sample_user;
                       mkDocument uid2 (User.mk "bob@example.com" "hashed:pw" None "pw"
                                                false)]
                      ∅ None) []).
Proof.
  etransitivity.
  - apply (register_creates sample_hash
             (body_of [("email", "bob@example.com"); ("password", "pw")]) uid2
             [sample_user] ∅ None).
    + vm_compute. reflexivity.
    + vm_compute. reflexivity.
    + intros v Hv. apply list_elem_of_singleton in Hv. subst v. vm_compute. discriminate.
  - vm_compute. reflexivity.
Defined.

(** X17. Login, the store answering: an email that no user has and a password
    that does not match the stored hash get the same answer, 401 "Invalid
    credentials" with no token; a matching password gets 200 with the token
    that signs the user's id, email, name and administrator flag for one day,
    under the configured secret, or "supersecret" when none is configured.
    The store is never written. *)
Theorem login_outcomes
    (bcrypt_compare : string → string → bool)
    (jwt_sign : TokenPayload → string → string → string)
    (JWT_SECRET : option string) (body : gmap string string) (w : World) :
  truthy (body !! "email") = true → truthy (body !! "password") = true →
  answers w = true →
  let w' := mkWorld (store w) (tail (faults w)) in
  let denied := mkResponse 401 [("message", JStr "Invalid credentials")] in
  ((∀ v, v ∈ users (store w) → User.email (fields v) ≠ str (body !! "email")) →
   login bcrypt_compare jwt_sign JWT_SECRET body w = (Ret denied, w'))
  ∧ (∀ u, NoDup (emails (users (store w))) → u ∈ users (store w) →
          User.email (fields u) = str (body !! "email") →
          login bcrypt_compare jwt_sign JWT_SECRET body w
          = (Ret (if bcrypt_compare (str (body !! "password")) (User.password (fields u))
                  then mkResponse 200
                         [("success", JBool true);
                          ("token",
                           JStr (jwt_sign
                                   (mkTokenPayload (_id u) (User.email (fields u))
                                                   (User.name (fields u))
                                                   (User.isad (fields u)))
                                   (orString JWT_SECRET "supersecret") "1d"))]
                  else denied), w')).
Proof.
  intros He Hp Hans w' denied. subst w' denied. unfold answers in Hans. split.
  - intros Hfresh.
    unfold login, tryCatch, bind, User_findOne, storeCall, ret.
    rewrite He, Hp. simpl. rewrite (find_fresh_email _ _ Hfresh).
    by destruct (faults w) as [|[err|] fs].
  - intros u Hnd Hu Hemail.
    unfold login, tryCatch, bind, User_findOne, storeCall, ret.
    rewrite He, Hp. simpl. rewrite <- Hemail, (find_unique_email _ _ Hnd Hu).
    destruct (faults w) as [|[err|] fs]; try done;
      by destruct (bcrypt_compare _ _).
Qed.

Lemma login_outcomes_witness :
  login sample_compare sample_sign None
        (body_of [("email", "ann@example.com"); ("password", "guess")])
        (mkWorld sample_user_store [None; Some "down"])
  = (Ret (mkResponse 401 [("message", JStr "Invalid credentials")]),
     mkWorld sample_user_store [Some "down"])
  ∧ login sample_compare sample_sign None
          (body_of [("email", "zed@example.com"); ("password", "guess")])
          (mkWorld sample_user_store [None; Some "down"])
    = (Ret (mkResponse 401 [("message", JStr "Invalid credentials")]),
       mkWorld sample_user_store [Some "down"]).
Proof.
  split.
  - pose proof (login_outcomes sample_compare sample_sign None
                  (body_of [("email", "ann@example.com"); ("password", "guess")])
                  (mkWorld sample_user_store [None; Some "down"])) as H.
    destruct H as [_ H]; [reflexivity|reflexivity|reflexivity|].
    etransitivity.
    + apply (H sample_user).
      * vm_compute. apply NoDup_singleton.
      * apply list_elem_of_here.
      * reflexivity.
    + reflexivity.
  - pose proof (login_outcomes sample_compare sample_sign None
                  (body_of [("email", "zed@example.com"); ("password", "guess")])
                  (mkWorld sample_user_store [None; Some "down"])) as H.
    destruct H as [H _]; [reflexivity|reflexivity|reflexivity|].
    apply H. intros v Hv. apply list_elem_of_singleton in Hv. subst v.
    vm_compute. discriminate.
Defined.

(** X18. Registration then login: when the password check accepts every
    password against its own hash, a user who registered a new email can log
    in with the same email and password, and the token carries the identifier
    given at registration and no administrator flag. *)
Theorem register_then_login
    (bcrypt_hash : string → nat → string)
    (bcrypt_compare : string → string → bool)
    (jwt_sign : TokenPayload → string → string → string)
    (JWT_SECRET : option string) (body : gmap string string) (newId : string)
    (us : list (Document User.t)) (ws : gmap string Work.t)
    (t : option WorkTotals.t) :
  (∀ p, bcrypt_compare p (bcrypt_hash p 10) = true) →
  truthy (body !! "email") = true → truthy (body !! "password") = true →
  (∀ v, v ∈ us → User.email (fields v) ≠ str (body !! "email")) →
  let w1 := (register bcrypt_hash body newId (mkWorld (mkStore us ws t) [])).2 in
  login bcrypt_compare jwt_sign JWT_SECRET body w1
  = (Ret (mkResponse 200
            [("success", JBool true);
             ("token",
              JStr (jwt_sign (mkTokenPayload newId (str (body !! "email"))
                                             (body !! "name") false)
                             (orString JWT_SECRET "supersecret") "1d"))]),
     w1).
Proof.
  intros Hlib He Hp Hfresh w1. subst w1.
  rewrite register_run by done. simpl.
  unfold login, tryCatch, bind, User_findOne, storeCall, ret.
  rewrite He, Hp. simpl.
  erewrite find_last_email; [|exact Hfresh|reflexivity]. simpl.
  by rewrite Hlib.
Qed.

Lemma register_then_login_witness :
  login sample_compare sample_sign None
        (body_of [("email", "bob@example.com"); ("password", "pw")])
        (register sample_hash (body_of [("email", "bob@example.com"); ("password", "pw")])
                  uid2 (mkWorld sample_user_store [])).2
  = (Ret (mkResponse 200 [("success", JBool true);
                          ("token", JStr "65c0de00aa11bb22cc33dd02.supersecret")]),
     (register sample_hash (body_of [("email", "bob@example.com"); ("password", "pw")])
               uid2 (mkWorld sample_user_store [])).2).
Proof.
  etransitivity.
  - apply (register_then_login sample_hash sample_compare sample_sign None
             (body_of [("email", "bob@example.com"); ("password", "pw")]) uid2
             [sample_user] ∅ None).
    + intros p. unfold sample_compare, sample_hash. apply String.eqb_refl.
    + vm_compute. reflexivity.
    + vm_compute. reflexivity.
    + intros v Hv. apply list_elem_of_singleton in Hv. subst v. vm_compute. discriminate.
  - vm_compute. reflexivity.
Defined.

(** ** The shape of the responses *)

Ltac wellFormed_literal :=
  unfold wellFormed, isError, hasMessage, hasSuccess; simpl;
  repeat split; intros; try done; try lia;
  repeat split; try reflexivity; try (eexists; reflexivity).

Lemma wellFormed_caught (ok : Work.t → Prop) (auth : bool) (message err : string) :
  keeps ok (caught message err) (wellFormed auth).
Proof. apply keeps_ret. wellFormed_literal. Qed.

(** X19. Every request is answered, and the answer has a status among 200,
    201, 400, 401, 404 and 500; an error answer carries a message, an answer
    below 400 carries success true, an answer 500 carries success false and
    the text of what was thrown; and on every route of the work tracker the
    answer carries a boolean success. *)
Theorem responses_well_formed
    (castObjectId : string → option string)
    (bcrypt_hash : string → nat → string)
    (bcrypt_compare : string → string → bool)
    (jwt_sign : TokenPayload → string → string → string)
    (JWT_SECRET : option string) (r : Request) (w : World) :
  ∃ resp,
    (handle castObjectId bcrypt_hash bcrypt_compare jwt_sign JWT_SECRET r w).1 = Ret resp
    ∧ wellFormed (isAuthRoute r) resp.
Proof.
  assert (keeps (λ _, True)
                (handle castObjectId bcrypt_hash bcrypt_compare jwt_sign JWT_SECRET r)
                (wellFormed (isAuthRoute r))) as Hk.
  { destruct r as [body newId|body|body newId t|id t|workId body t|workId| |t]; simpl.
    - unfold register. apply keeps_tryCatch; [|intros err; apply wellFormed_caught].
      destruct (negb _ || negb _); [apply keeps_ret; wellFormed_literal|].
      eapply keeps_bind; [apply returns_any|]. intros [u|] _.
      + apply keeps_ret; wellFormed_literal.
      + eapply keeps_bind; [apply returns_any|]. intros _ _.
        apply keeps_ret; wellFormed_literal.
    - unfold login. apply keeps_tryCatch; [|intros err; apply wellFormed_caught].
      destruct (negb _ || negb _); [apply keeps_ret; wellFormed_literal|].
      eapply keeps_bind; [apply returns_any|]. intros [u|] _.
      + destruct (negb _); apply keeps_ret; wellFormed_literal.
      + apply keeps_ret; wellFormed_literal.
    - unfold addWork. apply keeps_tryCatch; [|intros err; apply wellFormed_caught].
      destruct (negb _ || negb _ || negb _); [apply keeps_ret; wellFormed_literal|].
      eapply keeps_bind; [apply returns_any|]. intros _ _.
      eapply keeps_bind; [apply returns_any|]. intros tt _.
      apply keeps_ret; wellFormed_literal.
    - unfold deleteWork. apply keeps_tryCatch; [|intros err; apply wellFormed_caught].
      eapply keeps_bind; [apply returns_any|]. intros [d|] _.
      + eapply keeps_bind; [apply returns_any|]. intros tt _.
        apply keeps_ret; wellFormed_literal.
      + apply keeps_ret; wellFormed_literal.
    - unfold updateStatus. apply keeps_tryCatch; [|intros err; apply wellFormed_caught].
      destruct (negb _ || negb _ || negb _); [apply keeps_ret; wellFormed_literal|].
      destruct (negb (isValidState _)); [apply keeps_ret; wellFormed_literal|].
      eapply keeps_bind; [apply returns_any|]. intros [d|] _.
      + destruct (Work.status (fields d)); [|apply keeps_throw].
        eapply keeps_bind; [apply returns_any|]. intros saved _.
        eapply keeps_bind; [apply returns_any|]. intros tt _.
        apply keeps_ret; wellFormed_literal.
      + apply keeps_ret; wellFormed_literal.
    - unfold getStatus. apply keeps_tryCatch; [|intros err; apply wellFormed_caught].
      eapply keeps_bind; [apply returns_any|]. intros [d|] _.
      + eapply keeps_bind; [apply returns_any|]. intros d1 _.
        apply keeps_ret; wellFormed_literal.
      + apply keeps_ret; wellFormed_literal.
    - unfold getTotals. apply keeps_tryCatch; [|intros err; apply wellFormed_caught].
      eapply keeps_bind; [apply returns_any|]. intros tt _.
      apply keeps_ret; wellFormed_literal.
    - unfold recomputeTotals. apply keeps_tryCatch; [|intros err; apply wellFormed_caught].
      eapply keeps_bind; [apply returns_any|]. intros allWorks _.
      eapply keeps_bind; [apply returns_any|]. intros _ _.
      eapply keeps_bind; [apply returns_any|]. intros tt _.
      apply keeps_ret; wellFormed_literal. }
  assert (∃ resp,
            (handle castObjectId bcrypt_hash bcrypt_compare jwt_sign JWT_SECRET r w).1
            = Ret resp)
    as [resp Hresp] by (destruct r; apply tryCatch_caught_returns).
  exists resp. split; [done|].
  apply (Hk w); [|done]. intros i x _. done.
Qed.
(** ** The forced recompute as a repair *)

Lemma validWork_recomputed (castObjectId : string → option string) (f : Work.t) :
  validWork castObjectId (recomputed f) = validWork castObjectId f.
Proof. unfold validWork. simpl. by destruct (Work.status f). Qed.

Lemma statusEntries_recomputed (ws : gmap string Work.t) :
  statusEntries (recomputed <$> ws) = statusEntries ws.
Proof.
  unfold statusEntries. rewrite map_to_list_fmap.
  generalize (map_to_list ws). intros l.
  induction l as [|[k f] l IH]; [done|].
  rewrite fmap_cons. cbn [sum_list_with]. rewrite IH. simpl.
  by destruct (Work.status f).
Qed.

Lemma countsOk_recomputed (ws : gmap string Work.t) (id : string) (f : Work.t) :
  (recomputed <$> ws) !! id = Some f → countsOk f.
Proof.
  rewrite lookup_fmap. destruct (ws !! id) as [g|]; [|done].
  intros [= <-]. eexists. split; [done|]. apply recalcCounts_sum.
Qed.

(** A [Promise.all] that resolved: each of its computations returned. *)
Lemma promiseAll_Ret {A} (m : M A) (ms : list (M A)) (w : World) (rs : list A)
    (w' : World) :
  promiseAll (m :: ms) w = (Ret rs, w') →
  ∃ a l w1, m w = (Ret a, w1) ∧ promiseAll ms w1 = (Ret l, w') ∧ rs = a :: l.
Proof.
  cbn [promiseAll]. destruct (m w) as [o w1].
  destruct (promiseAll ms w1) as [os w2] eqn:Hrest.
  destruct o as [a|err], os as [l|err']; try done.
  intros [= <- <-]. by exists a, l, w1.
Qed.

Lemma promiseAll_recalc_Ret (castObjectId : string → option string)
    (l : list (string * Work.t)) (w : World) (rs : list (option (Document Work.t)))
    (w' : World) :
  promiseAll (map (λ d, recalcAndSaveWorkCounts castObjectId (Some d))
                  ((λ kv, mkDocument kv.1 (hydrate kv.2)) <$> l)) w = (Ret rs, w') →
  Forall (λ kv, validWork castObjectId kv.2 = true) l
  ∧ store w'
    = mkStore (users (store w))
              (foldl (λ m kv, <[kv.1 := recomputed kv.2]> m) (works (store w)) l)
              (totals (store w)).
Proof.
  revert w rs. induction l as [|[k f] l IH]; intros w rs Hrun.
  - injection Hrun as _ <-. split; [done|]. by destruct (store w).
  - rewrite fmap_cons in Hrun.
    change (map ?g (?x :: ?r)) with (g x :: map g r) in Hrun.
    apply promiseAll_Ret in Hrun as (a & rs' & w1 & Hone & Hrest & _).
    apply recalcAndSaveWorkCounts_Ret in Hone as (Hv & _ & Hs1).
    simpl in Hv. rewrite validWork_hydrate in Hv.
    apply IH in Hrest as [Hl Hs']. split; [by constructor|].
    rewrite Hs', Hs1. done.
Qed.

(** What a forced recompute that answered 200 has done. *)
Lemma recomputeTotals_Ret (castObjectId : string → option string) (now : Z)
    (w : World) (resp : Response) (w' : World) :
  recomputeTotals castObjectId now w = (Ret resp, w') → statusCode resp = 200 →
  map_Forall (λ _ f, validWork castObjectId f = true) (works (store w))
  ∧ store w'
    = mkStore (users (store w)) (recomputed <$> works (store w))
              (Some (totalsOf (recomputed <$> works (store w)) now)).
Proof.
  intros Hrun Hcode. unfold recomputeTotals in Hrun.
  apply tryCatch_caught_Ret in Hrun; [|by rewrite Hcode].
  apply bind_Ret in Hrun as (allWorks & w1 & Hfind & Hrun).
  apply storeCall_Ret in Hfind. injection Hfind as <- Hs1.
  apply bind_Ret in Hrun as (rs & w2 & Hall & Hrun).
  apply promiseAll_recalc_Ret in Hall as [Hv Hs2].
  rewrite <- Hs1, foldl_insert_all in Hs2.
  apply recompute_then_respond in Hrun as [_ Hs3].
  split.
  - apply map_Forall_to_list. eapply Forall_impl; [exact Hv|]. by intros [k f].
  - rewrite Hs3, Hs2. done.
Qed.

(** X20. The forced recompute repairs the caches: whenever it answers 200,
    whatever counts and totals were stored and whatever the store refused
    before, every assignment's counts add up to the length of its status
    list, the status lists are as they were (an absent one is now empty),
    and the three global sums together are the number of status entries; a
    second forced recompute at the same time, the store answering, changes
    nothing. *)
Theorem recomputeTotals_repairs (castObjectId : string → option string) (now : Z)
    (w : World) (resp : Response) (w' : World) :
  recomputeTotals castObjectId now w = (Ret resp, w') → statusCode resp = 200 →
  (∀ id f, works (store w') !! id = Some f → countsOk f)
  ∧ (∀ id, default [] ∘ Work.status <$> works (store w') !! id
           = default [] ∘ Work.status <$> works (store w) !! id)
  ∧ (∃ t, totals (store w') = Some t
          ∧ WorkTotals.completed t + WorkTotals.doing t + WorkTotals.notYetStarted t
            = statusEntries (works (store w)))
  ∧ (faults w' = [] → (recomputeTotals castObjectId now w').2 = w').
Proof.
  intros Hrun Hcode.
  destruct (recomputeTotals_Ret _ _ _ _ _ Hrun Hcode) as [Hv Hs].
  rewrite Hs. cbn [works totals users].
  split; [apply countsOk_recomputed|]. split; [|split].
  - intros id. rewrite lookup_fmap. by destruct (works (store w) !! id).
  - eexists. split; [done|]. simpl.
    rewrite <- (statusEntries_recomputed (works (store w))).
    assert (storeOk countsOk (mkStore [] (recomputed <$> works (store w)) None)) as Hok
      by (intros id f; apply countsOk_recomputed).
    exact (sums_are_entries _ Hok).
  - intros Hfs. destruct w' as [s' fs']. simpl in Hfs, Hs. subst fs' s'.
    rewrite recomputeTotals_run.
    + simpl. rewrite <- map_fmap_compose.
      by rewrite (map_fmap_ext (recomputed ∘ recomputed) recomputed) by done.
    + intros id f Hf. rewrite lookup_fmap in Hf.
      destruct (works (store w) !! id) as [g|] eqn:Hg; [|done].
      injection Hf as <-. rewrite validWork_recomputed. by apply (Hv id g).
Qed.

(** The stale store, whose first call is refused elsewhere: the counts
    {5, 5, 5} become {0, 1, 0}, and the sums together are the one entry. *)
Lemma recomputeTotals_repairs_witness :
  (∀ id f,
     works (store (recomputeTotals sample_cast 60 (mkWorld stale_store [])).2) !! id
     = Some f → countsOk f)
  ∧ works (store (recomputeTotals sample_cast 60 (mkWorld stale_store [])).2) !! wid9
    = Some (Work.mk "Physics" "Lab" "2024-02-02" "Admin" "" 5
                    (Some [StatusEntry.mk (Some uid1) "Ann" "doing" 6])
                    (Some (Counts.mk 0 1 0)))
  ∧ (∃ t, totals (store (recomputeTotals sample_cast 60 (mkWorld stale_store [])).2)
          = Some t
          ∧ WorkTotals.completed t + WorkTotals.doing t + WorkTotals.notYetStarted t
            = 1).
Proof.
  destruct (recomputeTotals_repairs sample_cast 60 (mkWorld stale_store [])
              (mkResponse 200 [("success", JBool true);
                               ("message", JStr "Recomputed totals");
                               ("totals", JTotals (WorkTotals.mk 1 0 1 0 60))])
              (recomputeTotals sample_cast 60 (mkWorld stale_store [])).2)
    as (H1 & _ & (t & Ht & Hsum) & _).
  - vm_compute. reflexivity.
  - reflexivity.
  - split; [exact H1|]. split; [vm_compute; reflexivity|].
    exists t. split; [exact Ht|]. rewrite Hsum. vm_compute. reflexivity.
Defined.

(** ** The counts as a function of the list *)

(** X21. The counts depend on the states only, not on the order of the
    entries: two status lists that are permutations of each other have the
    same counts, and the counts of two lists put together are the sums of
    their counts. *)
Theorem recalcCounts_order_and_append (l1 l2 : list StatusEntry.t) :
  (l1 ≡ₚ l2 → recalcCounts (Some l1) = recalcCounts (Some l2))
  ∧ recalcCounts (Some (l1 ++ l2))
    = Counts.mk
        (Counts.completed (recalcCounts (Some l1))
         + Counts.completed (recalcCounts (Some l2)))
        (Counts.doing (recalcCounts (Some l1)) + Counts.doing (recalcCounts (Some l2)))
        (Counts.notYetStarted (recalcCounts (Some l1))
         + Counts.notYetStarted (recalcCounts (Some l2))).
Proof.
  split.
  - intros Hp. rewrite !recalcCounts_tallies. simpl. by rewrite Hp.
  - rewrite !recalcCounts_tallies. simpl.
    by rewrite !filter_app, !length_app.
Qed.

Lemma recalcCounts_order_and_append_witness :
  recalcCounts (Some [StatusEntry.mk (Some uid1) "Ann" "doing" 1;
                      StatusEntry.mk (Some uid2) "Bob" "completed" 2])
  = recalcCounts (Some [StatusEntry.mk (Some uid2) "Bob" "completed" 2;
                        StatusEntry.mk (Some uid1) "Ann" "doing" 1]).
Proof.
  apply (proj1 (recalcCounts_order_and_append
                  [StatusEntry.mk (Some uid1) "Ann" "doing" 1;
                   StatusEntry.mk (Some uid2) "Bob" "completed" 2]
                  [StatusEntry.mk (Some uid2) "Bob" "completed" 2;
                   StatusEntry.mk (Some uid1) "Ann" "doing" 1])).
  apply Permutation_swap.
Defined.
(** ** Which assignments exist *)

Section Identifiers.

Variable castObjectId : string → option string.

Variable D : gset string.

Lemma holds_ret_R {A} (I : Store → Prop) (a : A) (R : A → Prop) :
  R a → holds I (ret a) R.
Proof. intros Ha w Hw. split; [done|]. by intros a' [= <-]. Qed.

Lemma holds_bind_R {A B} (I : Store → Prop) (m : M A) (k : A → M B)
    (R : A → Prop) (R' : B → Prop) :
  holds I m R → (∀ a, R a → holds I (k a) R') → holds I (bind m k) R'.
Proof.
  intros Hm Hk w Hw. unfold bind.
  destruct (Hm w Hw) as [Hs Ha]. destruct (m w) as [[a|err] w']; simpl in *.
  - apply (Hk a); [by apply Ha|done].
  - split; [done|]. intros b [=].
Qed.

Lemma holds_storeCall_R {A} (I : Store → Prop) (op : Store → Outcome A * Store)
    (R : A → Prop) :
  (∀ s, I s → I (op s).2 ∧ ∀ a, (op s).1 = Ret a → R a) → holds I (storeCall op) R.
Proof.
  intros Hop w Hw. unfold storeCall. destruct (Hop _ Hw) as [Hs Ha].
  destruct (faults w) as [|[err|] fs]; simpl.
  - by destruct (op (store w)) as [o s].
  - split; [done|]. intros a [=].
  - by destruct (op (store w)) as [o s].
Qed.

Lemma sameIds_findById (id : string) :
  holds (sameIds D) (Work_findById castObjectId id) (λ o, ∀ d, o = Some d → _id d ∈ D).
Proof.
  unfold Work_findById. destruct (castObjectId id) as [oid|].
  - apply holds_storeCall_R. intros s Hs. split; [done|]. simpl.
    intros a [= <-] d Hd.
    destruct (works s !! oid) as [f|] eqn:Hf; [|done].
    injection Hd as <-. simpl. rewrite <- Hs. apply elem_of_dom. by eexists.
  - intros w Hw. split; [done|]. intros a [=].
Qed.

Lemma sameIds_find : holds (sameIds D) Work_find (Forall (λ d, _id d ∈ D)).
Proof.
  apply holds_storeCall_R. intros s Hs. split; [done|]. simpl.
  intros a [= <-]. apply Forall_fmap, Forall_forall. intros [k f] Hkf. simpl.
  apply elem_of_map_to_list in Hkf. rewrite <- Hs. apply elem_of_dom. by eexists.
Qed.

Lemma sameIds_recalc (d : Document Work.t) :
  _id d ∈ D →
  holds (sameIds D) (recalcAndSaveWorkCounts castObjectId (Some d)) (λ _, True).
Proof.
  intros Hd. apply holds_bind; [|intros _; apply holds_ret].
  unfold Work_save. destruct (validWork _ _); [|apply holds_throw].
  apply holds_storeCall. intros s Hs. unfold sameIds in *. simpl.
  rewrite dom_insert_L, Hs. apply subseteq_union_1_L.
  by apply singleton_subseteq_l.
Qed.

Lemma sameIds_recompute (now : Z) :
  holds (sameIds D) (recomputeAndSaveGlobalTotals now) (λ _, True).
Proof.
  apply holds_bind; [apply holds_storeCall; intros s Hs; exact Hs|]. intros agg.
  apply holds_bind; [apply holds_storeCall; intros s Hs; exact Hs|]. intros found.
  apply holds_bind; [apply holds_storeCall; intros s Hs; exact Hs|]. intros _.
  apply holds_ret.
Qed.

Lemma sameIds_routes
    (bcrypt_hash : string → nat → string)
    (bcrypt_compare : string → string → bool)
    (jwt_sign : TokenPayload → string → string → string)
    (JWT_SECRET : option string) (r : Request) :
  match r with
  | PostWorkAdd _ _ _ | DeleteWork _ _ => True
  | _ => holds (sameIds D)
               (handle castObjectId bcrypt_hash bcrypt_compare jwt_sign JWT_SECRET r)
               (λ _, True)
  end.
Proof.
  destruct r as [body newId|body|body newId t|id t|workId body t|workId| |t];
    try done; simpl.
  - intros w Hw. split; [|done]. unfold sameIds in *.
    by rewrite (proj1 (register_step bcrypt_hash body newId w)).
  - intros w Hw. split; [|done]. unfold sameIds in *. by rewrite login_step.
  - unfold updateStatus. apply holds_tryCatch; [|intros err; apply holds_ret].
    destruct (negb _ || negb _ || negb _); [apply holds_ret|].
    destruct (negb (isValidState _)); [apply holds_ret|].
    eapply holds_bind_R; [apply sameIds_findById|]. intros [d|] Hd; [|apply holds_ret].
    destruct (Work.status (fields d)); [|apply holds_throw].
    apply holds_bind; [apply sameIds_recalc; exact (Hd d eq_refl)|]. intros saved.
    apply holds_bind; [apply sameIds_recompute|]. intros tt. apply holds_ret.
  - unfold getStatus. apply holds_tryCatch; [|intros err; apply holds_ret].
    eapply holds_bind_R; [apply sameIds_findById|]. intros [d|] Hd; [|apply holds_ret].
    apply holds_bind; [|intros d1; apply holds_ret].
    destruct (Work.counts (fields d)); [apply holds_ret|].
    apply holds_bind; [apply sameIds_recalc; exact (Hd d eq_refl)|].
    intros saved. apply holds_ret.
  - unfold getTotals. apply holds_tryCatch; [|intros err; apply holds_ret].
    apply holds_bind; [apply holds_storeCall; intros s Hs; exact Hs|]. intros tt.
    apply holds_ret.
  - unfold recomputeTotals. apply holds_tryCatch; [|intros err; apply holds_ret].
    eapply holds_bind_R; [apply sameIds_find|]. intros allWorks Hall.
    apply holds_bind.
    + apply holds_promiseAll. apply Forall_fmap.
      eapply Forall_impl; [exact Hall|]. intros d Hd. by apply sameIds_recalc.
    + intros _. apply holds_bind; [apply sameIds_recompute|].
      intros tt. apply holds_ret.
Qed.

End Identifiers.

(** X22. Only adding and deleting change which assignments exist: a status
    upsert, a read of the counts, the forced recompute, the read of the
    totals, registration and login leave the set of assignment identifiers as
    it was, whatever the store answers; so a status upsert never creates an
    assignment. *)
Theorem assignments_added_and_deleted_only
    (castObjectId : string → option string)
    (bcrypt_hash : string → nat → string)
    (bcrypt_compare : string → string → bool)
    (jwt_sign : TokenPayload → string → string → string)
    (JWT_SECRET : option string) (r : Request) (w : World) :
  match r with
  | PostWorkAdd _ _ _ | DeleteWork _ _ => True
  | _ => dom (works (store (handle castObjectId bcrypt_hash bcrypt_compare jwt_sign
                                   JWT_SECRET r w).2))
         = dom (works (store w))
  end.
Proof.
  pose proof (sameIds_routes castObjectId (dom (works (store w))) bcrypt_hash
                bcrypt_compare jwt_sign JWT_SECRET r) as H.
  destruct r; try done; by apply H.
Qed.
(** ** Identifiers in the form the store shows them *)

Section StoredForm.

Variable castObjectId : string → option string.

Lemma entriesFor_upsert_same (l : list StatusEntry.t) (u n s : string) (t : Z) :
  storedForm castObjectId u →
  entriesFor u (upsertStatus castObjectId l u n s t) = Nat.max 1 (entriesFor u l).
Proof.
  intros Hu.
  destruct (first_split (sameUser u) l) as [H|(l1 & e & l2 & -> & H1 & He)].
  - rewrite upsertStatus_append by done. rewrite Hu.
    rewrite entriesFor_app. apply entriesFor_none in H. rewrite H.
    rewrite entriesFor_cons. simpl. by case_decide.
  - rewrite upsertStatus_overwrite by done.
    rewrite !entriesFor_app, !entriesFor_cons. simpl.
    apply sameUser_true in He. repeat case_decide; try done. lia.
Qed.

Lemma entriesFor_upsert_other (l : list StatusEntry.t) (u u' n s : string) (t : Z) :
  storedForm castObjectId u → u' ≠ u →
  entriesFor u' (upsertStatus castObjectId l u n s t) = entriesFor u' l.
Proof.
  intros Hu Hne.
  destruct (first_split (sameUser u) l) as [H|(l1 & e & l2 & -> & H1 & He)].
  - rewrite upsertStatus_append by done. rewrite Hu.
    rewrite entriesFor_app, entriesFor_cons. simpl.
    case_decide; [congruence|]. unfold entriesFor. simpl. lia.
  - rewrite upsertStatus_overwrite by done.
    by rewrite !entriesFor_app, !entriesFor_cons.
Qed.

Lemma oneEntryPerUser_upsert (d : Document Work.t) (l : list StatusEntry.t)
    (u n s : string) (t : Z) (c : Counts.t) :
  storedForm castObjectId u →
  oneEntryPerUser (fields d) → Work.status (fields d) = Some l →
  oneEntryPerUser (fields (setCounts (setStatus d (upsertStatus castObjectId l u n s t)) c)).
Proof.
  intros Hu Hd Hl uid. simpl.
  assert (entriesFor uid l ≤ 1) as Hone by (specialize (Hd uid); by rewrite Hl in Hd).
  destruct (decide (uid = u)) as [->|Hne].
  - rewrite entriesFor_upsert_same by done. lia.
  - by rewrite entriesFor_upsert_other.
Qed.

Lemma oneEntryPerUser_hydrate (f : Work.t) : oneEntryPerUser f → oneEntryPerUser (hydrate f).
Proof. intros Hf uid. specialize (Hf uid). simpl. by destruct (Work.status f). Qed.

Lemma oneEntryPerUser_new subject work deadline addedBy fileUrl createdAt :
  oneEntryPerUser (Work.mk subject work deadline addedBy fileUrl createdAt
                           (Some []) (Some (Counts.mk 0 0 0))).
Proof. intros uid. simpl. unfold entriesFor. simpl. lia. Qed.

(** A status upsert with an identifier in the stored form keeps the
    invariant. *)
Lemma oneEntryPerUser_updateStatus (workId : string) (body : gmap string string)
    (now : Z) :
  storedForm castObjectId (str (body !! "userId")) →
  keeps oneEntryPerUser (updateStatus castObjectId workId body now) (λ _, True).
Proof.
  intros Hu. unfold updateStatus.
  apply keeps_tryCatch; [|apply keeps_caught].
  destruct (negb _ || negb _ || negb _); [by apply keeps_ret|].
  destruct (negb (isValidState _)); [by apply keeps_ret|].
  eapply keeps_bind.
  { apply keeps_Work_findById. apply oneEntryPerUser_hydrate. }
  intros [d|] Hd; [|by apply keeps_ret].
  specialize (Hd d eq_refl).
  destruct (Work.status (fields d)) as [l|] eqn:Hl; [|apply keeps_throw].
  eapply keeps_bind.
  - apply keeps_recalcAndSaveWorkCounts. simpl. by apply oneEntryPerUser_upsert.
  - intros saved _.
    eapply keeps_bind; [apply keeps_recomputeAndSaveGlobalTotals|]. intros t _.
    by apply keeps_ret.
Qed.

Lemma oneEntryPerUser_handle
    (bcrypt_hash : string → nat → string)
    (bcrypt_compare : string → string → bool)
    (jwt_sign : TokenPayload → string → string → string)
    (JWT_SECRET : option string) (r : Request) :
  sendsStoredForm castObjectId r →
  keeps oneEntryPerUser
        (handle castObjectId bcrypt_hash bcrypt_compare jwt_sign JWT_SECRET r)
        (λ _, True).
Proof.
  intros Hr.
  destruct r as [body newId|body|body newId t|id t|workId body t|workId| |t]; simpl.
  - apply keeps_register.
  - apply keeps_login.
  - apply keeps_addWork. apply oneEntryPerUser_new.
  - apply keeps_deleteWork.
  - by apply oneEntryPerUser_updateStatus.
  - apply keeps_getStatus; [by intros d|apply oneEntryPerUser_hydrate].
  - apply keeps_getTotals.
  - apply keeps_recomputeTotals; [by intros d|apply oneEntryPerUser_hydrate].
Qed.

End StoredForm.

(** X28. For user identifiers sent in the form the store shows them, there
    is one status entry per user: in a store whose assignments all have at
    most one status entry for each user identifier (every new assignment has
    none), this is still so after any sequence of requests whose status
    upserts carry such an identifier, whatever the store answers. *)
Theorem stored_form_one_entry_per_user
    (castObjectId : string → option string)
    (bcrypt_hash : string → nat → string)
    (bcrypt_compare : string → string → bool)
    (jwt_sign : TokenPayload → string → string → string)
    (JWT_SECRET : option string) (rs : list Request) (w : World) :
  Forall (sendsStoredForm castObjectId) rs →
  (∀ id f, works (store w) !! id = Some f → oneEntryPerUser f) →
  ∀ id f uid,
    works (store (serve castObjectId bcrypt_hash bcrypt_compare jwt_sign JWT_SECRET
                    rs w)) !! id = Some f →
    entriesFor uid (default [] (Work.status f)) ≤ 1.
Proof.
  intros Hrs. revert w. induction Hrs as [|r rs Hr _ IH]; intros w Hw id f uid Hf.
  - by apply (Hw id f).
  - simpl in Hf. eapply IH; [|exact Hf].
    apply (oneEntryPerUser_handle castObjectId bcrypt_hash bcrypt_compare jwt_sign
             JWT_SECRET r Hr w). exact Hw.
Qed.

(** The sample run: Ann reports twice and Bob once, and each has one
    entry. *)
Lemma stored_form_one_entry_per_user_witness :
  entriesFor uid1 (default [] (Work.status sample_work)) ≤ 1.
Proof.
  assert (Forall (sendsStoredForm sample_cast) sample_requests) as Hrs.
  { unfold sample_requests. repeat apply Forall_cons_2; try apply Forall_nil_2;
      vm_compute; done. }
  apply (stored_form_one_entry_per_user sample_cast sample_hash sample_compare
           sample_sign None sample_requests (mkWorld emptyStore []) Hrs) with wid1.
  - intros id f. unfold emptyStore. simpl. rewrite lookup_empty. discriminate.
  - vm_compute. reflexivity.
Defined.
(** ** Identifiers that are no ObjectId *)

(** X29. A path parameter that does not cast to an ObjectId is answered 500
    by the three routes that look an assignment up by it, with the store
    never called: the world is as before. A status upsert whose userId does
    not cast (and which no entry is stored under) is answered 500 after the
    lookup: the save rejects the document, and nothing is stored. *)
Theorem uncastable_ids_answer_500 (castObjectId : string → option string)
    (workId : string) (body : gmap string string) (now : Z) (w : World) :
  (castObjectId workId = None →
   (∃ err, getStatus castObjectId workId w
           = (Ret (mkResponse 500 [("success", JBool false);
                                   ("message", JStr "Error fetching counts");
                                   ("error", JStr err)]), w))
   ∧ (∃ err, deleteWork castObjectId workId now w
             = (Ret (mkResponse 500 [("success", JBool false);
                                     ("message", JStr "Error deleting work");
                                     ("error", JStr err)]), w))
   ∧ (truthy (body !! "userId") = true → truthy (body !! "username") = true →
      isValidState (body !! "state") = true →
      ∃ err, updateStatus castObjectId workId body now w
             = (Ret (mkResponse 500 [("success", JBool false);
                                     ("message", JStr "Failed to update status");
                                     ("error", JStr err)]), w)))
  ∧ (∀ oid f,
       castObjectId workId = Some oid → works (store w) !! oid = Some f →
       truthy (body !! "userId") = true → truthy (body !! "username") = true →
       isValidState (body !! "state") = true →
       castObjectId (str (body !! "userId")) = None →
       entriesFor (str (body !! "userId")) (default [] (Work.status f)) = 0 →
       answers w = true →
       ∃ err, updateStatus castObjectId workId body now w
              = (Ret (mkResponse 500 [("success", JBool false);
                                      ("message", JStr "Failed to update status");
                                      ("error", JStr err)]),
                 mkWorld (store w) (tail (faults w)))).
Proof.
  split.
  - intros Hid. split; [|split].
    + eexists. unfold getStatus, tryCatch, bind, Work_findById. by rewrite Hid.
    + eexists. unfold deleteWork, tryCatch, bind, Work_findByIdAndDelete.
      by rewrite Hid.
    + intros Hu Hn Hv. eexists. unfold updateStatus, tryCatch.
      rewrite Hu, Hn, Hv, (isValidState_truthy _ Hv). cbn [negb orb].
      unfold bind, Work_findById. by rewrite Hid.
  - intros oid f Hoid Hf Hu Hn Hv Hcast Hnone Hans.
    assert (validWork castObjectId
              (fields (setStatus (mkDocument oid (hydrate f))
                 (upsertStatus castObjectId (default [] (Work.status f))
                    (str (body !! "userId")) (str (body !! "username"))
                    (str (body !! "state")) now))) = false) as Hbad.
    { apply entriesFor_none in Hnone.
      rewrite upsertStatus_append by done.
      match goal with |- ?b = false => destruct b eqn:Hvalid; [|done] end.
      apply validWork_entries in Hvalid. simpl in Hvalid.
      apply Forall_app in Hvalid as [_ Hlast].
      apply Forall_singleton, validEntry_spec in Hlast as [_ Hlast].
      destruct (Hlast _ eq_refl) as [c Hc].
      unfold castOrKeep in Hc. rewrite Hcast in Hc. simpl in Hc. congruence. }
    eexists. unfold updateStatus, tryCatch.
    rewrite Hu, Hn, Hv, (isValidState_truthy _ Hv). cbn [negb orb].
    rewrite (bind_run _ _ _ (Some (mkDocument oid (hydrate f)))
               (mkWorld (store w) (tail (faults w)))).
    + cbn [fields hydrate Work.status].
      unfold bind at 1.
      rewrite recalcAndSaveWorkCounts_rejects by exact Hbad.
      reflexivity.
    + unfold Work_findById, storeCall. rewrite Hoid, Hf.
      unfold answers in Hans. by destruct (faults w) as [|[e|] fs].
Qed.

(** An identifier that is no 24 hexadecimal digits, as the parameter of the
    counts read and as the userId of a status upsert. *)
Lemma uncastable_ids_answer_500_witness :
  (∃ err, getStatus sample_cast "assignment-9" (mkWorld stale_store [Some "down"])
          = (Ret (mkResponse 500 [("success", JBool false);
                                  ("message", JStr "Error fetching counts");
                                  ("error", JStr err)]),
             mkWorld stale_store [Some "down"]))
  ∧ (∃ err, updateStatus sample_cast wid9
              (body_of [("userId", "bob"); ("username", "Bob"); ("state", "doing")]) 50
              (mkWorld stale_store [])
            = (Ret (mkResponse 500 [("success", JBool false);
                                    ("message", JStr "Failed to update status");
                                    ("error", JStr err)]),
               mkWorld stale_store [])).
Proof.
  split.
  - apply (proj1 (uncastable_ids_answer_500 sample_cast "assignment-9" ∅ 0
                    (mkWorld stale_store [Some "down"]))).
    vm_compute. reflexivity.
  - apply (proj2 (uncastable_ids_answer_500 sample_cast wid9
                    (body_of [("userId", "bob"); ("username", "Bob");
                              ("state", "doing")]) 50 (mkWorld stale_store []))
             wid9 stale_work); vm_compute; reflexivity.
Defined.

(** ** A status upsert that goes through *)

(** X30. A status upsert with its three fields and a valid state, on a stored
    assignment, the store answering and the new document passing the
    validation, answers 200: the record is read with the schema defaults (a
    record without a status array gets its first entry), the entry of the
    user is overwritten or pushed, the counts are those of the new list, the
    totals are recomputed from the store, and the response shows the stored
    document and the stored totals. *)
Theorem updateStatus_stores (castObjectId : string → option string)
    (workId oid : string) (body : gmap string string) (now : Z)
    (us : list (Document User.t)) (ws : gmap string Work.t)
    (old : option WorkTotals.t) (f : Work.t) :
  truthy (body !! "userId") = true → truthy (body !! "username") = true →
  isValidState (body !! "state") = true →
  castObjectId workId = Some oid → ws !! oid = Some f →
  let l' := upsertStatus castObjectId (default [] (Work.status f))
              (str (body !! "userId")) (str (body !! "username"))
              (str (body !! "state")) now in
  let f' := Work.mk (Work.subject f) (Work.work f) (Work.deadline f) (Work.addedBy f)
                    (Work.fileUrl f) (Work.createdAt f) (Some l')
                    (Some (Counts.mk (length (filter isCompleted l'))
                                     (length (filter isDoing l'))
                                     (length (filter isRemaining l')))) in
  let t := totalsOf (<[oid := f']> ws) now in
  validWork castObjectId f' = true →
  updateStatus castObjectId workId body now (mkWorld (mkStore us ws old) [])
  = (Ret (mkResponse 200 [("success", JBool true); ("message", JStr "Status updated");
                          ("work", JWork (mkDocument oid f'));
                          ("totals", JTotals t)]),
     mkWorld (mkStore us (<[oid := f']> ws) (Some t)) []).
Proof.
  intros Hu Hn Hv Hoid Hf l' f' t Hvalid.
  unfold updateStatus, tryCatch.
  rewrite Hu, Hn, Hv, (isValidState_truthy _ Hv). cbn [negb orb].
  rewrite (bind_run _ _ _ (Some (mkDocument oid (hydrate f)))
             (mkWorld (mkStore us ws old) []))
    by (unfold Work_findById, storeCall; rewrite Hoid; simpl; by rewrite Hf).
  cbn [fields hydrate Work.status]. fold l'.
  rewrite (bind_run _ _ _ _ _
             (recalcAndSaveWorkCounts_run castObjectId
                (setStatus (mkDocument oid (hydrate f)) l') (mkStore us ws old) Hvalid)).
  assert (setCounts (setStatus (mkDocument oid (hydrate f)) l')
            (recalcCounts (Work.status (fields (setStatus (mkDocument oid (hydrate f)) l'))))
          = mkDocument oid f') as ->.
  { unfold setCounts, setStatus, f'. simpl. by rewrite recalcCounts_tallies. }
  unfold withWork. cbn [users works totals _id fields].
  rewrite (bind_run _ _ _ _ _ (recomputeAndSaveGlobalTotals_run _ _ _ _)).
  reflexivity.
Qed.

(** The first entry of a record that has neither a status array nor
    counts. *)
Lemma updateStatus_stores_witness :
  updateStatus sample_cast wid1 sample_upsert 50
    (mkWorld (mkStore []
                {[ wid1 := Work.mk "Biology" "Quiz" "2024-06-06" "Admin" "" 4 None None ]}
                None) [])
  = (Ret (mkResponse 200
            [("success", JBool true); ("message", JStr "Status updated");
             ("work", JWork (mkDocument wid1
                (Work.mk "Biology" "Quiz" "2024-06-06" "Admin" "" 4
                         (Some [StatusEntry.mk (Some uid2) "Bob" "completed" 50])
                         (Some (Counts.mk 1 0 0)))));
             ("totals", JTotals (WorkTotals.mk 1 1 0 0 50))]),
     mkWorld (mkStore []
                {[ wid1 := Work.mk "Biology" "Quiz" "2024-06-06" "Admin" "" 4
                                   (Some [StatusEntry.mk (Some uid2) "Bob" "completed" 50])
                                   (Some (Counts.mk 1 0 0)) ]}
                (Some (WorkTotals.mk 1 1 0 0 50))) []).
Proof.
  etransitivity.
  - apply (updateStatus_stores sample_cast wid1 wid1 sample_upsert 50 []
             {[ wid1 := Work.mk "Biology" "Quiz" "2024-06-06" "Admin" "" 4 None None ]}
             None (Work.mk "Biology" "Quiz" "2024-06-06" "Admin" "" 4 None None));
      vm_compute; reflexivity.
  - vm_compute. reflexivity.
Defined.

(** * The upload routes *)

(** ** The format of an uploaded file *)

Lemma splitDots_cons (s : string) : ∃ h t, splitDots s = h :: t.
Proof.
  destruct s as [|c r]; cbn [splitDots]; [by eexists _, _|].
  destruct (String.eqb (String c "") "."); [by eexists _, _|].
  destruct (splitDots r); by eexists _, _.
Qed.

Lemma splitDots_no_dot (s : string) : hasDot s = false → splitDots s = [s].
Proof.
  induction s as [|c r IH]; [done|]. cbn [splitDots hasDot].
  destruct (String.eqb (String c "") "."); [done|]. cbn [orb].
  intros Hr. by rewrite IH.
Qed.

Lemma splitDots_pieces (s : string) : Forall (λ p, hasDot p = false) (splitDots s).
Proof.
  induction s as [|c r IH]; cbn [splitDots]; [by repeat constructor|].
  destruct (String.eqb (String c "") ".") eqn:Hc; [by constructor|].
  destruct (splitDots r) as [|h t].
  - repeat constructor. cbn [hasDot]. by rewrite Hc.
  - apply Forall_cons in IH as [Hh Ht]. constructor; [|done].
    cbn [hasDot]. by rewrite Hc.
Qed.

Lemma splitDots_app (a b : string) :
  ∃ h t, splitDots (String.append a (String.append "." b)) = (h :: t) ++ splitDots b.
Proof.
  induction a as [|c a IH].
  - by exists "", [].
  - destruct IH as (h & t & IH).
    change (String.append (String c a) (String.append "." b))
      with (String c (String.append a (String.append "." b))).
    cbn [splitDots]. rewrite IH.
    destruct (String.eqb (String c "") "."); [by exists "", (h :: t)|].
    by exists (String c h), t.
Qed.

(** X23. The format recorded for an uploaded material is the piece of the
    file name after its last dot: that piece holds no dot; a name without a
    dot is its own last piece (the whole name becomes the format); and
    whatever stands before a dot is dropped. *)
Theorem lastPiece_after_last_dot (s : string) :
  hasDot (lastPiece s) = false
  ∧ (hasDot s = false → lastPiece s = s)
  ∧ ∀ a b, hasDot b = false → lastPiece (String.append a (String.append "." b)) = b.
Proof.
  split; [|split].
  - unfold lastPiece. pose proof (splitDots_pieces s) as H.
    destruct (last (splitDots s)) as [p|] eqn:Hp; [|done]. simpl.
    apply last_Some in Hp as [l Hl]. rewrite Hl in H.
    apply Forall_app in H as [_ H]. by apply Forall_cons in H as [H _].
  - intros H. unfold lastPiece. by rewrite splitDots_no_dot.
  - intros a b Hb. unfold lastPiece.
    destruct (splitDots_app a b) as (h & t & ->).
    rewrite splitDots_no_dot by done.
    exact (f_equal (default "") (last_snoc b (h :: t))).
Qed.

Lemma lastPiece_after_last_dot_witness :
  lastPiece "notes.v2.PDF" = "PDF" ∧ lastPiece "README" = "README".
Proof.
  split.
  - apply (proj2 (proj2 (lastPiece_after_last_dot "notes.v2.PDF")) "notes.v2" "PDF").
    reflexivity.
  - apply (proj1 (proj2 (lastPiece_after_last_dot "README"))). reflexivity.
Defined.

(** ** The material upload *)



(** X25. The temporary file is deleted exactly when the transfer succeeded:
    after either upload route has handled a file that was on disk, the file
    is gone if and only if the storage accepted it (a rejected transfer
    leaves it behind), and no other file on disk is touched. *)
Theorem temp_file_removed_iff_transferred
    (imagekit_upload : nat → Transfer → string + string)
    (toLowerCase : string → string) (f : UploadedFile) (body : gmap string string)
    (newId : string) (now : Z) (m : Media) (content : string) :
  disk m !! path f = Some content →
  let m1 := (uploadMaterial imagekit_upload toLowerCase (Some f) body newId now m).2 in
  let m2 := (uploadWorkFile imagekit_upload (Some f) m).2 in
  (disk m1 !! path f = None
   ↔ ∃ url, imagekit_upload (transfers m) (materialTransfer toLowerCase content f)
            = inl url)
  ∧ (disk m2 !! path f = None
     ↔ ∃ url, imagekit_upload (transfers m) (workTransfer content f) = inl url)
  ∧ ∀ p, p ≠ path f → disk m1 !! p = disk m !! p ∧ disk m2 !! p = disk m !! p.
Proof.
  intros Hdisk m1 m2. subst m1 m2.
  unfold uploadMaterial, uploadWorkFile, utryCatch, ubind, readFileSync,
    upload_to_imagekit, unlinkSync, Mat_save, ucaught, uret, materialTransfer,
    workTransfer.
  rewrite Hdisk.
  split; [|split].
  - destruct (imagekit_upload (transfers m) _) as [url|err]; simpl.
    + rewrite Hdisk. simpl.
      destruct (matFaults m) as [|[e|] fs]; simpl; rewrite lookup_delete_eq;
        split; eauto.
    + rewrite Hdisk. split; [done|]. by intros [url ?].
  - destruct (imagekit_upload (transfers m) _) as [url|err]; simpl.
    + rewrite Hdisk. simpl. rewrite lookup_delete_eq. split; eauto.
    + rewrite Hdisk. split; [done|]. by intros [url ?].
  - intros p Hp. split.
    + destruct (imagekit_upload (transfers m) _) as [url|err]; simpl; [|done].
      rewrite Hdisk. simpl.
      destruct (matFaults m) as [|[e|] fs]; simpl; by rewrite lookup_delete_ne.
    + destruct (imagekit_upload (transfers m) _) as [url|err]; simpl; [|done].
      rewrite Hdisk. simpl. by rewrite lookup_delete_ne.
Qed.

Lemma temp_file_removed_iff_transferred_witness :
  disk (uploadWorkFile sample_storage (Some (mkUploadedFile "uploads/b2" "empty.txt"))
          sample_media).2 !! "uploads/b2" ≠ None.
Proof.
  pose proof (temp_file_removed_iff_transferred sample_storage sample_lower
                (mkUploadedFile "uploads/b2" "empty.txt") ∅ mid1 100 sample_media "")
    as H.
  destruct H as (_ & [H _] & _); [vm_compute; reflexivity|].
  intros Hgone. destruct (H Hgone) as [url Hurl]. vm_compute in Hurl. discriminate.
Defined.

(** X26. What a failed material upload leaves behind: a rejected transfer
    answers 500 "Upload failed" with the storage's error text, the temporary
    file still on disk and no material recorded; a transfer that succeeded
    followed by a refused save answers 500 likewise, with the temporary file
    deleted, the file in the storage and still no material; and a temporary
    file that is missing answers 500 before any transfer is tried. *)
Theorem uploadMaterial_failures
    (imagekit_upload : nat → Transfer → string + string)
    (toLowerCase : string → string) (f : UploadedFile) (body : gmap string string)
    (newId : string) (now : Z) (m : Media) :
  let failed err :=
    mkUResponse 500 [("success", UBool false); ("message", UStr "Upload failed");
                     ("error", UStr err)] in
  (∀ content err,
     disk m !! path f = Some content →
     imagekit_upload (transfers m) (materialTransfer toLowerCase content f) = inr err →
     uploadMaterial imagekit_upload toLowerCase (Some f) body newId now m
     = (Ret (failed err),
        mkMedia (mats m) (disk m) (remote m) (S (transfers m)) (matFaults m)))
  ∧ (∀ content url err fs,
       disk m !! path f = Some content →
       imagekit_upload (transfers m) (materialTransfer toLowerCase content f) = inl url →
       matFaults m = Some err :: fs →
       uploadMaterial imagekit_upload toLowerCase (Some f) body newId now m
       = (Ret (failed err),
          mkMedia (mats m) (delete (path f) (disk m))
                  (remote m ++ [(materialTransfer toLowerCase content f, url)])
                  (S (transfers m)) fs))
  ∧ (disk m !! path f = None →
     uploadMaterial imagekit_upload toLowerCase (Some f) body newId now m
     = (Ret (failed "ENOENT: no such file or directory"), m)).
Proof.
  intros failed. subst failed. split; [|split].
  - intros content err Hdisk Hkit.
    unfold uploadMaterial, utryCatch, ubind, readFileSync, upload_to_imagekit, ucaught,
      uret, materialTransfer in *.
    by rewrite Hdisk, Hkit.
  - intros content url err fs Hdisk Hkit Hfs.
    unfold uploadMaterial, utryCatch, ubind, readFileSync, upload_to_imagekit,
      unlinkSync, Mat_save, ucaught, uret, materialTransfer in *.
    rewrite Hdisk, Hkit. simpl. rewrite Hdisk. simpl. by rewrite Hfs.
  - intros Hdisk.
    unfold uploadMaterial, utryCatch, ubind, readFileSync, ucaught, uret.
    by rewrite Hdisk.
Qed.

Lemma uploadMaterial_failures_witness :
  uploadMaterial sample_storage sample_lower
    (Some (mkUploadedFile "uploads/b2" "empty.txt")) ∅ mid1 100 sample_media
  = (Ret (mkUResponse 500 [("success", UBool false); ("message", UStr "Upload failed");
                           ("error", UStr "empty file")]),
     mkMedia [] (disk sample_media) [] 1 []).
Proof.
  apply (proj1 (uploadMaterial_failures sample_storage sample_lower
                  (mkUploadedFile "uploads/b2" "empty.txt") ∅ mid1 100%Z sample_media)
               "" "empty file");
    vm_compute; reflexivity.
Defined.

(** ** The upload of an assignment's file *)

(** X27. The upload of an assignment's file creates no record, whatever
    happens: the materials are as before; when the temporary file is on disk
    and the storage accepts it, the answer is 200 with the URL the storage
    gave, the file having gone to "/work_uploads" under a unique name and the
    temporary file being deleted. Without a file, either upload route
    answers 400 "No file uploaded" and touches nothing. *)
Theorem uploadWorkFile_returns_url
    (imagekit_upload : nat → Transfer → string + string)
    (toLowerCase : string → string) (m : Media) :
  (∀ reqFile, mats (uploadWorkFile imagekit_upload reqFile m).2 = mats m)
  ∧ (∀ f content url,
       disk m !! path f = Some content →
       imagekit_upload (transfers m) (workTransfer content f) = inl url →
       uploadWorkFile imagekit_upload (Some f) m
       = (Ret (mkUResponse 200 [("success", UBool true); ("fileUrl", UStr url)]),
          mkMedia (mats m) (delete (path f) (disk m))
                  (remote m ++ [(workTransfer content f, url)]) (S (transfers m))
                  (matFaults m)))
  ∧ uploadWorkFile imagekit_upload None m
    = (Ret (mkUResponse 400 [("success", UBool false);
                             ("message", UStr "No file uploaded")]), m)
  ∧ ∀ body newId now,
      uploadMaterial imagekit_upload toLowerCase None body newId now m
      = (Ret (mkUResponse 400 [("success", UBool false);
                               ("message", UStr "No file uploaded")]), m).
Proof.
  split; [|split; [|split]].
  - intros [f|]; [|done].
    unfold uploadWorkFile, utryCatch, ubind, readFileSync, upload_to_imagekit,
      unlinkSync, ucaught, uret.
    destruct (disk m !! path f) as [content|] eqn:Hdisk; [|done].
    destruct (imagekit_upload (transfers m) _) as [url|err]; simpl; [|done].
    by rewrite Hdisk.
  - intros f content url Hdisk Hkit.
    unfold uploadWorkFile, utryCatch, ubind, readFileSync, upload_to_imagekit,
      unlinkSync, uret, workTransfer in *.
    rewrite Hdisk, Hkit. simpl. by rewrite Hdisk.
  - done.
  - done.
Qed.

Lemma uploadWorkFile_returns_url_witness :
  uploadWorkFile sample_storage (Some (mkUploadedFile "uploads/a1" "hw1.pdf"))
                 sample_media
  = (Ret (mkUResponse 200 [("success", UBool true);
                           ("fileUrl", UStr "https://ik.example/work_uploads/hw1.pdf")]),
     mkMedia [] (delete "uploads/a1" (disk sample_media))
             [(mkTransfer "%PDF-1.4" "hw1.pdf" "/work_uploads" None (Some true),
               "https://ik.example/work_uploads/hw1.pdf")] 1 []).
Proof.
  apply (proj1 (proj2 (uploadWorkFile_returns_url sample_storage sample_lower
                         sample_media))
               (mkUploadedFile "uploads/a1" "hw1.pdf") "%PDF-1.4"
               "https://ik.example/work_uploads/hw1.pdf");
    vm_compute; reflexivity.
Defined.
